(** * easproc: SAME/EAS demodulator and encoder

  A shallow embedding of [main.c] (the demodulator: symbol clock, byte
  assembler, frame parser, chunked sample loop) and [encode.c] (the
  encoder), with the properties of the design document stated over it.

  Conventions.
  - A C [char]/[unsigned char] is a [Z] in [0, 256) (its byte value); the
    signed reading of a [char] is [schar].
  - [unsigned int] is a [Z] reduced modulo [2^32], [unsigned long] a [Z]
    reduced modulo [2^64]; the reductions are written out.
  - A C array is a [list]; an access outside the array is undefined
    behaviour and is modelled by [None] in the [option] monad.
  - [float] and [double] are IEEE-754 binary32 and binary64, computed with
    the parametric operations of [SpecFloat]. *)

From Stdlib Require Import ZArith Lia List Bool.
From Stdlib Require Import SpecFloat.
From stdpp Require Import base tactics option list.

Local Open Scope Z_scope.

(** Boolean comparisons on [Z] in the hypotheses, as propositions. *)
Ltac zbool :=
  repeat match goal with
    | H : (_ <=? _) = true |- _ => apply Z.leb_le in H
    | H : (_ <=? _) = false |- _ => apply Z.leb_gt in H
    | H : (_ <? _) = true |- _ => apply Z.ltb_lt in H
    | H : (_ <? _) = false |- _ => apply Z.ltb_ge in H
    | H : (_ =? _) = true |- _ => apply Z.eqb_eq in H
    | H : (_ =? _) = false |- _ => apply Z.eqb_neq in H
    end.

(** ** C arrays and the string functions of libc used by the sources *)

Module CStr.

(** [a[i]] for reading; [None] outside the array. *)
Definition load {A} (a : list A) (i : Z) : option A :=
  if (0 <=? i) && (i <? Z.of_nat (length a)) then a !! Z.to_nat i else None.

(** [a[i] = v]; [None] outside the array. *)
Definition store {A} (a : list A) (i : Z) (v : A) : option (list A) :=
  if (0 <=? i) && (i <? Z.of_nat (length a))
  then Some (<[Z.to_nat i := v]> a) else None.

(** [memset(&a[off], v, n)]. *)
Definition memset (a : list Z) (off : Z) (v : Z) (n : Z) : option (list Z) :=
  if (0 <=? off) && (0 <=? n) && (off + n <=? Z.of_nat (length a))
  then Some (take (Z.to_nat off) a ++ replicate (Z.to_nat n) v
               ++ drop (Z.to_nat (off + n)) a)
  else None.

(** [memcpy(&a[off], src, n)]. *)
Definition memcpy (a : list Z) (off : Z) (src : list Z) (n : Z)
  : option (list Z) :=
  if (0 <=? off) && (0 <=? n) && (off + n <=? Z.of_nat (length a))
     && (n <=? Z.of_nat (length src))
  then Some (take (Z.to_nat off) a ++ take (Z.to_nat n) src
               ++ drop (Z.to_nat (off + n)) a)
  else None.

(** The bytes of the C string starting at [a]: everything before the
    first NUL.  [None] when the array holds no NUL (the scan leaves it). *)
Fixpoint cstr (a : list Z) : option (list Z) :=
  match a with
  | [] => None
  | c :: a' => if c =? 0 then Some [] else t ← cstr a'; Some (c :: t)
  end.

Definition strlen (a : list Z) : option Z :=
  t ← cstr a; Some (Z.of_nat (length t)).

(** [strncmp(a, b, n)]: the difference of the first differing bytes, 0
    when the strings agree on their first [n] bytes or up to a NUL. *)
Fixpoint strncmp (a b : list Z) (n : nat) {struct n} : option Z :=
  match n with
  | O => Some 0
  | S n' =>
      match a, b with
      | x :: a', y :: b' =>
          if x =? y then (if x =? 0 then Some 0 else strncmp a' b' n')
          else Some (x - y)
      | _, _ => None
      end
  end.

(** The scan of [strrchr(a, c)] for [c <> 0]: the index of the last
    occurrence of [c] before the terminator ([Some None] when there is
    none); [None] when the array holds no terminator. *)
Fixpoint strrchr_from (a : list Z) (c : Z) (i : Z) (last : option Z)
  : option (option Z) :=
  match a with
  | [] => None
  | x :: a' =>
      if x =? 0 then Some last
      else strrchr_from a' c (i + 1) (if x =? c then Some i else last)
  end.

Definition strrchr (a : list Z) (c : Z) : option (option Z) :=
  strrchr_from a c 0 None.

(** [strncpy(dst, src, n)]: the bytes of [src] up to its NUL or [n],
    then NULs up to [n]. *)
Fixpoint strncpy_bytes (src : list Z) (n : nat) {struct n}
  : option (list Z) :=
  match n with
  | O => Some []
  | S n' =>
      match src with
      | [] => None
      | c :: src' =>
          if c =? 0 then Some (replicate n 0)
          else t ← strncpy_bytes src' n'; Some (c :: t)
      end
  end.

Definition strncpy (dst src : list Z) (n : nat) : option (list Z) :=
  if (Z.of_nat n <=? Z.of_nat (length dst))
  then t ← strncpy_bytes src n; Some (t ++ drop n dst)
  else None.

End CStr.

(** ** The frame parser: [process_frame_char] of main.c *)

Module Frame.
Import CStr.

Inductive EAS_L2_State :=
| EAS_L2_IDLE
| EAS_L2_HEADER_SEARCH
| EAS_L2_READING_MESSAGE
| EAS_L2_READING_EOM.

Definition state_eqb (a b : EAS_L2_State) : bool :=
  match a, b with
  | EAS_L2_IDLE, EAS_L2_IDLE
  | EAS_L2_HEADER_SEARCH, EAS_L2_HEADER_SEARCH
  | EAS_L2_READING_MESSAGE, EAS_L2_READING_MESSAGE
  | EAS_L2_READING_EOM, EAS_L2_READING_EOM => true
  | _, _ => false
  end.

Definition MAX_MSG_LEN : Z := 268.
Definition MAX_HEADER_LEN : Z := 4.
Definition MAX_STORE_MSG : Z := 3.

(** ["ZCZC"] and ["NNNN"], with their terminators. *)
Definition HEADER_BEGIN : list Z := [90; 67; 90; 67; 0].
Definition EOM : list Z := [78; 78; 78; 78; 0].
Definition HEADER_BEGIN_text : list Z := [90; 67; 90; 67].

Definition ULONG_MOD : Z := 2 ^ 64.

(** The file-scope variables of main.c the parser works on. *)
Record l2_state := mk_l2 {
  last_message : list Z;        (* char last_message[269] *)
  msg_buf : list (list Z);      (* char msg_buf[4][269] *)
  head_buf : list Z;            (* char head_buf[4] *)
  headlen : Z;                  (* unsigned long *)
  msglen : Z;                   (* unsigned long *)
  msgno : Z;                    (* unsigned long *)
  frame_state : EAS_L2_State    (* int, holding an EAS_L2_State *)
}.

(** What the parser prints: the three [printf] calls. *)
Inductive event :=
| PartialMessage (text : list Z)    (* "EAS (part): %s%s" *)
| ConfirmedAlert (text : list Z)    (* "EAS: %s%s" *)
| EndOfMessage.                     (* "EAS: NNNN" *)

(** Static storage is zero-initialised. *)
Definition l2_init : l2_state :=
  {| last_message := replicate 269 0;
     msg_buf := replicate 4 (replicate 269 0);
     head_buf := replicate 4 0;
     headlen := 0; msglen := 0; msgno := 0;
     frame_state := EAS_L2_IDLE |}.

Definition set_frame_state (s : l2_state) (f : EAS_L2_State) : l2_state :=
  {| last_message := last_message s; msg_buf := msg_buf s;
     head_buf := head_buf s; headlen := headlen s; msglen := msglen s;
     msgno := msgno s; frame_state := f |}.

(** Lines 215-248: a non-zero byte. *)
Definition on_data (data : Z) (s : l2_state) : option l2_state :=
  let s1 :=
    if state_eqb (frame_state s) EAS_L2_IDLE
    then set_frame_state s EAS_L2_HEADER_SEARCH else s in
  s2 ← (if state_eqb (frame_state s1) EAS_L2_HEADER_SEARCH
           && (headlen s1 <? MAX_HEADER_LEN)
        then
          hb ← store (head_buf s1) (headlen s1) data;
          Some {| last_message := last_message s1; msg_buf := msg_buf s1;
                  head_buf := hb;
                  headlen := (headlen s1 + 1) mod ULONG_MOD;
                  msglen := msglen s1; msgno := msgno s1;
                  frame_state := frame_state s1 |}
        else Some s1);
  if state_eqb (frame_state s2) EAS_L2_HEADER_SEARCH
     && (MAX_HEADER_LEN <=? headlen s2)
  then
    c1 ← strncmp (head_buf s2) HEADER_BEGIN (Z.to_nat (headlen s2));
    if c1 =? 0 then Some (set_frame_state s2 EAS_L2_READING_MESSAGE)
    else
      c2 ← strncmp (head_buf s2) EOM (Z.to_nat (headlen s2));
      if c2 =? 0 then Some (set_frame_state s2 EAS_L2_READING_EOM)
      else
        Some {| last_message := last_message s2; msg_buf := msg_buf s2;
                head_buf := head_buf s2; headlen := 0;
                msglen := msglen s2; msgno := msgno s2;
                frame_state := EAS_L2_IDLE |}
  else if state_eqb (frame_state s2) EAS_L2_READING_MESSAGE
          && (msglen s2 <=? MAX_MSG_LEN)
  then
    row ← load (msg_buf s2) (msgno s2);
    row' ← store row (msglen s2) data;
    mb ← store (msg_buf s2) (msgno s2) row';
    Some {| last_message := last_message s2; msg_buf := mb;
            head_buf := head_buf s2; headlen := headlen s2;
            msglen := (msglen s2 + 1) mod ULONG_MOD; msgno := msgno s2;
            frame_state := frame_state s2 |}
  else Some s2.

(** Lines 278-285: is the first byte of each of the three slots set? *)
Fixpoint have_complete_set (mb : list (list Z)) (ix : list Z)
  : option bool :=
  match ix with
  | [] => Some true
  | i :: ix' =>
      row ← load mb i;
      c ← load row 0;
      if c =? 0 then Some false else have_complete_set mb ix'
  end.

(** Lines 297-312: the inner loop over [j], for a fixed [i].  On the
    first agreeing pair the slot is copied to [last_message] and the
    alert is printed. *)
Fixpoint vote_inner (mb : list (list Z)) (lm : list Z) (i : Z)
         (js : list Z) : option (option (list Z * event)) :=
  match js with
  | [] => Some None
  | j :: js' =>
      ri ← load mb i;
      rj ← load mb j;
      c ← strncmp ri rj (Z.to_nat MAX_MSG_LEN);
      if c =? 0 then
        lm' ← strncpy lm rj (Z.to_nat MAX_MSG_LEN);
        t ← cstr lm';
        Some (Some (lm', ConfirmedAlert (HEADER_BEGIN_text ++ t)))
      else vote_inner mb lm i js'
  end.

(** Lines 290-313: the outer loop over [i]; [i = MAX_STORE_MSG; break]
    ends both loops. *)
Fixpoint vote_outer (mb : list (list Z)) (lm : list Z) (ix : list Z)
  : option (option (list Z * event)) :=
  match ix with
  | [] => Some None
  | i :: ix' =>
      row ← load mb i;
      c ← load row 0;
      if c =? 0 then vote_outer mb lm ix'
      else
        r ← vote_inner mb lm i
              (map Z.of_nat (seq (Z.to_nat (i + 1))
                                 (Z.to_nat (MAX_STORE_MSG - (i + 1)))));
        match r with
        | Some hit => Some (Some hit)
        | None => vote_outer mb lm ix'
        end
  end.

Definition slot_indices : list Z := [0; 1; 2].

Definition vote (mb : list (list Z)) (lm : list Z)
  : option (list Z * list event) :=
  r ← vote_outer mb lm slot_indices;
  match r with
  | Some (lm', ev) => Some (lm', [ev])
  | None => Some (lm, [])
  end.

(** Lines 322-323: [msg_buf[i][0] = '\0'] for the three slots. *)
Fixpoint clear_slots (mb : list (list Z)) (ix : list Z)
  : option (list (list Z)) :=
  match ix with
  | [] => Some mb
  | i :: ix' =>
      row ← load mb i;
      row' ← store row 0 0;
      mb' ← store mb i row';
      clear_slots mb' ix'
  end.

(** Lines 251-330: the flush, [data == 0]. *)
Definition on_flush (s : l2_state) : option (l2_state * list event) :=
  row ← load (msg_buf s) (msgno s);
  row1 ← memset row (msglen s) 0 ((MAX_MSG_LEN - msglen s) mod ULONG_MOD);
  mb1 ← store (msg_buf s) (msgno s) row1;
  '(lm, mb, no, evs) ←
    match frame_state s with
    | EAS_L2_READING_MESSAGE =>
        p ← strrchr row1 45;
        row2 ← match p with
               | Some i => store row1 (i + 1) 0
               | None => Some row1
               end;
        mb2 ← store mb1 (msgno s) row2;
        t ← cstr row2;
        let ev := PartialMessage (HEADER_BEGIN_text ++ t) in
        let no1 := (msgno s + 1) mod ULONG_MOD in
        let no2 := if MAX_STORE_MSG <=? no1 then 0 else no1 in
        complete ← have_complete_set mb2 slot_indices;
        if (complete : bool) then
          '(lm', evs) ← vote mb2 (last_message s);
          Some (lm', mb2, no2, ev :: evs)
        else Some (last_message s, mb2, no2, [ev])
    | EAS_L2_READING_EOM =>
        mb2 ← clear_slots mb1 slot_indices;
        Some (last_message s, mb2, 0, [EndOfMessage])
    | _ => Some (last_message s, mb1, msgno s, [])
    end;
  Some ({| last_message := lm; msg_buf := mb; head_buf := head_buf s;
           headlen := 0; msglen := 0; msgno := no;
           frame_state := EAS_L2_IDLE |}, evs).

Definition process_frame_char (data : Z) (s : l2_state)
  : option (l2_state * list event) :=
  if data =? 0 then on_flush s
  else s' ← on_data data s; Some (s', []).

(** Feeding a sequence of bytes; the events are collected in order. *)
Fixpoint feed (bs : list Z) (s : l2_state)
  : option (l2_state * list event) :=
  match bs with
  | [] => Some (s, [])
  | b :: bs' =>
      '(s1, e1) ← process_frame_char b s;
      '(s2, e2) ← feed bs' s1;
      Some (s2, e1 ++ e2)
  end.

(** *** Notions used to state the properties of the parser *)

(** A 269-byte buffer whose last byte is the terminator. *)
Definition row_ok (r : list Z) : Prop :=
  length r = 269%nat /\ r !! 268%nat = Some 0.

(** The state of the parser as long as no slot has been overrun. *)
Record wf (s : l2_state) : Prop := mk_wf {
  wf_rows : length (msg_buf s) = 4%nat;
  wf_row_ok : Forall row_ok (msg_buf s);
  wf_last : row_ok (last_message s);
  wf_head : length (head_buf s) = 4%nat;
  wf_msgno : 0 <= msgno s < 3;
  wf_msglen : 0 <= msglen s <= 268;
  wf_headlen : 0 <= headlen s <= 4;
  wf_msglen_idle :
    frame_state s <> EAS_L2_READING_MESSAGE -> msglen s = 0
}.

(** The content of slot [i]: the string its buffer holds. *)
Definition slot_text (s : l2_state) (i : nat) : list Z :=
  default [] (row ← msg_buf s !! i; cstr row).

(** The pairs are compared in the order (0,1), (0,2), (1,2); the first
    agreeing pair decides. *)
Definition agreed (t0 t1 t2 : list Z) : option (list Z) :=
  if decide (t0 = t1) then Some t0
  else if decide (t0 = t2) then Some t0
  else if decide (t1 = t2) then Some t1
  else None.

Definition alerts_of (o : option (list Z)) : list event :=
  match o with
  | Some t => [ConfirmedAlert (HEADER_BEGIN_text ++ t)]
  | None => []
  end.

(** The state left by a flush. *)
Definition flushed (s : l2_state) (lm : list Z) (mb : list (list Z))
           (no : Z) : l2_state :=
  {| last_message := lm; msg_buf := mb; head_buf := head_buf s;
     headlen := 0; msglen := 0; msgno := no;
     frame_state := EAS_L2_IDLE |}.

(** The state after the 269th byte of a message has been stored: the
    active slot has lost its terminator. *)
Definition overrun (s : l2_state) : Prop :=
  frame_state s = EAS_L2_READING_MESSAGE /\ msglen s = 269
  /\ Forall (fun r => length r = 269%nat) (msg_buf s).

(** A decidable form of [wf]. *)
Definition row_okb (r : list Z) : bool :=
  (length r =? 269)%nat
  && match r !! 268%nat with Some c => c =? 0 | None => false end.

Definition wfb (s : l2_state) : bool :=
  (length (msg_buf s) =? 4)%nat && forallb row_okb (msg_buf s)
  && row_okb (last_message s) && (length (head_buf s) =? 4)%nat
  && (0 <=? msgno s) && (msgno s <? 3)
  && (0 <=? msglen s) && (msglen s <=? 268)
  && (0 <=? headlen s) && (headlen s <=? 4)
  && (state_eqb (frame_state s) EAS_L2_READING_MESSAGE || (msglen s =? 0)).

(** The state reached from the initial one by a sequence of bytes. *)
Definition after (bs : list Z) : l2_state :=
  default l2_init (fst <$> feed bs l2_init).

(** "ZCZCA-" and "ZCZCB-" *)
Definition msg_A : list Z := [90; 67; 90; 67; 65; 45].
Definition msg_B : list Z := [90; 67; 90; 67; 66; 45].

(** Two messages received, the third being read. *)
Definition s_third_message : l2_state :=
  after (msg_A ++ [0] ++ msg_A ++ [0] ++ msg_B).

(** Three messages received and voted; the parser is idle again. *)
Definition s_idle_full : l2_state :=
  after (msg_A ++ [0] ++ msg_A ++ [0] ++ msg_B ++ [0]).

(** "NNNN" received. *)
Definition s_eom : l2_state := after [78; 78; 78; 78].

(** The reading of "a flush while idle changes no slot": the flush
    succeeds, prints nothing, leaves the three slots as they were, resets
    the two counters and ends in IDLE. *)
Definition flush_idle_is_noop (s : l2_state) : Prop :=
  exists s', process_frame_char 0 s = Some (s', [])
             /\ take 3 (msg_buf s') = take 3 (msg_buf s)
             /\ headlen s' = 0 /\ msglen s' = 0
             /\ frame_state s' = EAS_L2_IDLE.

(** Slot [j] is marked empty: its first byte is NUL (lines 280, 294). *)
Definition slot_empty (mb : list (list Z)) (j : nat) : Prop :=
  exists row, mb !! j = Some row /\ row !! 0%nat = Some 0.

(** At least [n] more messages have to be flushed before the three
    slots can all be non-empty: the slots after the active one are
    empty, and [n] slots remain from the active one on. *)
Definition needs (n : nat) (s : l2_state) : Prop :=
  0 <= msgno s /\ msgno s + Z.of_nat n <= 3 /\
  forall j : nat, msgno s < Z.of_nat j < 3 -> slot_empty (msg_buf s) j.



(** The text of every confirmed alert starts with the header. *)
Definition headed (evs : list event) : Prop :=
  forall t, In (ConfirmedAlert t) evs -> exists u, t = HEADER_BEGIN_text ++ u.

(** *** Further notions: frames, trimmed text, states of the parser *)

(** A frame as it arrives from the byte assembler: the header, the body
    and the NUL that ends it. *)
Definition frame_of (body : list Z) : list Z :=
  HEADER_BEGIN_text ++ body ++ [0].

(** The index of the last occurrence of [c] in [t]. *)
Fixpoint last_index (c : Z) (t : list Z) : option nat :=
  match t with
  | [] => None
  | x :: t' =>
      match last_index c t' with
      | Some i => Some (S i)
      | None => if x =? c then Some O else None
      end
  end.

(** The text up to and including its last '-'; the whole text when it
    holds none. *)
Definition trim (t : list Z) : list Z :=
  match last_index 45 t with
  | Some i => take (S i) t
  | None => t
  end.

(** The parser with other bytes in the active slot. *)
Definition stored (s : l2_state) (mb : list (list Z)) (len : Z) : l2_state :=
  {| last_message := last_message s; msg_buf := mb;
     head_buf := head_buf s; headlen := headlen s; msglen := len;
     msgno := msgno s; frame_state := frame_state s |}.

(** The parser with other bytes in the header buffer. *)
Definition searching (s : l2_state) (hb : list Z) (len : Z)
           (fs : EAS_L2_State) : l2_state :=
  {| last_message := last_message s; msg_buf := msg_buf s;
     head_buf := hb; headlen := len; msglen := msglen s;
     msgno := msgno s; frame_state := fs |}.

(** What the four bytes of a header make of the parser. *)
Definition header_kind (h : list Z) : EAS_L2_State :=
  if decide (h = HEADER_BEGIN_text) then EAS_L2_READING_MESSAGE
  else if decide (h = [78; 78; 78; 78]) then EAS_L2_READING_EOM
  else EAS_L2_IDLE.


(** The header length kept with it: a rejected header is dropped. *)
Definition header_len (fs : EAS_L2_State) : Z :=
  match fs with EAS_L2_IDLE => 0 | _ => 4 end.

End Frame.

(** ** IEEE-754 arithmetic as the C code uses it *)

Module Fp.

(** Integer to [double] and to [float] (round to nearest even). *)
Definition d_of_Z (z : Z) : spec_float := binary_normalize 53 1024 z 0 false.
Definition f_of_Z (z : Z) : spec_float := binary_normalize 24 128 z 0 false.

Definition dmul := SFmul 53 1024.
Definition ddiv := SFdiv 53 1024.
Definition dsub := SFsub 53 1024.
Definition fmul := SFmul 24 128.
Definition fadd := SFadd 24 128.
Definition fsub := SFsub 24 128.

(** [(float)x] for a [double] [x]. *)
Definition f_of_d (x : spec_float) : spec_float :=
  match x with
  | S754_finite s m e => binary_round 24 128 s m e
  | _ => x
  end.

Definition fzero : spec_float := S754_zero false.

(** Conversion to an integer type truncates toward zero; a value outside
    the range of the type is undefined. *)
Definition trunc (x : spec_float) : option Z :=
  match x with
  | S754_zero _ => Some 0
  | S754_finite s m e =>
      let a := Z.shiftl (Zpos m) e in Some (if s then - a else a)
  | _ => None
  end.

Definition to_int (x : spec_float) : option Z :=
  v ← trunc x;
  if (- 2 ^ 31 <=? v) && (v <? 2 ^ 31) then Some v else None.

Definition to_uint (x : spec_float) : option Z :=
  v ← trunc x;
  if (0 <=? v) && (v <? 2 ^ 32) then Some v else None.

(** The constants shared by main.c and encode.c.  A decimal literal is
    the double nearest to it, which the correctly rounded quotient of
    two exactly representable integers gives. *)
Definition FREQ_MARK : spec_float := ddiv (d_of_Z 20833) (d_of_Z 10).
Definition FREQ_SPACE : spec_float := ddiv (d_of_Z 15625) (d_of_Z 10).
Definition FREQ_SAMP : Z := 22050.
Definition BAUD : spec_float := ddiv (d_of_Z 52083) (d_of_Z 100).
Definition PREAMBLE : Z := 171.

(** [#define CORRLEN ((int)(FREQ_SAMP/BAUD))] *)
Definition CORRLEN_expr : option Z := to_int (ddiv (d_of_Z FREQ_SAMP) BAUD).
Definition CORRLEN : Z := 42.

(** [#define SPHASEINC (0x10000u*BAUD/FREQ_SAMP)], a [double]. *)
Definition SPHASEINC : spec_float :=
  ddiv (dmul (d_of_Z 65536) BAUD) (d_of_Z FREQ_SAMP).

(** [(unsigned int)SPHASEINC] *)
Definition SPHASEINC_uint_expr : option Z := to_uint SPHASEINC.
Definition SPHASEINC_uint : Z := 1547.

End Fp.

(** ** The demodulator: [eas_allowed], [mac], [eas_demod] of main.c *)

Module Demod.
Import CStr Frame Fp.

(** The signed value of a [char] holding byte [b]. *)
Definition schar (b : Z) : Z := if b <? 128 then b else b - 256.

(** Lines 188-205. *)
Definition eas_allowed (data : Z) : Z :=
  if negb (Z.land (schar data) 128 =? 0) then 0
  else if (schar data =? 13) || (schar data =? 10) then 1
  else if (32 <=? schar data) || (schar data <=? 126) then 1
  else 0.

(** The four reference tables filled by [eas_init] from [cos] and [sin]
    of libm. *)
Record tone_tables := mk_tables {
  eascorr_mark_i : list spec_float;
  eascorr_mark_q : list spec_float;
  eascorr_space_i : list spec_float;
  eascorr_space_q : list spec_float
}.

Definition lanes : Type :=
  spec_float * spec_float * spec_float * spec_float.

(** Lines 457-458: the four-lane multiply-accumulate. *)
Fixpoint mac_simd (a b : list spec_float) (blocks : nat) (acc : lanes)
         {struct blocks} : option lanes :=
  match blocks with
  | O => Some acc
  | S k =>
      match a, b with
      | a0 :: a1 :: a2 :: a3 :: a', b0 :: b1 :: b2 :: b3 :: b' =>
          let '(r0, r1, r2, r3) := acc in
          mac_simd a' b' k
            (fadd r0 (fmul a0 b0), fadd r1 (fmul a1 b1),
             fadd r2 (fmul a2 b2), fadd r3 (fmul a3 b3))
      | _, _ => None
      end
  end.

(** Lines 471-472: the scalar remainder. *)
Fixpoint mac_tail (a b : list spec_float) (n : nat) (fres : spec_float)
         {struct n} : option spec_float :=
  match n with
  | O => Some fres
  | S k =>
      match a, b with
      | x :: a', y :: b' => mac_tail a' b' k (fadd fres (fmul x y))
      | _, _ => None
      end
  end.

(** Lines 443-476. *)
Definition mac (a b : list spec_float) (size : Z) : option spec_float :=
  fres ← (if negb (size / 4 =? 0) then
            '(r0, r1, r2, r3) ←
              mac_simd a b (Z.to_nat (size / 4)) (fzero, fzero, fzero, fzero);
            Some (fadd (fadd r0 r2) (fadd r1 r3))
          else Some fzero);
  if negb (size mod 4 =? 0) then
    mac_tail (drop (Z.to_nat (size - size mod 4)) a)
             (drop (Z.to_nat (size - size mod 4)) b)
             (Z.to_nat (size mod 4)) fres
  else Some fres.

Definition fsqr (f : spec_float) : spec_float := fmul f f.

(** Lines 347-350: the discriminant of the window starting at
    [buffer]. *)
Definition discriminant (t : tone_tables) (buffer : list spec_float)
  : option spec_float :=
  mi ← mac buffer (eascorr_mark_i t) CORRLEN;
  mq ← mac buffer (eascorr_mark_q t) CORRLEN;
  si ← mac buffer (eascorr_space_i t) CORRLEN;
  sq ← mac buffer (eascorr_space_q t) CORRLEN;
  Some (fsub (fsub (fadd (fsqr mi) (fsqr mq)) (fsqr si)) (fsqr sq)).

(** The function-scope statics of [eas_demod], with the parser's
    variables. *)
Record demod_state := mk_demod {
  shift_reg : Z;          (* unsigned int *)
  sphase : Z;             (* unsigned int *)
  current_kar : Z;        (* unsigned char *)
  bit_counter : Z;        (* unsigned char *)
  dcd_integrator : Z;     (* int *)
  decoder_synced : Z;     (* int *)
  l2 : l2_state
}.

Definition demod_init : demod_state :=
  {| shift_reg := 0; sphase := 0; current_kar := 0; bit_counter := 0;
     dcd_integrator := 0; decoder_synced := 0; l2 := l2_init |}.

Definition UINT_MOD : Z := 2 ^ 32.
Definition DLL_GAIN_UNSYNC : spec_float := ddiv (d_of_Z 1) (d_of_Z 2).
Definition DLL_GAIN_SYNC : spec_float := ddiv (d_of_Z 1) (d_of_Z 2).
Definition DLL_MAX_INC : Z := 8192.
Definition INTEGRATOR_MAXVAL : Z := 10.

Definition MIN (a b : Z) : Z := if a <? b then a else b.

(** Lines 370-373. *)
Definition dll_gain_of (fs : EAS_L2_State) : spec_float :=
  if negb (state_eqb fs EAS_L2_IDLE)
  then f_of_d DLL_GAIN_SYNC else f_of_d DLL_GAIN_UNSYNC.

(** Lines 356-357. *)
Definition shift_in (sr : Z) (mark : bool) : Z :=
  Z.lor ((Z.shiftl sr 1) mod UINT_MOD) (Z.b2z mark).

(** Lines 360-367. *)
Definition integrate (f : spec_float) (dcd : Z) : Z :=
  if SFltb fzero f && (dcd <? INTEGRATOR_MAXVAL) then dcd + 1
  else if SFltb f fzero && (- INTEGRATOR_MAXVAL <? dcd) then dcd - 1
  else dcd.

(** The three thresholds of lines 378, 381 and 390, all [double]. *)
Definition DLL_CENTER : spec_float :=
  dsub (d_of_Z 32768) (ddiv SPHASEINC (d_of_Z 8)).
Definition DLL_EARLY : spec_float := ddiv SPHASEINC (d_of_Z 2).
Definition DLL_LATE : spec_float :=
  dsub (d_of_Z 65536) (ddiv SPHASEINC (d_of_Z 2)).

(** Line 376: do the two most recent decisions differ? *)
Definition transition (sr : Z) : bool :=
  negb (Z.land (Z.lxor sr (Z.shiftr sr 1)) 1 =? 0).

(** Lines 378-395: the phase correction made on a transition. *)
Definition dll_correct (dll_gain : spec_float) (sp : Z) : option Z :=
  if SFltb (d_of_Z sp) DLL_CENTER then
    if SFltb DLL_EARLY (d_of_Z sp) then
      k ← to_int (fmul (f_of_Z sp) dll_gain);
      Some ((sp - MIN k DLL_MAX_INC) mod UINT_MOD)
    else Some sp
  else
    if SFltb (d_of_Z sp) DLL_LATE then
      k ← to_int (fmul (f_of_Z ((65536 - sp) mod UINT_MOD)) dll_gain);
      Some ((sp + MIN k DLL_MAX_INC) mod UINT_MOD)
    else Some sp.

(** Lines 376-396. *)
Definition dll_adjust (dll_gain : spec_float) (sr sp : Z) : option Z :=
  if transition sr then dll_correct dll_gain sp else Some sp.

(** Line 398. *)
Definition sphase_advance (sp : Z) : Z := (sp + SPHASEINC_uint) mod UINT_MOD.

(** Lines 423-437: a complete byte. *)
Definition byte_complete (kar : Z) (synced : Z) (s : l2_state)
  : option (Z * l2_state * list event) :=
  if negb (eas_allowed kar =? 0) then
    '(s', evs) ← process_frame_char kar s; Some (synced, s', evs)
  else
    '(s', evs) ← process_frame_char 0 s; Some (0, s', evs).

(** Lines 403-438: the end of a bit period. *)
Definition bit_period (st : demod_state)
  : option (demod_state * list event) :=
  let kar := Z.lor (Z.shiftr (current_kar st) 1)
               (Z.land (Z.shiftl (Z.b2z (0 <=? dcd_integrator st)) 7) 128) in
  if (kar =? PREAMBLE)
     && negb (state_eqb (frame_state (l2 st)) EAS_L2_READING_MESSAGE)
  then
    Some ({| shift_reg := shift_reg st; sphase := 1; current_kar := kar;
             bit_counter := 0; dcd_integrator := dcd_integrator st;
             decoder_synced := 1; l2 := l2 st |}, [])
  else if negb (decoder_synced st =? 0) then
    let bc := (bit_counter st + 1) mod 256 in
    if bc =? 8 then
      '(sy, s', evs) ← byte_complete kar (decoder_synced st) (l2 st);
      Some ({| shift_reg := shift_reg st; sphase := 1; current_kar := kar;
               bit_counter := 0; dcd_integrator := dcd_integrator st;
               decoder_synced := sy; l2 := s' |}, evs)
    else
      Some ({| shift_reg := shift_reg st; sphase := 1; current_kar := kar;
               bit_counter := bc; dcd_integrator := dcd_integrator st;
               decoder_synced := decoder_synced st; l2 := l2 st |}, [])
  else
    Some ({| shift_reg := shift_reg st; sphase := 1; current_kar := kar;
             bit_counter := bit_counter st;
             dcd_integrator := dcd_integrator st;
             decoder_synced := decoder_synced st; l2 := l2 st |}, []).

(** Lines 347-439: one iteration of the loop, given the discriminant. *)
Definition demod_update (f : spec_float) (st : demod_state)
  : option (demod_state * list event) :=
  let sr := shift_in (shift_reg st) (SFltb fzero f) in
  let dcd := integrate f (dcd_integrator st) in
  sp1 ← dll_adjust (dll_gain_of (frame_state (l2 st))) sr (sphase st);
  let sp2 := sphase_advance sp1 in
  let st1 := {| shift_reg := sr; sphase := sp2;
                current_kar := current_kar st;
                bit_counter := bit_counter st; dcd_integrator := dcd;
                decoder_synced := decoder_synced st; l2 := l2 st |} in
  if 65536 <=? sp2 then bit_period st1 else Some (st1, []).

Definition demod_sample (t : tone_tables) (buffer : list spec_float)
           (st : demod_state) : option (demod_state * list event) :=
  f ← discriminant t buffer; demod_update f st.

(** Line 345: [for(; length >= 0; length--, buffer++)] visits the
    offsets [0 .. length] of [buffer]. *)
Definition eas_demod_offsets (length : Z) : list nat :=
  if length <? 0 then [] else seq 0 (Z.to_nat (length + 1)).

(** The samples each iteration hands to the correlator. *)
Definition eas_demod_windows {A} (buffer : list A) (length : Z)
  : list (list A) :=
  map (fun k => take (Z.to_nat CORRLEN) (drop k buffer))
      (eas_demod_offsets length).

Fixpoint demod_run (t : tone_tables) (buffers : list (list spec_float))
         (st : demod_state) : option (demod_state * list event) :=
  match buffers with
  | [] => Some (st, [])
  | b :: bs =>
      '(st1, e1) ← demod_sample t b st;
      '(st2, e2) ← demod_run t bs st1;
      Some (st2, e1 ++ e2)
  end.

Definition eas_demod (t : tone_tables) (buffer : list spec_float)
           (length : Z) (st : demod_state)
  : option (demod_state * list event) :=
  demod_run t (map (fun k => drop k buffer) (eas_demod_offsets length)) st.

(** *** Notions used to state the properties of the demodulator *)


(** Reference tables of zeros: the discriminant is always zero and only
    the symbol clock runs. *)
Definition flat_tables : tone_tables :=
  mk_tables (replicate 42 fzero) (replicate 42 fzero)
            (replicate 42 fzero) (replicate 42 fzero).


(** [p] holds from [lo] on, for [n] consecutive integers. *)
Fixpoint forall_range (p : Z -> bool) (lo : Z) (n : nat) : bool :=
  match n with
  | O => true
  | S k => p lo && forall_range p (lo + 1) k
  end.

(** [p] holds on [0, 65536), checked in 256 runs of 256. *)
Definition forall_uint16 (p : Z -> bool) : bool :=
  forall_range (fun hi => forall_range (fun lo => p (256 * hi + lo)) 0 256)
               0 256.

(** *** Further notions: the byte assembler, the clock, the tables *)

(** Lines 404-408: the bit decided from the integrator is shifted into
    the byte from the top. *)
Definition shift_kar (kar dcd : Z) : Z :=
  Z.lor (Z.shiftr kar 1) (Z.land (Z.shiftl (Z.b2z (0 <=? dcd)) 7) 128).




(** Lines 179 and 184: [(float)(2.0*3.14159265359*FREQ/FREQ_SAMP)]. *)
Definition table_inc (freq : spec_float) : spec_float :=
  f_of_d (ddiv (dmul (dmul (d_of_Z 2)
                          (ddiv (d_of_Z 314159265359)
                                (d_of_Z 100000000000)))
                     freq)
               (d_of_Z FREQ_SAMP)).

(** Lines 176-180 and 181-185: the values [f] takes in one loop. *)
Fixpoint table_phases (inc : spec_float) (n : nat) (f : spec_float)
  : list spec_float :=
  match n with
  | O => []
  | S k => f :: table_phases inc k (fadd f inc)
  end.

Section WithLibm.

(** [(float)cos(f)] and [(float)sin(f)]: [cos] and [sin] come from
    libm. *)
Variables cosf sinf : spec_float -> spec_float.

(** Lines 171-186. *)
Definition eas_init : tone_tables :=
  let mark := table_phases (table_inc FREQ_MARK) (Z.to_nat CORRLEN) fzero in
  let space := table_phases (table_inc FREQ_SPACE) (Z.to_nat CORRLEN) fzero in
  {| eascorr_mark_i := map cosf mark; eascorr_mark_q := map sinf mark;
     eascorr_space_i := map cosf space; eascorr_space_q := map sinf space |}.

End WithLibm.

(** The state at the end of a bit period when the samples of the
    period have left the integrator at [dcd]. *)
Definition with_dcd (st : demod_state) (dcd : Z) : demod_state :=
  {| shift_reg := shift_reg st; sphase := sphase st;
     current_kar := current_kar st; bit_counter := bit_counter st;
     dcd_integrator := dcd; decoder_synced := decoder_synced st;
     l2 := l2 st |}.

(** Lines 403-438 at the end of successive bit periods, given the value
    of the integrator at the end of each. *)
Fixpoint bit_periods (dcds : list Z) (st : demod_state)
  : option (demod_state * list event) :=
  match dcds with
  | [] => Some (st, [])
  | d :: ds =>
      '(st1, e1) ← bit_period (with_dcd st d);
      '(st2, e2) ← bit_periods ds st1;
      Some (st2, e1 ++ e2)
  end.

(** Line 412 does not take the byte [k] for a preamble: it is another
    byte, or a message is being read. *)
Definition resync_off (k : Z) (s : l2_state) : Prop :=
  (k =? PREAMBLE) && negb (state_eqb (frame_state s) EAS_L2_READING_MESSAGE)
  = false.

End Demod.

(** ** The sample loop of [main] *)

Module Main.
Import CStr Frame Fp Demod.

(** Line 154: the sample, as a float, times [1.0f/32768.0f]. *)
Definition pcm_to_float (sp : Z) : spec_float :=
  fmul (f_of_Z sp) (SFdiv 24 128 (f_of_Z 1) (f_of_Z 32768)).

(** Lines 153-154: the samples of one [read] are appended to [fbuf];
    [fbuf_cnt] is the length of the list. *)
Definition fill (fbuf : list spec_float) (chunk : list Z)
  : list spec_float :=
  fbuf ++ map pcm_to_float chunk.

(** Lines 162-163: [memmove] keeps the last [CORRLEN] samples. *)
Definition carry_over {A} (fbuf : list A) : list A :=
  drop (length fbuf - Z.to_nat CORRLEN)%nat fbuf.

(** Lines 151-165, for one chunk: the windows handed to the correlator
    and the buffer kept for the next chunk. *)
Definition chunk_windows {A} (fbuf1 : list A) : list (list A) * list A :=
  if CORRLEN <? Z.of_nat (length fbuf1)
  then (eas_demod_windows fbuf1 (Z.of_nat (length fbuf1) - CORRLEN),
        carry_over fbuf1)
  else ([], fbuf1).

(** Lines 139-166 over the successive reads: all windows, in the order
    they are processed, and the final buffer. *)
Fixpoint main_windows (chunks : list (list Z)) (fbuf : list spec_float)
  : list (list spec_float) * list spec_float :=
  match chunks with
  | [] => ([], fbuf)
  | c :: cs =>
      let '(w, fbuf') := chunk_windows (fill fbuf c) in
      let '(ws, fbuf'') := main_windows cs fbuf' in
      (w ++ ws, fbuf'')
  end.

(** The same loop with the demodulator run on each chunk. *)
Fixpoint main_loop (t : tone_tables) (chunks : list (list Z))
         (fbuf : list spec_float) (st : demod_state)
  : option (list spec_float * demod_state * list event) :=
  match chunks with
  | [] => Some (fbuf, st, [])
  | c :: cs =>
      let fbuf1 := fill fbuf c in
      if CORRLEN <? Z.of_nat (length fbuf1) then
        '(st1, e1) ← eas_demod t fbuf1 (Z.of_nat (length fbuf1) - CORRLEN) st;
        '(fb, st2, e2) ← main_loop t cs (carry_over fbuf1) st1;
        Some (fb, st2, e1 ++ e2)
      else main_loop t cs fbuf1 st
  end.

(** *** Notions used to state the properties of the sample loop *)

(** The window of the stream [S] at position [k]. *)
Definition win {A} (S : list A) (k : nat) : list A :=
  take (Z.to_nat CORRLEN) (drop k S).



(** A stream of 44 samples read as 43 samples and then one. *)
Definition two_reads : list (list Z) :=
  [map Z.of_nat (seq 0 43); [43]].

(** *** Further notions: the sample buffer *)

(** [fbuf_cnt] after the samples of each read have been appended
    (line 154), read after read. *)
Fixpoint fill_counts (chunks : list (list Z)) (fbuf : list spec_float)
  : list Z :=
  match chunks with
  | [] => []
  | c :: cs =>
      let fbuf1 := fill fbuf c in
      Z.of_nat (length fbuf1) :: fill_counts cs (snd (chunk_windows fbuf1))
  end.

(** Is the float [x] the rational [num / 2^k]? *)
Definition is_ratio (x : spec_float) (num k : Z) : bool :=
  match x with
  | S754_zero _ => num =? 0
  | S754_finite s m e =>
      let v := if s then Z.neg m else Z.pos m in
      if 0 <=? e + k then v * 2 ^ (e + k) =? num
      else v =? num * 2 ^ (- (e + k))
  | _ => false
  end.




End Main.

(** ** The encoder: [generate_byte] and [encode] of encode.c *)

Module Encoder.
Import CStr Fp.

(** [2.0*3.14159265359], a [double]. *)
Definition TWO_PI : spec_float :=
  dmul (d_of_Z 2) (ddiv (d_of_Z 314159265359) (d_of_Z 100000000000)).

(** Lines 126 and 128: [(float)(2.0*3.14159265359*FREQ/FREQ_SAMP)]. *)
Definition phase_inc (bit : Z) : spec_float :=
  f_of_d (ddiv (dmul TWO_PI (if negb (bit =? 0) then FREQ_MARK
                             else FREQ_SPACE))
               (d_of_Z FREQ_SAMP)).

(** Lines 121-129: the values [f] takes at the samples of one bit,
    starting from [f]. *)
Fixpoint bit_phases (inc : spec_float) (n : nat) (f : spec_float)
  : list spec_float :=
  match n with
  | O => []
  | S k => f :: bit_phases inc k (fadd f inc)
  end.

(** Line 119. *)
Definition bit_of (data b : Z) : Z := Z.land (Z.shiftr data b) 1.

(** Lines 117-130: for each of the eight bits, [f = 0] and then the
    [CORRLEN] samples of the bit. *)
Definition generate_byte_phases (data : Z) : list (list spec_float) :=
  map (fun b => bit_phases (phase_inc (bit_of data b))
                           (Z.to_nat CORRLEN) fzero)
      [0; 1; 2; 3; 4; 5; 6; 7].

(** The phase at sample [i] of bit [b]. *)
Definition phase_at (data : Z) (b i : nat) : option spec_float :=
  l ← generate_byte_phases data !! b; l !! i.

Definition silence : list Z := replicate (Z.to_nat FREQ_SAMP) 0.
Definition footer : list Z := [171; 171; 78; 78; 78; 78; 0].

(** The reading of "the phase runs on from one bit to the next": the
    phase at the first sample of bit [b + 1] is the phase at the last
    sample of bit [b] advanced by the increment of bit [b]. *)
Definition continuous_phase (data : Z) : Prop :=
  forall (b : nat) (f_last f_next : spec_float),
    (b + 1 < 8)%nat ->
    phase_at data b (Z.to_nat CORRLEN - 1) = Some f_last ->
    phase_at data (b + 1) 0 = Some f_next ->
    f_next = fadd f_last (phase_inc (bit_of data (Z.of_nat b))).

Section WithSin.

(** [(short)(32768.0 * sin(f))]: [sin] comes from libm. *)
Variable pcm_of_phase : spec_float -> Z.

Definition generate_byte (data : Z) : list Z :=
  map pcm_of_phase (concat (generate_byte_phases data)).

(** Lines 75-79 and 97-101: one block of samples is written for
    each byte before the terminator. *)
Definition render (buf : list Z) : option (list (list Z)) :=
  n ← strlen buf; Some (map generate_byte (take (Z.to_nat n) buf)).

(** Lines 73-82 and 95-104: three repeats, each followed by one
    second of silence. *)
Fixpoint repeats (rep : nat) (buf : list Z) : option (list (list Z)) :=
  match rep with
  | O => Some []
  | S k =>
      blocks ← render buf;
      rest ← repeats k buf;
      Some (blocks ++ [silence] ++ rest)
  end.

(** Lines 45-107.  The result lists the blocks given to [write], in
    order; [None] is undefined behaviour.  When the file cannot be
    opened, [encode] returns with nothing written. *)
Definition encode (open_ok : bool) (message : list Z)
  : option (list (list Z)) :=
  if negb open_ok then Some []
  else
    let full_message := replicate (268 + 2 + 1) 0 in
    fm1 ← store full_message 0 PREAMBLE;
    fm2 ← store fm1 1 PREAMBLE;
    n ← strlen message;
    fm3 ← memcpy fm2 2 message n;
    hdr ← repeats 3 fm3;
    ftr ← repeats 3 footer;
    Some (hdr ++ replicate 4 silence ++ ftr).

End WithSin.

(** [encode] returns nothing and sets no error status.  The reading of
    "fails with a message-too-long condition and produces no output
    frame" closest to it: the call returns, with nothing written. *)
Definition refuses (pcm_of_phase : spec_float -> Z) (message : list Z)
  : Prop :=
  encode pcm_of_phase true message = Some [].

(** A string of 269 bytes "A", with its terminator. *)
Definition message_269 : list Z := replicate 269 65 ++ [0].

End Encoder.

(** ** The encoder and the demodulator together *)

Module Link.
Import Frame Fp Demod Encoder.

(** The byte assembled from the eight bits the encoder sends for
    [data], in the order it sends them, starting from [kar]. *)
Definition reassembled (data kar : Z) : Z :=
  fold_left (fun k b => shift_kar k (if bit_of data b =? 0 then -1 else 0))
            [0; 1; 2; 3; 4; 5; 6; 7] kar.


(** The bits of a byte in the order [generate_byte] sends them. *)
Definition sent_bits (data : Z) : list Z :=
  map (bit_of data) [0; 1; 2; 3; 4; 5; 6; 7].

(** The integrator values [dcds] decide the bits [bits]: line 408
    reads a one when the integrator is not negative. *)
Definition decides (dcds bits : list Z) : Prop :=
  Forall2 (fun d bit => (0 <=? d) = negb (bit =? 0)) dcds bits.

(** The byte being assembled after the first [j] bits of [b] have
    followed the byte [prev]. *)
Definition kar_at (prev b : Z) (j : nat) : Z :=
  fold_left (fun k bit => shift_kar k (if bit =? 0 then -1 else 0))
            (take j (sent_bits b)) prev.

(** No bit of [b] makes the byte being assembled equal to the
    preamble. *)
Definition no_resync (prev b : Z) : bool :=
  forallb (fun j => negb (kar_at prev b j =? PREAMBLE))
          [1; 2; 3; 4; 5; 6; 7; 8]%nat.

End Link.

(** * Properties *)

(** ** The string functions *)

Module CStrFacts.
Import CStr.

Lemma load_lookup {A} (a : list A) (i : Z) :
  0 <= i < Z.of_nat (length a) -> load a i = a !! Z.to_nat i.
Proof.
  intros H. unfold load.
  destruct (0 <=? i) eqn:E1; [|lia].
  destruct (i <? Z.of_nat (length a)) eqn:E2; [done|lia].
Qed.

Lemma load_Some_inv {A} (a : list A) (i : Z) x :
  load a i = Some x ->
  0 <= i < Z.of_nat (length a) /\ a !! Z.to_nat i = Some x.
Proof.
  unfold load.
  destruct (0 <=? i) eqn:E1; [|done].
  destruct (i <? Z.of_nat (length a)) eqn:E2; [|done].
  simpl. intros H. split; [lia|done].
Qed.

Lemma store_insert {A} (a : list A) (i : Z) v :
  0 <= i < Z.of_nat (length a) -> store a i v = Some (<[Z.to_nat i := v]> a).
Proof.
  intros H. unfold store.
  destruct (0 <=? i) eqn:E1; [|lia].
  destruct (i <? Z.of_nat (length a)) eqn:E2; [done|lia].
Qed.

Lemma store_Some_inv {A} (a : list A) (i : Z) v a' :
  store a i v = Some a' ->
  0 <= i < Z.of_nat (length a) /\ a' = <[Z.to_nat i := v]> a.
Proof.
  unfold store.
  destruct (0 <=? i) eqn:E1; [|done].
  destruct (i <? Z.of_nat (length a)) eqn:E2; [|done].
  simpl. intros [= <-]. split; [lia|done].
Qed.

Lemma memset_Some (a : list Z) off v n :
  0 <= off -> 0 <= n -> off + n <= Z.of_nat (length a) ->
  memset a off v n =
    Some (take (Z.to_nat off) a ++ replicate (Z.to_nat n) v
            ++ drop (Z.to_nat (off + n)) a).
Proof.
  intros H1 H2 H3. unfold memset.
  destruct (0 <=? off) eqn:E1; [|lia].
  destruct (0 <=? n) eqn:E2; [|lia].
  destruct (off + n <=? Z.of_nat (length a)) eqn:E3; [done|lia].
Qed.

Lemma memset_Some_inv (a : list Z) off v n a' :
  memset a off v n = Some a' ->
  0 <= off /\ 0 <= n /\ off + n <= Z.of_nat (length a) /\
  a' = take (Z.to_nat off) a ++ replicate (Z.to_nat n) v
         ++ drop (Z.to_nat (off + n)) a.
Proof.
  unfold memset.
  destruct (0 <=? off) eqn:E1; [|done].
  destruct (0 <=? n) eqn:E2; [|done].
  destruct (off + n <=? Z.of_nat (length a)) eqn:E3; [|done].
  simpl. intros [= <-]. repeat split; lia.
Qed.

Lemma memcpy_Some (a : list Z) off (src : list Z) n :
  0 <= off -> 0 <= n -> off + n <= Z.of_nat (length a) ->
  n <= Z.of_nat (length src) ->
  memcpy a off src n =
    Some (take (Z.to_nat off) a ++ take (Z.to_nat n) src
            ++ drop (Z.to_nat (off + n)) a).
Proof.
  intros H1 H2 H3 H4. unfold memcpy.
  destruct (0 <=? off) eqn:E1; [|lia].
  destruct (0 <=? n) eqn:E2; [|lia].
  destruct (off + n <=? Z.of_nat (length a)) eqn:E3; [|lia].
  destruct (n <=? Z.of_nat (length src)) eqn:E4; [done|lia].
Qed.

Lemma memcpy_overrun (a : list Z) off (src : list Z) n :
  Z.of_nat (length a) < off + n -> memcpy a off src n = None.
Proof.
  intros H. unfold memcpy.
  destruct (off + n <=? Z.of_nat (length a)) eqn:E3; [lia|].
  by rewrite andb_false_r.
Qed.

(** A C string: its bytes, none of them NUL, then the terminator. *)
Lemma cstr_app (t rest : list Z) :
  Forall (fun c => c <> 0) t -> cstr (t ++ 0 :: rest) = Some t.
Proof.
  induction 1 as [|c t Hc _ IH]; simpl; [done|].
  destruct (c =? 0) eqn:E; [lia|]. by rewrite IH.
Qed.

Lemma cstr_Some_inv (a t : list Z) :
  cstr a = Some t ->
  exists rest, a = t ++ 0 :: rest /\ Forall (fun c => c <> 0) t.
Proof.
  revert t. induction a as [|c a IH]; intros t; simpl; [done|].
  destruct (c =? 0) eqn:E.
  - intros [= <-]. exists a. split; [|constructor].
    simpl. f_equal. lia.
  - destruct (cstr a) as [t'|] eqn:Ht; simpl; [|done].
    intros [= <-]. destruct (IH t' eq_refl) as (rest & -> & Hall).
    exists rest. split; [done|]. constructor; [lia|done].
Qed.

Lemma cstr_length (a t : list Z) :
  cstr a = Some t -> (length t < length a)%nat.
Proof.
  intros (rest & -> & _)%cstr_Some_inv. rewrite length_app. simpl. lia.
Qed.

(** An array whose last byte is NUL always holds a string. *)
Lemma cstr_terminated (a : list Z) (n : nat) :
  a !! n = Some 0 -> exists t, cstr a = Some t /\ (length t <= n)%nat.
Proof.
  revert n. induction a as [|c a IH]; intros n; [done|].
  simpl. destruct (c =? 0) eqn:E.
  - intros _. exists []. split; [done|simpl; lia].
  - destruct n as [|n]; simpl.
    + intros [= ->]. done.
    + intros (t & -> & Hle)%IH. exists (c :: t). split; [done|simpl; lia].
Qed.

Lemma cstr_nil_iff (a : list Z) (t : list Z) :
  cstr a = Some t -> (t = [] <-> a !! 0%nat = Some 0).
Proof.
  destruct a as [|c a]; simpl; [done|].
  destruct (c =? 0) eqn:E.
  - intros [= <-]. split; [intros _; f_equal; lia|done].
  - destruct (cstr a); simpl; [|done].
    intros [= <-]. split; [intros ?; discriminate|].
    intros [= ->]. discriminate E.
Qed.

(** [strncmp] decides equality of the strings when both fit in [n]
    bytes. *)
Lemma strncmp_cstr (n : nat) : forall (a b ta tb : list Z),
  cstr a = Some ta -> cstr b = Some tb ->
  (length ta <= n)%nat -> (length tb <= n)%nat ->
  exists c, strncmp a b n = Some c /\ (c = 0 <-> ta = tb).
Proof.
  induction n as [|n IH]; intros a b ta tb Ha Hb La Lb.
  - exists 0. destruct ta, tb; simpl in *; try lia.
    split; [reflexivity|]. split; reflexivity.
  - destruct a as [|x a]; [done|]. destruct b as [|y b]; [done|].
    simpl in Ha, Hb. simpl.
    destruct (x =? 0) eqn:Ex; destruct (y =? 0) eqn:Ey.
    + injection Ha as <-. injection Hb as <-.
      assert (x = 0) as -> by lia. assert (y = 0) as -> by lia.
      exists 0. split; [reflexivity|]. split; reflexivity.
    + injection Ha as <-.
      destruct (cstr b) as [tb'|]; simpl in Hb; [|done].
      injection Hb as <-.
      destruct (x =? y) eqn:Exy; [lia|].
      exists (x - y). split; [done|]. split; [lia|done].
    + injection Hb as <-.
      destruct (cstr a) as [ta'|]; simpl in Ha; [|done].
      injection Ha as <-.
      destruct (x =? y) eqn:Exy; [lia|].
      exists (x - y). split; [done|]. split; [lia|done].
    + destruct (cstr a) as [ta'|] eqn:Ha'; simpl in Ha; [|done].
      destruct (cstr b) as [tb'|] eqn:Hb'; simpl in Hb; [|done].
      injection Ha as <-. injection Hb as <-. simpl in La, Lb.
      destruct (x =? y) eqn:Exy.
      * destruct (IH a b ta' tb' Ha' Hb') as (c & Hc & Hiff); [lia..|].
        exists c. split; [done|]. rewrite Hiff.
        assert (x = y) as -> by lia. split; [by intros ->|by intros [= ->]].
      * exists (x - y). split; [done|].
        split; [lia|]. intros [= -> _]. lia.
Qed.

Lemma strncpy_bytes_cstr (n : nat) : forall (src t : list Z),
  cstr src = Some t -> (length t <= n)%nat ->
  strncpy_bytes src n = Some (t ++ replicate (n - length t) 0).
Proof.
  induction n as [|n IH]; intros src t Hs Hl.
  - destruct t; simpl in *; [done|lia].
  - destruct src as [|c src]; [done|]. simpl in Hs. simpl.
    destruct (c =? 0) eqn:E.
    + injection Hs as <-. done.
    + destruct (cstr src) as [t'|] eqn:Ht; simpl in Hs; [|done].
      injection Hs as <-. simpl in Hl.
      rewrite (IH src t' Ht) by lia. done.
Qed.

(** The index found by [strrchr] lies inside the string. *)
Lemma strrchr_from_bound (a : list Z) : forall c i last t,
  cstr a = Some t ->
  exists p, strrchr_from a c i last = Some p /\
    (p = last \/ exists k, p = Some k /\ i <= k < i + Z.of_nat (length t)).
Proof.
  induction a as [|x a IH]; intros c i last t; simpl; [done|].
  destruct (x =? 0) eqn:E.
  - intros _. exists last. split; [done|by left].
  - destruct (cstr a) as [t'|] eqn:Ht; simpl; [|done].
    intros [= <-].
    destruct (IH c (i + 1) (if x =? c then Some i else last) t' eq_refl)
      as (p & Hp & Hcase).
    exists p. split; [done|]. simpl length.
    destruct Hcase as [->|(k & -> & Hk)].
    + destruct (x =? c); [right; exists i; split; [done|lia]|by left].
    + right. exists k. split; [done|lia].
Qed.

End CStrFacts.

(** ** The frame parser *)

Module FrameFacts.
Import CStr CStrFacts Frame.


Lemma row_ok_cstr (r : list Z) :
  row_ok r -> exists t, cstr r = Some t /\ (length t <= 268)%nat.
Proof. intros [_ H]. by apply cstr_terminated. Qed.

Lemma row_ok_replicate : row_ok (replicate 269 0).
Proof. split; reflexivity. Qed.

Lemma row_ok_insert (r : list Z) (k : nat) (v : Z) :
  row_ok r -> (k = 268%nat -> v = 0) -> row_ok (<[k := v]> r).
Proof.
  intros [Hl Ht] Hk. split; [by rewrite length_insert|].
  destruct (decide (k = 268%nat)) as [->|Hne].
  - rewrite list_lookup_insert_eq by lia. by rewrite Hk.
  - by rewrite list_lookup_insert_ne.
Qed.

(** The padding of line 253 keeps the terminator. *)
Lemma row_ok_pad (r : list Z) (len : Z) :
  row_ok r -> 0 <= len <= 268 ->
  row_ok (take (Z.to_nat len) r ++ replicate (Z.to_nat (268 - len)) 0
            ++ drop (Z.to_nat (len + (268 - len))) r).
Proof.
  intros [Hl Ht] Hlen.
  replace (len + (268 - len)) with 268 by lia.
  split.
  - rewrite !length_app, length_take, length_replicate, length_drop. lia.
  - rewrite lookup_app_r; rewrite length_take; [|lia].
    rewrite lookup_app_r; rewrite length_replicate; [|lia].
    rewrite lookup_drop. rewrite <- Ht. f_equal. lia.
Qed.

Lemma strncpy_row (lm src t : list Z) :
  row_ok lm -> cstr src = Some t -> (length t <= 268)%nat ->
  exists lm', strncpy lm src 268 = Some lm' /\ row_ok lm' /\
              cstr lm' = Some t.
Proof.
  intros [Hl Ht] Hs Hlen. unfold strncpy.
  destruct (Z.of_nat 268 <=? Z.of_nat (length lm)) eqn:E; [|exfalso; zbool; lia].
  rewrite (strncpy_bytes_cstr 268 src t Hs Hlen). simpl.
  eexists. split; [done|].
  assert (Hd : drop 268 lm = [0]).
  { apply list_eq. intros i. rewrite lookup_drop.
    destruct i as [|i]; simpl.
    - rewrite <- Ht. f_equal.
    - rewrite lookup_ge_None_2; [done|lia]. }
  rewrite Hd. clear E.
  assert (Hlen' : length (t ++ replicate (268 - length t) 0) = 268%nat).
  { rewrite length_app, length_replicate. lia. }
  split; [split|].
  - rewrite length_app, Hlen'. simpl. lia.
  - rewrite lookup_app_r; rewrite Hlen'; [|lia]. done.
  - apply cstr_Some_inv in Hs as (rest & _ & Hall).
    rewrite <- app_assoc.
    destruct (268 - length t)%nat as [|k]; simpl.
    + by apply cstr_app.
    + by apply cstr_app.
Qed.

#[local] Arguments strncmp : simpl never.
#[local] Arguments strncpy : simpl never.
#[local] Arguments cstr : simpl never.
#[local] Arguments Z.to_nat : simpl never.
#[local] Arguments vote_inner : simpl never.

Lemma vote_inner_nil (mb : list (list Z)) (lm : list Z) (i : Z) :
  vote_inner mb lm i [] = Some None.
Proof. reflexivity. Qed.

Lemma vote_inner_cons (mb : list (list Z)) (lm : list Z) (i j : Z)
      (js : list Z) :
  vote_inner mb lm i (j :: js) =
  ri ← load mb i;
  rj ← load mb j;
  c ← strncmp ri rj (Z.to_nat MAX_MSG_LEN);
  if c =? 0 then
    lm' ← strncpy lm rj (Z.to_nat MAX_MSG_LEN);
    t ← cstr lm';
    Some (Some (lm', ConfirmedAlert (HEADER_BEGIN_text ++ t)))
  else vote_inner mb lm i js.
Proof. reflexivity. Qed.

Section Vote.
Variables (mb : list (list Z)) (lm : list Z).
Hypothesis Hlm : row_ok lm.

Lemma vote_inner_hit (i j : Z) (js : list Z) (ri rj t : list Z) :
  load mb i = Some ri -> load mb j = Some rj ->
  row_ok ri -> row_ok rj ->
  cstr ri = Some t -> cstr rj = Some t ->
  exists lm', vote_inner mb lm i (j :: js)
              = Some (Some (lm', ConfirmedAlert (HEADER_BEGIN_text ++ t)))
              /\ row_ok lm' /\ cstr lm' = Some t.
Proof.
  intros Hi Hj Hri Hrj Hti Htj. rewrite vote_inner_cons, Hi, Hj. simpl.
  destruct (row_ok_cstr _ Hrj) as (t' & Ht' & Hlen).
  assert (t' = t) as -> by congruence.
  destruct (strncmp_cstr 268 ri rj t t Hti Htj Hlen Hlen)
    as (c & Hc & Hiff).
  unfold MAX_MSG_LEN. change (Z.to_nat 268) with 268%nat.
  rewrite Hc. simpl.
  assert (c = 0) as -> by (by apply Hiff). simpl.
  destruct (strncpy_row lm rj t Hlm Htj Hlen) as (lm' & -> & Hok & Hc').
  simpl. rewrite Hc'. simpl. by exists lm'.
Qed.

Lemma vote_inner_miss (i j : Z) (js : list Z) (ri rj ti tj : list Z) :
  load mb i = Some ri -> load mb j = Some rj ->
  row_ok ri -> row_ok rj ->
  cstr ri = Some ti -> cstr rj = Some tj -> ti <> tj ->
  vote_inner mb lm i (j :: js) = vote_inner mb lm i js.
Proof.
  intros Hi Hj Hri Hrj Hti Htj Hne. rewrite vote_inner_cons, Hi, Hj. simpl.
  destruct (row_ok_cstr _ Hri) as (t1 & Ht1 & Hlen1).
  destruct (row_ok_cstr _ Hrj) as (t2 & Ht2 & Hlen2).
  assert (t1 = ti) as -> by congruence.
  assert (t2 = tj) as -> by congruence.
  destruct (strncmp_cstr 268 ri rj ti tj Hti Htj Hlen1 Hlen2)
    as (c & Hc & Hiff).
  unfold MAX_MSG_LEN. change (Z.to_nat 268) with 268%nat.
  rewrite Hc. simpl.
  destruct (c =? 0) eqn:E; [|done].
  exfalso. apply Hne, Hiff. lia.
Qed.
End Vote.

Lemma first_byte (q t : list Z) :
  row_ok q -> cstr q = Some t ->
  exists c, load q 0 = Some c /\ (c =? 0) = bool_decide (t = []).
Proof.
  intros [Hl _] Ht. destruct q as [|c q]; [done|].
  exists c. split; [reflexivity|].
  pose proof (cstr_nil_iff _ _ Ht) as Hiff. simpl in Hiff.
  case_bool_decide as Hd.
  - apply Hiff in Hd. injection Hd as ->. reflexivity.
  - apply Z.eqb_neq. intros ->. by apply Hd, Hiff.
Qed.


Lemma have_complete_set_rows (q0 q1 q2 q3 t0 t1 t2 : list Z) :
  row_ok q0 -> row_ok q1 -> row_ok q2 ->
  cstr q0 = Some t0 -> cstr q1 = Some t1 -> cstr q2 = Some t2 ->
  have_complete_set [q0; q1; q2; q3] slot_indices
  = Some (bool_decide (t0 <> [] /\ t1 <> [] /\ t2 <> [])).
Proof.
  intros H0 H1 H2 T0 T1 T2.
  destruct (first_byte _ _ H0 T0) as (c0 & L0 & E0).
  destruct (first_byte _ _ H1 T1) as (c1 & L1 & E1).
  destruct (first_byte _ _ H2 T2) as (c2 & L2 & E2).
  unfold slot_indices, have_complete_set.
  change (load [q0; q1; q2; q3] 0) with (Some q0).
  change (load [q0; q1; q2; q3] 1) with (Some q1).
  change (load [q0; q1; q2; q3] 2) with (Some q2).
  simpl. rewrite L0, L1, L2. simpl. rewrite E0, E1, E2.
  destruct (decide (t0 = [])) as [->|D0].
  { rewrite bool_decide_eq_true_2 by done.
    rewrite bool_decide_eq_false_2; [done|]. by intros [? _]. }
  rewrite (bool_decide_eq_false_2 (t0 = [])) by done.
  destruct (decide (t1 = [])) as [->|D1].
  { rewrite bool_decide_eq_true_2 by done.
    rewrite bool_decide_eq_false_2; [done|]. by intros (_ & ? & _). }
  rewrite (bool_decide_eq_false_2 (t1 = [])) by done.
  destruct (decide (t2 = [])) as [->|D2].
  { rewrite bool_decide_eq_true_2 by done.
    rewrite bool_decide_eq_false_2; [done|]. by intros (_ & _ & ?). }
  rewrite (bool_decide_eq_false_2 (t2 = [])) by done.
  by rewrite bool_decide_eq_true_2.
Qed.

Lemma vote_rows (q0 q1 q2 q3 lm t0 t1 t2 : list Z) :
  row_ok q0 -> row_ok q1 -> row_ok q2 -> row_ok lm ->
  cstr q0 = Some t0 -> cstr q1 = Some t1 -> cstr q2 = Some t2 ->
  t0 <> [] -> t1 <> [] -> t2 <> [] ->
  exists lm', vote [q0; q1; q2; q3] lm
              = Some (lm', alerts_of (agreed t0 t1 t2))
              /\ row_ok lm'
              /\ (forall t, agreed t0 t1 t2 = Some t -> cstr lm' = Some t).
Proof.
  intros H0 H1 H2 Hlm T0 T1 T2 N0 N1 N2.
  destruct (first_byte _ _ H0 T0) as (c0 & L0 & E0).
  destruct (first_byte _ _ H1 T1) as (c1 & L1 & E1).
  destruct (first_byte _ _ H2 T2) as (c2 & L2 & E2).
  rewrite bool_decide_eq_false_2 in E0, E1, E2 by done.
  set (mb := [q0; q1; q2; q3]).
  assert (M0 : load mb 0 = Some q0) by reflexivity.
  assert (M1 : load mb 1 = Some q1) by reflexivity.
  assert (M2 : load mb 2 = Some q2) by reflexivity.
  unfold vote, slot_indices, agreed.
  cbn [vote_outer].
  change (map Z.of_nat (seq (Z.to_nat (0 + 1))
                            (Z.to_nat (MAX_STORE_MSG - (0 + 1)))))
    with [1; 2].
  change (map Z.of_nat (seq (Z.to_nat (1 + 1))
                            (Z.to_nat (MAX_STORE_MSG - (1 + 1)))))
    with [2].
  change (map Z.of_nat (seq (Z.to_nat (2 + 1))
                            (Z.to_nat (MAX_STORE_MSG - (2 + 1)))))
    with (@nil Z).
  rewrite M0, M1, M2. simpl.
  rewrite L0, L1, L2. simpl. rewrite E0, E1, E2.
  destruct (decide (t0 = t1)) as [<-|D01].
  { destruct (vote_inner_hit mb lm Hlm 0 1 [2] q0 q1 t0 M0 M1 H0 H1 T0 T1)
      as (lm' & -> & Hok & Hc).
    exists lm'. simpl. split; [done|]. split; [done|].
    by intros t [= <-]. }
  rewrite (vote_inner_miss mb lm 0 1 [2] q0 q1 t0 t1) by done.
  destruct (decide (t0 = t2)) as [<-|D02].
  { destruct (vote_inner_hit mb lm Hlm 0 2 [] q0 q2 t0 M0 M2 H0 H2 T0 T2)
      as (lm' & -> & Hok & Hc).
    exists lm'. simpl. split; [done|]. split; [done|].
    by intros t [= <-]. }
  rewrite (vote_inner_miss mb lm 0 2 [] q0 q2 t0 t2) by done.
  rewrite vote_inner_nil. simpl.
  destruct (decide (t1 = t2)) as [<-|D12].
  { destruct (vote_inner_hit mb lm Hlm 1 2 [] q1 q2 t1 M1 M2 H1 H2 T1 T2)
      as (lm' & -> & Hok & Hc).
    exists lm'. simpl. split; [done|]. split; [done|].
    by intros t [= <-]. }
  rewrite (vote_inner_miss mb lm 1 2 [] q1 q2 t1 t2) by done.
  rewrite vote_inner_nil. simpl.
  exists lm. split; [done|]. split; [done|]. done.
Qed.

(** Lines 260-265: the string is cut after its last '-'. *)
Lemma trim_row (row1 : list Z) :
  row_ok row1 ->
  exists p row2,
    strrchr row1 45 = Some p /\
    match p with
    | Some i => store row1 (i + 1) 0
    | None => Some row1
    end = Some row2 /\
    row_ok row2.
Proof.
  intros Hok. destruct (row_ok_cstr _ Hok) as (t & Ht & Hlen).
  destruct (strrchr_from_bound row1 45 0 None t Ht) as (p & Hp & Hcase).
  exists p. unfold strrchr. rewrite Hp.
  destruct Hcase as [->|(k & -> & Hk)].
  - exists row1. done.
  - exists (<[Z.to_nat (k + 1) := 0]> row1).
    destruct Hok as [Hl Hz].
    split; [done|]. split.
    + apply store_insert. lia.
    + apply row_ok_insert; done.
Qed.

#[local] Arguments have_complete_set : simpl never.
#[local] Arguments vote : simpl never.

Lemma wf_rows_inv (mb : list (list Z)) :
  length mb = 4%nat -> Forall row_ok mb ->
  exists q0 q1 q2 q3, mb = [q0; q1; q2; q3] /\
    row_ok q0 /\ row_ok q1 /\ row_ok q2 /\ row_ok q3.
Proof.
  intros Hl Hall.
  destruct mb as [|q0 [|q1 [|q2 [|q3 [|? ?]]]]]; try discriminate Hl.
  exists q0, q1, q2, q3. split; [done|].
  repeat (apply Forall_cons in Hall as [? Hall]). done.
Qed.

Lemma slot_text_rows (s : l2_state) (q0 q1 q2 q3 t0 t1 t2 : list Z) :
  msg_buf s = [q0; q1; q2; q3] ->
  cstr q0 = Some t0 -> cstr q1 = Some t1 -> cstr q2 = Some t2 ->
  slot_text s 0 = t0 /\ slot_text s 1 = t1 /\ slot_text s 2 = t2.
Proof.
  intros Hmb T0 T1 T2. unfold slot_text. rewrite Hmb. simpl.
  by rewrite T0, T1, T2.
Qed.


(** Lines 253-314 on a state whose slots have not been overrun: the
    flush of a message always succeeds, reports the partial message and
    votes exactly when the three slots hold a string. *)
Lemma flush_message (s : l2_state) :
  wf s -> frame_state s = EAS_L2_READING_MESSAGE ->
  exists s' part,
    let t0 := slot_text s' 0 in
    let t1 := slot_text s' 1 in
    let t2 := slot_text s' 2 in
    on_flush s
    = Some (s', PartialMessage part ::
                  (if bool_decide (t0 <> [] /\ t1 <> [] /\ t2 <> [])
                   then alerts_of (agreed t0 t1 t2) else []))
    /\ wf s'
    /\ (t0 <> [] -> t1 <> [] -> t2 <> [] ->
        forall t, agreed t0 t1 t2 = Some t -> cstr (last_message s') = Some t).
Proof.
  intros [Hlen Hrows Hlm Hhd Hno Hml Hhl _] Hst.
  set (m := Z.to_nat (msgno s)).
  assert (Hm : (m < length (msg_buf s))%nat) by lia.
  destruct (lookup_lt_is_Some_2 _ _ Hm) as [row Hrow].
  assert (Hrok : row_ok row) by (eapply Forall_lookup_1; eauto).
  unfold on_flush.
  rewrite load_lookup by lia. fold m. rewrite Hrow. simpl.
  unfold MAX_MSG_LEN, ULONG_MOD.
  rewrite (Z.mod_small (268 - msglen s)) by lia.
  destruct Hrok as [Hrl Hrz].
  rewrite memset_Some by lia. simpl.
  set (row1 := take _ row ++ _).
  assert (Hr1 : row_ok row1) by (apply row_ok_pad; [done|lia]).
  rewrite store_insert by lia. fold m. simpl. rewrite Hst.
  destruct (trim_row row1 Hr1) as (p & row2 & -> & Hst2 & Hr2). simpl.
  rewrite Hst2. simpl.
  rewrite store_insert by (rewrite length_insert; lia). fold m. simpl.
  rewrite list_insert_insert_eq.
  set (mb2 := <[m := row2]> (msg_buf s)).
  assert (Hmb2l : length mb2 = 4%nat) by (unfold mb2; by rewrite length_insert).
  assert (Hmb2 : Forall row_ok mb2) by (by apply Forall_insert).
  destruct (wf_rows_inv mb2 Hmb2l Hmb2)
    as (q0 & q1 & q2 & q3 & Emb & Q0 & Q1 & Q2 & Q3).
  destruct (row_ok_cstr _ Hr2) as (tr & Htr & _). rewrite Htr. simpl.
  destruct (row_ok_cstr _ Q0) as (t0 & T0 & _).
  destruct (row_ok_cstr _ Q1) as (t1 & T1 & _).
  destruct (row_ok_cstr _ Q2) as (t2 & T2 & _).
  rewrite Emb. rewrite Emb in Hmb2.
  rewrite (have_complete_set_rows q0 q1 q2 q3 t0 t1 t2) by done. simpl.
  set (no2 := if MAX_STORE_MSG <=? (msgno s + 1) mod 2 ^ 64
              then 0 else (msgno s + 1) mod 2 ^ 64).
  assert (Hno2 : 0 <= no2 < 3).
  { unfold no2, MAX_STORE_MSG. rewrite Z.mod_small by lia.
    destruct (3 <=? msgno s + 1) eqn:E; zbool; lia. }
  case_bool_decide as Hall.
  - destruct Hall as (N0 & N1 & N2).
    destruct (vote_rows q0 q1 q2 q3 (last_message s) t0 t1 t2)
      as (lm' & -> & Hlm' & Hag); try done.
    simpl. exists (flushed s lm' [q0; q1; q2; q3] no2), (HEADER_BEGIN_text ++ tr).
    destruct (slot_text_rows (flushed s lm' [q0; q1; q2; q3] no2)
                q0 q1 q2 q3 t0 t1 t2) as (-> & -> & ->); try done.
    cbv zeta. rewrite bool_decide_eq_true_2 by done.
    split; [done|]. split; [|intros _ _ _; exact Hag].
    split; simpl; try done; lia.
  - exists (flushed s (last_message s) [q0; q1; q2; q3] no2),
      (HEADER_BEGIN_text ++ tr).
    destruct (slot_text_rows (flushed s (last_message s) [q0; q1; q2; q3] no2)
                q0 q1 q2 q3 t0 t1 t2) as (-> & -> & ->); try done.
    cbv zeta. rewrite bool_decide_eq_false_2 by done.
    split; [done|]. split; [|intros; exfalso; by apply Hall].
    split; simpl; try done; lia.
Qed.



Lemma row_okb_ok (r : list Z) : row_okb r = true -> row_ok r.
Proof.
  unfold row_okb, row_ok. intros [H1 H2]%andb_prop.
  apply Nat.eqb_eq in H1. split; [done|].
  destruct (r !! 268%nat) as [c|]; [|done].
  f_equal. by apply Z.eqb_eq.
Qed.

Lemma wfb_wf (s : l2_state) : wfb s = true -> wf s.
Proof.
  unfold wfb. intros H.
  repeat match type of H with
         | (_ && _) = true => apply andb_prop in H as [H ?]
         end.
  zbool. split; try lia.
  - by apply Nat.eqb_eq.
  - apply Forall_forall. intros r Hr. apply row_okb_ok.
    eapply forallb_forall; [eassumption|]. by apply list_elem_of_In.
  - by apply row_okb_ok.
  - by apply Nat.eqb_eq.
  - intros Hne.
    match goal with
    | H : (_ || _) = true |- _ => apply orb_prop in H as [H|H]
    end.
    + destruct (frame_state s); done.
    + by apply Z.eqb_eq.
Qed.


(** The scenario of the witness, evaluated: slots "A-", "A-", "B-" give
    one confirmed alert "ZCZCA-". *)
Example vote_example :
  snd <$> process_frame_char 0 s_third_message
  = Some [PartialMessage msg_B; ConfirmedAlert msg_A].
Proof. vm_compute. reflexivity. Qed.

(** C3 (the code departs from the claim): after the header, 269 bytes
    are stored in the slot, whose last byte was the terminator; the
    flush that follows pads with a length of [268 - 269] taken modulo
    [2^64] and leaves the array. *)
Theorem slot_takes_269_bytes :
  exists s,
    feed (HEADER_BEGIN_text ++ replicate 269 65) l2_init = Some (s, [])
    /\ msglen s = 269
    /\ msg_buf s !! 0%nat = Some (replicate 269 65)
    /\ process_frame_char 65 s = Some (s, [])
    /\ process_frame_char 0 s = None.
Proof.
  eexists. split; [vm_compute; reflexivity|].
  repeat split; vm_compute; reflexivity.
Qed.

(** A message of exactly 268 bytes is kept whole. *)
Example slot_keeps_268_bytes :
  snd <$> feed (HEADER_BEGIN_text ++ replicate 268 65 ++ [0]) l2_init
  = Some [PartialMessage (HEADER_BEGIN_text ++ replicate 268 65)].
Proof. vm_compute. reflexivity. Qed.

(** C7 as stated fails: after three messages the parser is idle with
    [msgno = 0]; a flush then zeroes slot 0, which held "A-". *)
Lemma flush_idle_is_noop_counterexample :
  feed (msg_A ++ [0] ++ msg_A ++ [0] ++ msg_B ++ [0]) l2_init
  = Some (s_idle_full,
          [PartialMessage msg_A; PartialMessage msg_A; PartialMessage msg_B;
           ConfirmedAlert msg_A])
  /\ frame_state s_idle_full = EAS_L2_IDLE
  /\ ~ flush_idle_is_noop s_idle_full.
Proof.
  split; [vm_compute; reflexivity|]. split; [vm_compute; reflexivity|].
  intros (s' & Hs' & Hmb & _).
  assert (Hrun : exists s1, process_frame_char 0 s_idle_full = Some (s1, [])
                  /\ msg_buf s1 !! 0%nat = Some (replicate 269 0)).
  { eexists. split; vm_compute; reflexivity. }
  destruct Hrun as (s1 & Hs1 & Hrow).
  rewrite Hs1 in Hs'. injection Hs' as <-.
  apply (f_equal (fun l => l !! 0%nat)) in Hmb.
  rewrite !lookup_take_lt in Hmb by lia. rewrite Hrow in Hmb.
  vm_compute in Hmb. discriminate Hmb.
Qed.

#[local] Arguments replicate : simpl never.

(** Padding from offset 0 zero-fills the slot. *)
Lemma pad_empty_row (row : list Z) :
  row_ok row -> memset row 0 0 268 = Some (replicate 269 0).
Proof.
  intros [Hrl Hrz]. rewrite memset_Some by lia.
  assert (Hd : drop 268 row = [0]).
  { apply list_eq. intros i. rewrite lookup_drop.
    destruct i as [|i]; simpl.
    - rewrite <- Hrz. f_equal.
    - rewrite lookup_ge_None_2; [done|lia]. }
  change (Z.to_nat (0 + 268)) with 268%nat.
  change (Z.to_nat 268) with 268%nat. change (Z.to_nat 0) with 0%nat.
  rewrite Hd. rewrite take_0. reflexivity.
Qed.

(** Lines 253 and 327-329 when no frame is being read. *)
Lemma on_flush_idle (s : l2_state) :
  wf s ->
  frame_state s = EAS_L2_IDLE \/ frame_state s = EAS_L2_HEADER_SEARCH ->
  on_flush s
  = Some (flushed s (last_message s)
            (<[Z.to_nat (msgno s) := replicate 269 0]> (msg_buf s))
            (msgno s), []).
Proof.
  intros [Hlen Hrows Hlm Hhd Hno Hml Hhl Hidle] Hst.
  assert (Hm0 : msglen s = 0).
  { apply Hidle. destruct Hst as [-> | ->]; done. }
  set (m := Z.to_nat (msgno s)).
  assert (Hm : (m < length (msg_buf s))%nat) by lia.
  destruct (lookup_lt_is_Some_2 _ _ Hm) as [row Hrow].
  assert (Hrok : row_ok row) by (eapply Forall_lookup_1; eauto).
  unfold on_flush.
  rewrite load_lookup by lia. fold m. rewrite Hrow. simpl.
  rewrite Hm0.
  change ((MAX_MSG_LEN - 0) mod ULONG_MOD) with 268.
  rewrite (pad_empty_row row) by done. simpl.
  rewrite store_insert by lia. fold m. simpl.
  destruct Hst as [-> | ->]; reflexivity.
Qed.

(** C7, amended: a flush received in IDLE or HEADER_SEARCH prints
    nothing, zero-fills the active slot (the one [msgno] designates),
    leaves the other slots and the last confirmed message as they were,
    resets the header and message lengths and ends in IDLE. *)
Theorem flush_while_idle (s : l2_state) :
  wf s ->
  frame_state s = EAS_L2_IDLE \/ frame_state s = EAS_L2_HEADER_SEARCH ->
  process_frame_char 0 s
  = Some (flushed s (last_message s)
            (<[Z.to_nat (msgno s) := replicate 269 0]> (msg_buf s))
            (msgno s), []).
Proof.
  intros Hwf Hst. change (process_frame_char 0 s) with (on_flush s).
  by apply on_flush_idle.
Qed.

Lemma flush_while_idle_witness :
  wf s_idle_full /\
  (frame_state s_idle_full = EAS_L2_IDLE
   \/ frame_state s_idle_full = EAS_L2_HEADER_SEARCH) /\
  process_frame_char 0 s_idle_full
  = Some (flushed s_idle_full (last_message s_idle_full)
            (<[Z.to_nat (msgno s_idle_full) := replicate 269 0]>
               (msg_buf s_idle_full))
            (msgno s_idle_full), []).
Proof.
  assert (Hwf : wf s_idle_full) by (apply wfb_wf; vm_compute; reflexivity).
  assert (Hst : frame_state s_idle_full = EAS_L2_IDLE
                \/ frame_state s_idle_full = EAS_L2_HEADER_SEARCH)
    by (left; vm_compute; reflexivity).
  split; [exact Hwf|]. split; [exact Hst|].
  exact (flush_while_idle s_idle_full Hwf Hst).
Defined.


(** *** After an end of message *)







Lemma needs_mono (m n : nat) (s : l2_state) :
  (m <= n)%nat -> needs n s -> needs m s.
Proof. intros Hmn (H0 & H1 & H2). split; [lia|]. split; [lia|done]. Qed.








Lemma clear_slots_defined (ix : list Z) : forall (mb : list (list Z)),
  Forall (fun i => 0 <= i < Z.of_nat (length mb)) ix ->
  Forall (fun r => (0 < length r)%nat) mb ->
  exists mb', clear_slots mb ix = Some mb'.
Proof.
  induction ix as [|i ix IH]; intros mb Hix Hrows; [by eexists|].
  apply Forall_cons in Hix as [Hi Hix].
  destruct (lookup_lt_is_Some_2 mb (Z.to_nat i) ltac:(lia)) as [row Hrow].
  assert (Hr : (0 < length row)%nat) by (by eapply Forall_lookup_1 in Hrows).
  destruct (IH (<[Z.to_nat i := <[0%nat := 0]> row]> mb)) as [mb' Hmb'].
  - by rewrite length_insert.
  - apply Forall_insert; [done|]. by rewrite length_insert.
  - exists mb'. cbn [clear_slots].
    rewrite load_lookup, Hrow by lia. cbn [mbind option_bind].
    rewrite store_insert by lia. cbn [mbind option_bind].
    rewrite store_insert by lia. exact Hmb'.
Qed.

Lemma clear_slots_total (mb : list (list Z)) :
  length mb = 4%nat -> Forall row_ok mb ->
  exists mb', clear_slots mb slot_indices = Some mb'.
Proof.
  intros Hl Hall. apply clear_slots_defined.
  - rewrite Hl. unfold slot_indices. repeat constructor; lia.
  - eapply Forall_impl; [exact Hall|]. intros r [Hr _]. lia.
Qed.

#[local] Arguments clear_slots : simpl never.

(** Lines 253 and 316-329 at the end of an end-of-message frame. *)
Lemma on_flush_eom (s : l2_state) :
  wf s -> frame_state s = EAS_L2_READING_EOM ->
  exists mb',
    on_flush s = Some (flushed s (last_message s) mb' 0, [EndOfMessage])
    /\ clear_slots (<[Z.to_nat (msgno s) := replicate 269 0]> (msg_buf s))
                   slot_indices = Some mb'.
Proof.
  intros [Hlen Hrows Hlm Hhd Hno Hml Hhl Hidle] Hst.
  assert (Hm0 : msglen s = 0) by (apply Hidle; by rewrite Hst).
  set (m := Z.to_nat (msgno s)).
  assert (Hm : (m < length (msg_buf s))%nat) by lia.
  destruct (lookup_lt_is_Some_2 _ _ Hm) as [row Hrow].
  assert (Hrok : row_ok row) by (eapply Forall_lookup_1; eauto).
  destruct (clear_slots_total (<[m := replicate 269 0]> (msg_buf s)))
    as [mb' Hmb'].
  - by rewrite length_insert.
  - apply Forall_insert; [done|]. apply row_ok_replicate.
  - exists mb'. split; [|done].
    unfold on_flush.
    rewrite load_lookup by lia. fold m. rewrite Hrow. simpl.
    rewrite Hm0.
    change ((MAX_MSG_LEN - 0) mod ULONG_MOD) with 268.
    rewrite (pad_empty_row row) by done. simpl.
    rewrite store_insert by lia. fold m. simpl.
    rewrite Hst, Hmb'. reflexivity.
Qed.




(** *** The states the parser reaches *)

Lemma wf_init : wf l2_init.
Proof. apply wfb_wf. vm_compute. reflexivity. Qed.

Lemma clear_slots_rows (ix : list Z) : forall (mb mb' : list (list Z)),
  clear_slots mb ix = Some mb' ->
  length mb' = length mb /\ (Forall row_ok mb -> Forall row_ok mb').
Proof.
  induction ix as [|i ix IH]; intros mb mb' H.
  - injection H as <-. done.
  - change (clear_slots mb (i :: ix))
      with (row ← load mb i; row' ← store row 0 0;
            mb1 ← store mb i row'; clear_slots mb1 ix) in H.
    apply bind_Some in H as (row & Hl & H).
    apply bind_Some in H as (row' & Hs & H).
    apply bind_Some in H as (mb1 & Hs1 & H).
    apply store_Some_inv in Hs1 as [Hi ->].
    apply store_Some_inv in Hs as [Hr ->].
    apply load_Some_inv in Hl as [_ Hl].
    destruct (IH _ _ H) as [Hlen Hall].
    rewrite length_insert in Hlen. split; [done|].
    intros Hok. apply Hall. apply Forall_insert; [done|].
    apply row_ok_insert; [|done].
    by eapply Forall_lookup_1.
Qed.

(** A flush leaves a state whose slots are in order. *)
Lemma on_flush_wf (s s' : l2_state) (evs : list event) :
  wf s -> on_flush s = Some (s', evs) -> wf s'.
Proof.
  intros Hwf H. destruct (frame_state s) eqn:Hfs.
  - rewrite on_flush_idle in H by (by try left).
    injection H as <- <-. destruct Hwf.
    split; simpl; try done; try lia.
    + by rewrite length_insert.
    + apply Forall_insert; [done|apply row_ok_replicate].
  - rewrite on_flush_idle in H by (by try right).
    injection H as <- <-. destruct Hwf.
    split; simpl; try done; try lia.
    + by rewrite length_insert.
    + apply Forall_insert; [done|apply row_ok_replicate].
  - destruct (flush_message s Hwf Hfs) as (s1 & part & Hfl & Hwf1 & _).
    cbv zeta in Hfl. rewrite Hfl in H. by injection H as <- <-.
  - destruct (on_flush_eom s Hwf Hfs) as (mb' & Hrun & Hcl).
    rewrite Hrun in H. injection H as <- <-.
    destruct (clear_slots_rows _ _ _ Hcl) as [Hlen Hall].
    rewrite length_insert in Hlen. destruct Hwf.
    split; simpl; try done; try lia.
    apply Hall. apply Forall_insert; [done|apply row_ok_replicate].
Qed.

(** A data byte keeps the slots in order, unless it is the 269th byte
    of a message. *)
Lemma on_data_wf (data : Z) (s s' : l2_state) :
  wf s -> on_data data s = Some s' -> wf s' \/ overrun s'.
Proof.
  intros [Hlen Hrows Hlm Hhd Hno Hml Hhl Hidle] H. unfold on_data in H.
  apply bind_Some in H as (s2 & H2 & H).
  assert (E2 : msg_buf s2 = msg_buf s /\ last_message s2 = last_message s
               /\ msgno s2 = msgno s /\ msglen s2 = msglen s
               /\ length (head_buf s2) = 4%nat
               /\ 0 <= headlen s2 <= 4
               /\ (frame_state s2 = frame_state s
                   \/ frame_state s = EAS_L2_IDLE
                      /\ frame_state s2 = EAS_L2_HEADER_SEARCH)).
  { clear H. destruct (frame_state s) eqn:Hfs; cbn [state_eqb set_frame_state
      frame_state headlen head_buf andb] in H2;
      rewrite ?Hfs in H2; cbn [state_eqb andb] in H2;
      try (injection H2 as <-; repeat split; try done; try lia; by left).
    - destruct (headlen s <? MAX_HEADER_LEN) eqn:E; zbool.
      + apply bind_Some in H2 as (hb & Hst & H2).
        apply store_Some_inv in Hst as [_ ->]. injection H2 as <-.
        unfold MAX_HEADER_LEN, ULONG_MOD in *. cbn.
        rewrite length_insert, Z.mod_small by lia.
        repeat split; try done; try lia. by right.
      + injection H2 as <-. cbn. repeat split; try done; try lia.
        by right.
    - destruct (headlen s <? MAX_HEADER_LEN) eqn:E; zbool.
      + apply bind_Some in H2 as (hb & Hst & H2).
        apply store_Some_inv in Hst as [_ ->]. injection H2 as <-.
        unfold MAX_HEADER_LEN, ULONG_MOD in *. cbn.
        rewrite length_insert, Z.mod_small by lia.
        repeat split; try done; try lia. left. done.
      + injection H2 as <-. cbn. repeat split; try done; try lia.
        by left. }
  destruct E2 as (Emb & Elm & Eno & Eml & Ehd & Ehl & Efs).
  assert (Hidle2 : frame_state s2 <> EAS_L2_READING_MESSAGE -> msglen s2 = 0).
  { intros Hne. rewrite Eml. apply Hidle.
    destruct Efs as [<-|[-> _]]; done. }
  assert (Hsame : forall fs hl,
            (fs <> EAS_L2_READING_MESSAGE -> msglen s2 = 0) ->
            0 <= hl <= 4 ->
            wf {| last_message := last_message s2; msg_buf := msg_buf s2;
                  head_buf := head_buf s2; headlen := hl;
                  msglen := msglen s2; msgno := msgno s2;
                  frame_state := fs |}).
  { intros fs hl Hfs Hhl'. split; cbn; rewrite ?Emb, ?Elm, ?Eno, ?Eml;
      try done. by rewrite <- Eml. }
  destruct (state_eqb (frame_state s2) EAS_L2_HEADER_SEARCH
            && (MAX_HEADER_LEN <=? headlen s2)) eqn:Ehs.
  - apply andb_prop in Ehs as [Ehs _].
    assert (Hm0 : msglen s2 = 0).
    { apply Hidle2. destruct (frame_state s2); done. }
    apply bind_Some in H as (c1 & _ & H).
    destruct (c1 =? 0).
    + injection H as <-. left. apply Hsame; [done|lia].
    + apply bind_Some in H as (c2 & _ & H).
      destruct (c2 =? 0); injection H as <-; left; apply Hsame;
        try done; lia.
  - destruct (state_eqb (frame_state s2) EAS_L2_READING_MESSAGE
              && (msglen s2 <=? MAX_MSG_LEN)) eqn:Erm.
    + apply andb_prop in Erm as [Erm _].
      assert (Hfs2 : frame_state s2 = EAS_L2_READING_MESSAGE)
        by (destruct (frame_state s2); done).
      apply bind_Some in H as (row & Hl & H).
      apply bind_Some in H as (row' & Hst & H).
      apply bind_Some in H as (mb & Hst1 & H).
      injection H as <-. cbn.
      apply store_Some_inv in Hst1 as [_ ->].
      apply store_Some_inv in Hst as [Hr ->].
      apply load_Some_inv in Hl as [_ Hl].
      rewrite Emb, Eno, Eml in *.
      assert (Hrok : row_ok row) by (by eapply Forall_lookup_1).
      unfold ULONG_MOD. rewrite Z.mod_small by lia.
      destruct (decide (msglen s = 268)) as [E268|Hne].
      { right. split; [done|]. split; [cbn; lia|]. cbn.
        apply Forall_insert; [|rewrite length_insert; apply Hrok].
        eapply Forall_impl; [exact Hrows|]. by intros r [? _]. }
      left. split; cbn; rewrite ?Emb, ?Elm, ?Eno, ?Eml; try done; try lia.
      * by rewrite length_insert.
      * apply Forall_insert; [done|]. apply row_ok_insert; [done|lia].
    + injection H as <-. left. destruct s2. cbn in *.
      apply (Hsame frame_state0 headlen0); done.
Qed.

Lemma process_frame_char_wf (b : Z) (s s' : l2_state) (evs : list event) :
  wf s -> process_frame_char b s = Some (s', evs) ->
  wf s' \/ overrun s'.
Proof.
  intros Hwf H. unfold process_frame_char in H.
  destruct (b =? 0).
  - left. by eapply on_flush_wf.
  - apply bind_Some in H as (s1 & Hd & H). injection H as <- <-.
    by eapply on_data_wf.
Qed.

(** Once a slot is overrun, further bytes are dropped and the flush
    leaves the array. *)
Lemma overrun_data (b : Z) (s : l2_state) :
  overrun s -> b <> 0 -> process_frame_char b s = Some (s, []).
Proof.
  intros (Hfs & Hml & _) Hb. unfold process_frame_char.
  destruct (b =? 0) eqn:E; zbool; [done|].
  unfold on_data. cbv zeta.
  rewrite Hfs. cbn [state_eqb andb]. rewrite Hfs. cbn [state_eqb andb].
  cbn [mbind option_bind]. rewrite Hfs, Hml. reflexivity.
Qed.

Lemma overrun_flush (s : l2_state) :
  overrun s -> process_frame_char 0 s = None.
Proof.
  intros (Hfs & Hml & Hrows).
  change (process_frame_char 0 s) with (on_flush s). unfold on_flush.
  destruct (load (msg_buf s) (msgno s)) as [row|] eqn:Hl; [|done].
  apply load_Some_inv in Hl as [_ Hl]. cbn.
  assert (Hrl : length row = 269%nat).
  { eapply Forall_lookup_1 in Hrows; [|exact Hl]. done. }
  rewrite Hml. unfold memset. rewrite Hrl.
  change ((MAX_MSG_LEN - 269) mod ULONG_MOD) with 18446744073709551615.
  reflexivity.
Qed.

(** The states reached from the initial one: in order, or overrun. *)
Lemma feed_reaches (bs : list Z) : forall (s s' : l2_state) (evs : list event),
  wf s \/ overrun s -> feed bs s = Some (s', evs) -> wf s' \/ overrun s'.
Proof.
  induction bs as [|b bs IH]; intros s s' evs Hs H; simpl in H.
  - by injection H as <- <-.
  - apply bind_Some in H as ([s1 e1] & H1 & H).
    apply bind_Some in H as ([s2 e2] & H2 & H).
    injection H as <- <-. apply (IH s1 s2 e2); [|done].
    destruct Hs as [Hwf|Hov].
    + by eapply process_frame_char_wf.
    + destruct (decide (b = 0)) as [->|Hb].
      * by rewrite overrun_flush in H1.
      * rewrite overrun_data in H1 by done. injection H1 as <- <-.
        by right.
Qed.

(** Every alert the parser prints starts with the header "ZCZC". *)
Lemma vote_inner_header (mb : list (list Z)) (lm : list Z) (i : Z)
      (js : list Z) :
  forall lm' ev,
    vote_inner mb lm i js = Some (Some (lm', ev)) ->
    exists t, ev = ConfirmedAlert (HEADER_BEGIN_text ++ t).
Proof.
  induction js as [|j js IH]; intros lm' ev H.
  - rewrite vote_inner_nil in H. discriminate H.
  - rewrite vote_inner_cons in H.
    apply bind_Some in H as (ri & _ & H).
    apply bind_Some in H as (rj & _ & H).
    apply bind_Some in H as (c & _ & H).
    destruct (c =? 0); [|by apply (IH lm')].
    apply bind_Some in H as (lm1 & _ & H).
    apply bind_Some in H as (t & _ & H).
    injection H as <- <-. by exists t.
Qed.

Lemma vote_header (mb : list (list Z)) (lm lm' : list Z)
      (evs : list event) :
  vote mb lm = Some (lm', evs) ->
  forall ev, In ev evs -> exists t, ev = ConfirmedAlert (HEADER_BEGIN_text ++ t).
Proof.
  unfold vote. intros H.
  apply bind_Some in H as (r & Hr & H).
  assert (Hout : forall ix hit,
            vote_outer mb lm ix = Some (Some hit) ->
            exists t, hit.2 = ConfirmedAlert (HEADER_BEGIN_text ++ t)).
  { induction ix as [|i ix IH]; intros [lm1 ev1] Hv; [done|].
    cbn [vote_outer] in Hv.
    apply bind_Some in Hv as (row & _ & Hv).
    apply bind_Some in Hv as (c & _ & Hv).
    destruct (c =? 0); [by apply IH|].
    apply bind_Some in Hv as (r1 & Hr1 & Hv).
    destruct r1 as [[lm2 ev2]|]; [|by apply IH].
    injection Hv as <- <-. by eapply vote_inner_header. }
  destruct r as [[lm1 ev1]|].
  - injection H as <- <-. intros ev [<-|[]].
    by apply (Hout slot_indices (lm1, ev1)).
  - injection H as <- <-. intros ev [].
Qed.

Lemma confirmed_alert_has_header (b : Z) (s s' : l2_state)
      (evs : list event) (t : list Z) :
  process_frame_char b s = Some (s', evs) ->
  In (ConfirmedAlert t) evs ->
  exists u, t = HEADER_BEGIN_text ++ u.
Proof.
  unfold process_frame_char. destruct (b =? 0).
  2:{ intros H. apply bind_Some in H as (s1 & _ & H).
      by injection H as <- <-. }
  unfold on_flush. intros H.
  apply bind_Some in H as (row & _ & H).
  apply bind_Some in H as (row1 & _ & H).
  apply bind_Some in H as (mb1 & _ & H).
  apply bind_Some in H as ([[[lm mb] no] e] & Hbody & H).
  injection H as <- <-.
  destruct (frame_state s).
  - by injection Hbody as <- <- <- <-.
  - by injection Hbody as <- <- <- <-.
  - apply bind_Some in Hbody as (p & _ & Hbody).
    apply bind_Some in Hbody as (row2 & _ & Hbody).
    apply bind_Some in Hbody as (mb2 & _ & Hbody).
    apply bind_Some in Hbody as (tx & _ & Hbody).
    apply bind_Some in Hbody as (complete & _ & Hbody).
    destruct complete.
    + apply bind_Some in Hbody as ([lm' alerts] & Hv & Hbody).
      injection Hbody as <- <- <- <-. intros [Hin|Hin]; [done|].
      destruct (vote_header _ _ _ _ Hv _ Hin) as (u & [= ->]).
      by exists u.
    + injection Hbody as <- <- <- <-. by intros [|[]].
  - apply bind_Some in Hbody as (mb2 & _ & Hbody).
    injection Hbody as <- <- <- <-. by intros [|[]].
Qed.

End FrameFacts.

Module ParserFacts.
Import CStr CStrFacts Frame FrameFacts.

#[local] Arguments strncmp : simpl never.
#[local] Arguments strncpy : simpl never.
#[local] Arguments cstr : simpl never.
#[local] Arguments Z.to_nat : simpl never.
#[local] Arguments replicate : simpl never.

Lemma feed_app (xs ys : list Z) : forall s,
  feed (xs ++ ys) s
  = '(s1, e1) ← feed xs s; '(s2, e2) ← feed ys s1; Some (s2, e1 ++ e2).
Proof.
  induction xs as [|x xs IH]; intros s.
  - cbn [app feed]. cbn. destruct (feed ys s) as [[s2 e2]|]; done.
  - cbn [app feed].
    destruct (process_frame_char x s) as [[s1 e1]|]; [|done]. cbn.
    rewrite IH.
    destruct (feed xs s1) as [[s2 e2]|]; [|done]. cbn.
    destruct (feed ys s2) as [[s3 e3]|]; [|done]. cbn.
    by rewrite app_assoc.
Qed.

Lemma feed_cons (b : Z) (bs : list Z) (s s1 : l2_state) (e1 : list event) :
  process_frame_char b s = Some (s1, e1) ->
  feed (b :: bs) s = '(s2, e2) ← feed bs s1; Some (s2, e1 ++ e2).
Proof. intros H. cbn [feed]. rewrite H. reflexivity. Qed.

(** *** The header search, lines 216-241 *)

(** One of the first three bytes of a header. *)
Lemma header_byte (b : Z) (s : l2_state) :
  b <> 0 ->
  frame_state s = EAS_L2_IDLE \/ frame_state s = EAS_L2_HEADER_SEARCH ->
  0 <= headlen s < 3 -> length (head_buf s) = 4%nat ->
  process_frame_char b s
  = Some (searching s (<[Z.to_nat (headlen s) := b]> (head_buf s))
                    (headlen s + 1) EAS_L2_HEADER_SEARCH, []).
Proof.
  intros Hb Hfs Hk Hlen. unfold process_frame_char.
  destruct (b =? 0) eqn:E; zbool; [done|].
  unfold on_data. cbv zeta.
  assert (Hlt : (headlen s <? MAX_HEADER_LEN) = true)
    by (apply Z.ltb_lt; unfold MAX_HEADER_LEN; lia).
  assert (Hmod : (headlen s + 1) mod ULONG_MOD = headlen s + 1)
    by (apply Z.mod_small; unfold ULONG_MOD; lia).
  assert (Hge : (MAX_HEADER_LEN <=? headlen s + 1) = false)
    by (apply Z.leb_gt; unfold MAX_HEADER_LEN; lia).
  destruct Hfs as [Hfs|Hfs]; rewrite Hfs; cbn [state_eqb set_frame_state
    frame_state headlen head_buf andb msglen msgno msg_buf last_message];
    rewrite ?Hfs; cbn [state_eqb andb]; rewrite Hlt;
    rewrite store_insert by lia; cbn [mbind option_bind frame_state headlen
      state_eqb andb];
    rewrite Hmod, Hge; reflexivity.
Qed.

Lemma strncmp_cons (x y : Z) (a b : list Z) (n : nat) :
  strncmp (x :: a) (y :: b) (S n)
  = if x =? y then (if x =? 0 then Some 0 else strncmp a b n)
    else Some (x - y).
Proof. reflexivity. Qed.

(** [strncmp] over four non-zero bytes. *)
Lemma strncmp_four (b0 b1 b2 b3 h0 h1 h2 h3 : Z) (rest : list Z) :
  b0 <> 0 -> b1 <> 0 -> b2 <> 0 -> b3 <> 0 ->
  exists c, strncmp [b0; b1; b2; b3] (h0 :: h1 :: h2 :: h3 :: rest) 4
            = Some c
            /\ (c = 0 <-> [b0; b1; b2; b3] = [h0; h1; h2; h3]).
Proof.
  intros N0 N1 N2 N3. rewrite !strncmp_cons.
  change (strncmp [] rest 0) with (Some 0).
  destruct (b0 =? h0) eqn:E0; zbool.
  2:{ eexists. split; [done|]. split; [lia|]. intros [= ? _]. lia. }
  destruct (b0 =? 0) eqn:Z0; zbool; [lia|].
  destruct (b1 =? h1) eqn:E1; zbool.
  2:{ eexists. split; [done|]. split; [lia|]. intros [= ? ? _]. lia. }
  destruct (b1 =? 0) eqn:Z1; zbool; [lia|].
  destruct (b2 =? h2) eqn:E2; zbool.
  2:{ eexists. split; [done|]. split; [lia|]. intros [= ? ? ? _]. lia. }
  destruct (b2 =? 0) eqn:Z2; zbool; [lia|].
  destruct (b3 =? h3) eqn:E3; zbool.
  2:{ eexists. split; [done|]. split; [lia|]. intros [= ? ? ? ?]. lia. }
  destruct (b3 =? 0) eqn:Z3; zbool; [lia|].
  exists 0. split; [done|]. split; [|done]. intros _. by subst.
Qed.

(** The fourth byte of a header: the four bytes are compared with
    "ZCZC" and then with "NNNN". *)
Lemma header_last (b0 b1 b2 b3 x : Z) (s : l2_state) :
  b0 <> 0 -> b1 <> 0 -> b2 <> 0 -> b3 <> 0 ->
  frame_state s = EAS_L2_HEADER_SEARCH ->
  headlen s = 3 -> head_buf s = [b0; b1; b2; x] ->
  process_frame_char b3 s
  = Some (searching s [b0; b1; b2; b3]
            (header_len (header_kind [b0; b1; b2; b3]))
            (header_kind [b0; b1; b2; b3]), []).
Proof.
  intros N0 N1 N2 N3 Hfs Hk Hhb. unfold process_frame_char.
  destruct (b3 =? 0) eqn:E; zbool; [done|].
  unfold on_data. cbv zeta.
  rewrite Hfs. cbn [state_eqb andb]. rewrite Hfs, Hk, Hhb.
  cbn [state_eqb andb].
  change (3 <? MAX_HEADER_LEN) with true. cbv iota.
  change (store [b0; b1; b2; x] 3 b3) with (Some [b0; b1; b2; b3]).
  cbn [mbind option_bind frame_state headlen head_buf state_eqb andb].
  change ((3 + 1) mod ULONG_MOD) with 4.
  change (MAX_HEADER_LEN <=? 4) with true. cbv iota.
  change (Z.to_nat 4) with 4%nat.
  destruct (strncmp_four b0 b1 b2 b3 90 67 90 67 [0] N0 N1 N2 N3)
    as (c1 & Hc1 & Hiff1).
  destruct (strncmp_four b0 b1 b2 b3 78 78 78 78 [0] N0 N1 N2 N3)
    as (c2 & Hc2 & Hiff2).
  unfold HEADER_BEGIN, EOM. rewrite Hc1. cbn [mbind option_bind].
  unfold header_kind, HEADER_BEGIN_text.
  destruct (c1 =? 0) eqn:E1; zbool.
  { rewrite decide_True by (by apply Hiff1). reflexivity. }
  rewrite decide_False by (intros Heq; by apply E1, Hiff1).
  rewrite Hc2. cbn [mbind option_bind].
  destruct (c2 =? 0) eqn:E2; zbool.
  { rewrite decide_True by (by apply Hiff2). reflexivity. }
  rewrite decide_False by (intros Heq; by apply E2, Hiff2).
  reflexivity.
Qed.

Lemma header_search (b0 b1 b2 b3 : Z) (s : l2_state) :
  b0 <> 0 -> b1 <> 0 -> b2 <> 0 -> b3 <> 0 ->
  frame_state s = EAS_L2_IDLE \/ frame_state s = EAS_L2_HEADER_SEARCH ->
  headlen s = 0 -> length (head_buf s) = 4%nat ->
  feed [b0; b1; b2; b3] s
  = Some (searching s [b0; b1; b2; b3]
            (header_len (header_kind [b0; b1; b2; b3]))
            (header_kind [b0; b1; b2; b3]), []).
Proof.
  intros N0 N1 N2 N3 Hfs Hk Hlen.
  destruct s as [lm mb hb hl ml no fs]. cbn in Hfs, Hk, Hlen. subst hl.
  destruct hb as [|x0 [|x1 [|x2 [|x3 [|? ?]]]]]; try discriminate Hlen.
  erewrite feed_cons by (apply header_byte; cbn; [done|done|lia|done]).
  erewrite feed_cons
    by (apply header_byte; cbn; [done|by right|lia|done]).
  erewrite feed_cons
    by (apply header_byte; cbn; [done|by right|lia|done]).
  erewrite feed_cons
    by (apply (header_last b0 b1 b2 b3 x3); cbn; done).
  reflexivity.
Qed.

(** *** The bytes of a message, lines 242-247 *)

Lemma stored_id (s : l2_state) : stored s (msg_buf s) (msglen s) = s.
Proof. by destruct s. Qed.

Lemma message_byte (b : Z) (s : l2_state) (row : list Z) :
  b <> 0 -> frame_state s = EAS_L2_READING_MESSAGE ->
  0 <= msglen s <= 268 -> 0 <= msgno s ->
  msg_buf s !! Z.to_nat (msgno s) = Some row -> length row = 269%nat ->
  process_frame_char b s
  = Some (stored s (<[Z.to_nat (msgno s) :=
                        <[Z.to_nat (msglen s) := b]> row]> (msg_buf s))
                 (msglen s + 1), []).
Proof.
  intros Hb Hfs Hml Hno Hrow Hlen. unfold process_frame_char.
  destruct (b =? 0) eqn:E; zbool; [done|].
  unfold on_data. cbv zeta.
  rewrite Hfs. cbn [state_eqb andb]. rewrite Hfs. cbn [state_eqb andb].
  cbn [mbind option_bind]. rewrite Hfs. cbn [state_eqb andb].
  assert (Hle : (msglen s <=? MAX_MSG_LEN) = true)
    by (apply Z.leb_le; unfold MAX_MSG_LEN; lia).
  rewrite Hle.
  pose proof (lookup_lt_Some _ _ _ Hrow) as Hm.
  rewrite load_lookup by lia. rewrite Hrow. cbn [mbind option_bind].
  rewrite store_insert by lia. cbn [mbind option_bind].
  rewrite store_insert by lia. cbn [mbind option_bind].
  unfold ULONG_MOD. rewrite Z.mod_small by lia.
  unfold stored. rewrite Hfs. reflexivity.
Qed.

Lemma message_bytes (bs : list Z) : forall (s : l2_state) (row : list Z),
  Forall (fun b => b <> 0) bs ->
  frame_state s = EAS_L2_READING_MESSAGE ->
  0 <= msglen s -> msglen s + Z.of_nat (length bs) <= 269 ->
  0 <= msgno s ->
  msg_buf s !! Z.to_nat (msgno s) = Some row -> length row = 269%nat ->
  feed bs s
  = Some (stored s
            (<[Z.to_nat (msgno s) :=
                 take (Z.to_nat (msglen s)) row ++ bs
                   ++ drop (Z.to_nat (msglen s) + length bs) row]>
               (msg_buf s))
            (msglen s + Z.of_nat (length bs)), []).
Proof.
  induction bs as [|b bs IH]; intros s row Hnz Hfs Hml0 Hml Hno Hrow Hlen.
  - cbn [feed length app]. rewrite Nat.add_0_r, take_drop.
    rewrite list_insert_id by done. rewrite Z.add_0_r.
    by rewrite stored_id.
  - apply Forall_cons in Hnz as [Hb Hnz]. cbn [length] in Hml.
    erewrite feed_cons by (apply (message_byte b s row); try done; lia).
    set (n := Z.to_nat (msglen s)).
    set (m := Z.to_nat (msgno s)).
    pose proof (lookup_lt_Some _ _ _ Hrow) as Hm.
    rewrite (IH _ (<[n := b]> row)); try done; cbn; try lia.
    2:{ fold m. by rewrite list_lookup_insert_eq. }
    2:{ by rewrite length_insert. }
    fold m. rewrite list_insert_insert_eq.
    replace (Z.to_nat (msglen s + 1)) with (S n) by lia.
    assert (Hn : (n < length row)%nat) by lia.
    rewrite (take_S_r (<[n := b]> row) n b)
      by (by rewrite list_lookup_insert_eq).
    rewrite take_insert_ge by lia.
    rewrite drop_insert_lt by lia.
    rewrite <- app_assoc. cbn [app length].
    replace (n + S (length bs))%nat with (S n + length bs)%nat by lia.
    unfold stored. cbn. do 3 f_equal. lia.
Qed.

(** *** The end of a message, lines 253-314 *)

Lemma strrchr_from_last_index (c : Z) (rest : list Z) (t : list Z) :
  forall (i : Z) (last : option Z),
    Forall (fun x => x <> 0) t ->
    strrchr_from (t ++ 0 :: rest) c i last
    = Some (match last_index c t with
            | Some k => Some (i + Z.of_nat k)
            | None => last
            end).
Proof.
  induction t as [|x t IH]; intros i last Hnz; [done|].
  apply Forall_cons in Hnz as [Hx Hnz]. cbn [app strrchr_from last_index].
  destruct (x =? 0) eqn:E; zbool; [done|].
  rewrite IH by done.
  destruct (last_index c t) as [k|].
  - do 2 f_equal. lia.
  - destruct (x =? c); [|done]. do 2 f_equal. lia.
Qed.

Lemma last_index_lt (c : Z) (t : list Z) (k : nat) :
  last_index c t = Some k -> (k < length t)%nat.
Proof.
  revert k. induction t as [|x t IH]; intros k; [done|].
  cbn [last_index length]. destruct (last_index c t) as [j|].
  - intros [= <-]. specialize (IH j eq_refl). lia.
  - destruct (x =? c); [|done]. intros [= <-]. lia.
Qed.

(** A NUL written into a string cuts it. *)
Lemma cstr_insert_nul (t rest : list Z) (k : nat) :
  Forall (fun x => x <> 0) t -> (k <= length t)%nat ->
  cstr (<[k := 0]> (t ++ 0 :: rest)) = Some (take k t).
Proof.
  intros Hnz Hk.
  destruct (decide (k = length t)) as [->|Hne].
  - rewrite insert_app_r_alt by lia. rewrite Nat.sub_diag. cbn [insert].
    rewrite firstn_all. by apply cstr_app.
  - rewrite insert_app_l by lia. rewrite insert_take_drop by lia.
    rewrite <- app_assoc. cbn [app].
    apply cstr_app. by apply Forall_take.
Qed.

Lemma trim_nonempty (t : list Z) : t <> [] -> trim t <> [].
Proof.
  intros Hne. unfold trim. destruct (last_index 45 t) as [k|]; [|done].
  destruct t; done.
Qed.

#[local] Arguments have_complete_set : simpl never.
#[local] Arguments vote : simpl never.

(** The padding of line 253 behind the bytes of the message. *)
Lemma padded_row (row body : list Z) (len : Z) :
  row_ok row -> 0 <= len <= 268 -> take (Z.to_nat len) row = body ->
  exists rest,
    take (Z.to_nat len) row ++ replicate (Z.to_nat (268 - len)) 0
      ++ drop (Z.to_nat (len + (268 - len))) row
    = body ++ 0 :: rest.
Proof.
  intros [Hl Hz] Hlen Hb. rewrite Hb.
  replace (len + (268 - len)) with 268 by lia.
  change (Z.to_nat 268) with 268%nat.
  assert (Hd : drop 268 row = [0]).
  { apply list_eq. intros i. rewrite lookup_drop.
    destruct i as [|i]; simpl.
    - rewrite <- Hz. f_equal.
    - rewrite lookup_ge_None_2; [done|lia]. }
  rewrite Hd.
  destruct (Z.to_nat (268 - len)) as [|k].
  - by exists [].
  - by exists (replicate k 0 ++ [0]).
Qed.

(** Lines 260-265 on the padded slot: the string is cut after its last
    '-'. *)
Lemma trim_row_text (row1 body rest : list Z) :
  row_ok row1 -> row1 = body ++ 0 :: rest ->
  Forall (fun x => x <> 0) body ->
  exists p row2,
    strrchr row1 45 = Some p /\
    match p with
    | Some i => store row1 (i + 1) 0
    | None => Some row1
    end = Some row2 /\
    row_ok row2 /\ cstr row2 = Some (trim body).
Proof.
  intros Hok -> Hnz. unfold strrchr, trim.
  rewrite strrchr_from_last_index by done.
  destruct (last_index 45 body) as [k|] eqn:Ek.
  - apply last_index_lt in Ek.
    destruct Hok as [Hl Hz].
    assert (Hk : (S k <= 268)%nat).
    { rewrite length_app in Hl. cbn [length] in Hl. lia. }
    eexists _, (<[S k := 0]> (body ++ 0 :: rest)).
    split; [done|]. split.
    { rewrite store_insert by lia. do 2 f_equal. lia. }
    split; [by apply row_ok_insert|].
    apply cstr_insert_nul; [done|lia].
  - eexists _, _. split; [done|]. split; [done|]. split; [done|].
    by apply cstr_app.
Qed.

(** The flush of a message, with the slot it leaves. *)
Lemma flush_message_slot (s : l2_state) (row body : list Z) :
  wf s -> frame_state s = EAS_L2_READING_MESSAGE ->
  msg_buf s !! Z.to_nat (msgno s) = Some row ->
  take (Z.to_nat (msglen s)) row = body ->
  Forall (fun x => x <> 0) body ->
  exists row2 lm',
    let s' := flushed s lm' (<[Z.to_nat (msgno s) := row2]> (msg_buf s))
                      ((msgno s + 1) mod 3) in
    let t0 := slot_text s' 0 in
    let t1 := slot_text s' 1 in
    let t2 := slot_text s' 2 in
    on_flush s
    = Some (s', PartialMessage (HEADER_BEGIN_text ++ trim body) ::
                  (if bool_decide (t0 <> [] /\ t1 <> [] /\ t2 <> [])
                   then alerts_of (agreed t0 t1 t2) else []))
    /\ row_ok row2 /\ cstr row2 = Some (trim body) /\ wf s'
    /\ (t0 <> [] -> t1 <> [] -> t2 <> [] ->
        forall t, agreed t0 t1 t2 = Some t -> cstr lm' = Some t).
Proof.
  intros [Hlen Hrows Hlm Hhd Hno Hml Hhl _] Hst Hrow Hbody Hnz.
  set (m := Z.to_nat (msgno s)) in *.
  assert (Hm : (m < length (msg_buf s))%nat) by lia.
  assert (Hrok : row_ok row) by (eapply Forall_lookup_1; eauto).
  unfold on_flush.
  rewrite load_lookup by lia. fold m. rewrite Hrow. simpl.
  unfold MAX_MSG_LEN, ULONG_MOD.
  rewrite (Z.mod_small (268 - msglen s)) by lia.
  pose proof Hrok as [Hrl Hrz].
  rewrite memset_Some by lia. simpl.
  destruct (padded_row row body (msglen s) Hrok Hml Hbody) as (rest & Epad).
  set (row1 := take _ row ++ _) in *.
  assert (Hr1 : row_ok row1) by (apply row_ok_pad; [done|lia]).
  rewrite store_insert by lia. fold m. simpl. rewrite Hst.
  destruct (trim_row_text row1 body rest Hr1 Epad Hnz)
    as (p & row2 & -> & Hst2 & Hr2 & Htr). simpl.
  rewrite Hst2. simpl.
  rewrite store_insert by (rewrite length_insert; lia). fold m. simpl.
  rewrite list_insert_insert_eq.
  set (mb2 := <[m := row2]> (msg_buf s)).
  assert (Hmb2l : length mb2 = 4%nat) by (unfold mb2; by rewrite length_insert).
  assert (Hmb2 : Forall row_ok mb2) by (by apply Forall_insert).
  destruct (wf_rows_inv mb2 Hmb2l Hmb2)
    as (q0 & q1 & q2 & q3 & Emb & Q0 & Q1 & Q2 & Q3).
  rewrite Htr. simpl.
  destruct (row_ok_cstr _ Q0) as (t0 & T0 & _).
  destruct (row_ok_cstr _ Q1) as (t1 & T1 & _).
  destruct (row_ok_cstr _ Q2) as (t2 & T2 & _).
  rewrite Emb. rewrite Emb in Hmb2.
  rewrite (have_complete_set_rows q0 q1 q2 q3 t0 t1 t2) by done. simpl.
  assert (Hno2 : (if MAX_STORE_MSG <=? (msgno s + 1) mod 2 ^ 64
                  then 0 else (msgno s + 1) mod 2 ^ 64)
                 = (msgno s + 1) mod 3).
  { unfold MAX_STORE_MSG. rewrite Z.mod_small by lia.
    destruct (3 <=? msgno s + 1) eqn:E; zbool.
    - assert (msgno s = 2) as -> by lia. reflexivity.
    - by rewrite Z.mod_small by lia. }
  rewrite Hno2.
  assert (Hno3 : 0 <= (msgno s + 1) mod 3 < 3)
    by (apply Z.mod_pos_bound; lia).
  exists row2.
  case_bool_decide as Hall.
  - destruct Hall as (N0 & N1 & N2).
    destruct (vote_rows q0 q1 q2 q3 (last_message s) t0 t1 t2)
      as (lm' & -> & Hlm' & Hag); try done.
    simpl. exists lm'. fold mb2. rewrite Emb.
    destruct (slot_text_rows
                (flushed s lm' [q0; q1; q2; q3] ((msgno s + 1) mod 3))
                q0 q1 q2 q3 t0 t1 t2) as (-> & -> & ->); try done.
    cbv zeta. rewrite bool_decide_eq_true_2 by done.
    split; [done|]. split; [done|]. split; [done|].
    split; [|intros _ _ _; exact Hag].
    split; simpl; try done; lia.
  - exists (last_message s). fold mb2. rewrite Emb.
    destruct (slot_text_rows
                (flushed s (last_message s) [q0; q1; q2; q3]
                         ((msgno s + 1) mod 3))
                q0 q1 q2 q3 t0 t1 t2) as (-> & -> & ->); try done.
    cbv zeta. rewrite bool_decide_eq_false_2 by done.
    split; [done|]. split; [done|]. split; [done|].
    split; [|intros; exfalso; by apply Hall].
    split; simpl; try done; lia.
Qed.

Lemma header_kind_begin : header_kind HEADER_BEGIN_text = EAS_L2_READING_MESSAGE.
Proof. reflexivity. Qed.

(** One frame "ZCZC", body, NUL received by the idle parser. *)
Lemma one_frame (body : list Z) (s : l2_state) :
  wf s -> frame_state s = EAS_L2_IDLE -> headlen s = 0 ->
  Forall (fun x => x <> 0) body -> (length body <= 268)%nat ->
  exists row2 lm',
    let s' := {| last_message := lm';
                 msg_buf := <[Z.to_nat (msgno s) := row2]> (msg_buf s);
                 head_buf := HEADER_BEGIN_text; headlen := 0; msglen := 0;
                 msgno := (msgno s + 1) mod 3;
                 frame_state := EAS_L2_IDLE |} in
    let t0 := slot_text s' 0 in
    let t1 := slot_text s' 1 in
    let t2 := slot_text s' 2 in
    feed (frame_of body) s
    = Some (s', PartialMessage (HEADER_BEGIN_text ++ trim body) ::
                  (if bool_decide (t0 <> [] /\ t1 <> [] /\ t2 <> [])
                   then alerts_of (agreed t0 t1 t2) else []))
    /\ row_ok row2 /\ cstr row2 = Some (trim body) /\ wf s'
    /\ (t0 <> [] -> t1 <> [] -> t2 <> [] ->
        forall t, agreed t0 t1 t2 = Some t -> cstr lm' = Some t).
Proof.
  intros Hwf Hfs Hhl Hnz Hlen.
  pose proof Hwf as [Hrows Hrok Hlm Hhd Hno Hml _ Hidle].
  assert (Hml0 : msglen s = 0) by (apply Hidle; by rewrite Hfs).
  set (m := Z.to_nat (msgno s)).
  assert (Hm : (m < length (msg_buf s))%nat) by lia.
  destruct (lookup_lt_is_Some_2 _ _ Hm) as [row Hrow].
  assert (Hr : row_ok row) by (eapply Forall_lookup_1; eauto).
  pose proof Hr as [Hrl Hrz].
  set (s1 := searching s HEADER_BEGIN_text 4 EAS_L2_READING_MESSAGE).
  assert (H1 : feed HEADER_BEGIN_text s = Some (s1, [])).
  { unfold HEADER_BEGIN_text at 1.
    rewrite header_search; try done; try lia. by left. }
  set (row' := body ++ drop (length body) row).
  set (s2 := stored s1 (<[m := row']> (msg_buf s)) (Z.of_nat (length body))).
  assert (H2 : feed body s1 = Some (s2, [])).
  { rewrite (message_bytes body s1 row); try done;
      cbn [msglen msgno s1 searching]; try lia.
    rewrite Hml0. reflexivity. }
  assert (Hr' : row_ok row').
  { split.
    - unfold row'. rewrite length_app, length_drop. lia.
    - unfold row'. rewrite lookup_app_r by lia. rewrite lookup_drop.
      rewrite <- Hrz. f_equal. lia. }
  assert (Hwf2 : wf s2).
  { split; cbn; try done; try lia.
    - by rewrite length_insert.
    - by apply Forall_insert. }
  destruct (flush_message_slot s2 row' body Hwf2 eq_refl)
    as (row2 & lm' & Hfl & Hr2 & Hc2 & Hwf' & Hag); try done.
  { cbn. fold m. by rewrite list_lookup_insert_eq. }
  { cbn. rewrite Nat2Z.id. unfold row'. by rewrite take_app_length. }
  cbv zeta in Hfl, Hwf', Hag. cbn [msgno msg_buf s2 s1 stored searching] in *.
  fold m in Hfl, Hwf', Hag. rewrite list_insert_insert_eq in Hfl, Hwf', Hag.
  exists row2, lm'. cbv zeta.
  assert (H3 : forall r, on_flush s2 = Some r -> feed [0] s2 = Some r).
  { intros [s3 e3] H. cbn [feed].
    change (process_frame_char 0 s2) with (on_flush s2). rewrite H.
    cbn [mbind option_bind]. by rewrite app_nil_r. }
  apply H3 in Hfl.
  unfold frame_of. rewrite feed_app, H1. cbn [mbind option_bind].
  rewrite feed_app, H2. cbn [mbind option_bind]. rewrite Hfl.
  cbn [mbind option_bind app].
  split; [reflexivity|]. split; [done|]. split; [done|].
  split; [exact Hwf'|exact Hag].
Qed.

Lemma slot_text_insert_eq (s s' : l2_state) (m : nat) (r t : list Z) :
  msg_buf s' = <[m := r]> (msg_buf s) -> (m < length (msg_buf s))%nat ->
  cstr r = Some t -> slot_text s' m = t.
Proof.
  intros E Hm Hc. unfold slot_text. rewrite E.
  rewrite list_lookup_insert_eq by done. cbn. by rewrite Hc.
Qed.

Lemma slot_text_insert_ne (s s' : l2_state) (m j : nat) (r : list Z) :
  msg_buf s' = <[m := r]> (msg_buf s) -> m <> j ->
  slot_text s' j = slot_text s j.
Proof.
  intros E Hne. unfold slot_text. rewrite E.
  by rewrite list_lookup_insert_ne.
Qed.

Lemma agreed_same (t : list Z) : agreed t t t = Some t.
Proof. unfold agreed. by rewrite decide_True. Qed.

(** X4: a frame received three times raises the alert.  From any idle
    state of the parser, whatever the slots hold, the frame "ZCZC", body,
    NUL fed three times leaves the trimmed body in the three slots and in
    [last_message], and the last two things printed are the partial
    message and the confirmed alert, both with the trimmed body; the slot
    index is back where it was. *)
Theorem three_frames_raise_alert (body : list Z) (s : l2_state) :
  wf s -> frame_state s = EAS_L2_IDLE -> headlen s = 0 ->
  Forall (fun x => x <> 0) body -> body <> [] -> (length body <= 268)%nat ->
  exists s' evs,
    feed (frame_of body ++ frame_of body ++ frame_of body) s
    = Some (s', evs ++ [PartialMessage (HEADER_BEGIN_text ++ trim body);
                        ConfirmedAlert (HEADER_BEGIN_text ++ trim body)])
    /\ slot_text s' 0 = trim body /\ slot_text s' 1 = trim body
    /\ slot_text s' 2 = trim body
    /\ cstr (last_message s') = Some (trim body)
    /\ wf s' /\ frame_state s' = EAS_L2_IDLE /\ msgno s' = msgno s.
Proof.
  intros Hwf Hfs Hhl Hnz Hne Hlen.
  pose proof (trim_nonempty body Hne) as HT.
  destruct (one_frame body s Hwf Hfs Hhl Hnz Hlen)
    as (r1 & lm1 & F1 & _ & C1 & Hwf1 & _).
  cbv zeta in F1, Hwf1.
  set (s1 := {| last_message := lm1; msg_buf := _ |}) in *.
  destruct (one_frame body s1 Hwf1 eq_refl eq_refl Hnz Hlen)
    as (r2 & lm2 & F2 & _ & C2 & Hwf2 & _).
  cbv zeta in F2, Hwf2.
  set (s2 := {| last_message := lm2; msg_buf := _ |}) in *.
  destruct (one_frame body s2 Hwf2 eq_refl eq_refl Hnz Hlen)
    as (r3 & lm3 & F3 & _ & C3 & Hwf3 & Hag).
  cbv zeta in F3, Hwf3, Hag.
  set (s3 := {| last_message := lm3; msg_buf := _ |}) in *.
  pose proof Hwf as [Hrows _ _ _ Hno _ _ _].
  assert (Hslots : slot_text s3 0 = trim body /\ slot_text s3 1 = trim body
                   /\ slot_text s3 2 = trim body
                   /\ msgno s3 = msgno s).
  { assert (Hcase : msgno s = 0 \/ msgno s = 1 \/ msgno s = 2) by lia.
    assert (L1 : length (msg_buf s1) = 4%nat)
      by (cbn; by rewrite length_insert).
    assert (L2 : length (msg_buf s2) = 4%nat)
      by (cbn; by rewrite length_insert).
    assert (B1 : msg_buf s1 = <[Z.to_nat (msgno s) := r1]> (msg_buf s))
      by reflexivity.
    assert (B2 : msg_buf s2 = <[Z.to_nat (msgno s1) := r2]> (msg_buf s1))
      by reflexivity.
    assert (B3 : msg_buf s3 = <[Z.to_nat (msgno s2) := r3]> (msg_buf s2))
      by reflexivity.
    assert (N1 : msgno s1 = (msgno s + 1) mod 3) by reflexivity.
    assert (N2 : msgno s2 = (msgno s1 + 1) mod 3) by reflexivity.
    assert (N3 : msgno s3 = (msgno s2 + 1) mod 3) by reflexivity.
    clearbody s1 s2 s3.
    rewrite N2, N1 in B3. rewrite N1 in B2. rewrite N3, N2, N1.
    clear N1 N2 N3 F1 F2 F3 Hag Hwf1 Hwf2 Hwf3 Hwf.
    destruct Hcase as [E|[E|E]]; rewrite E in *;
      match type of B1 with
      | _ = <[Z.to_nat ?a := _]> _ =>
          change (Z.to_nat a) with (Z.to_nat (a mod 3)) in B1
      end.
    - change (Z.to_nat (0 mod 3)) with 0%nat in B1.
      change (Z.to_nat ((0 + 1) mod 3)) with 1%nat in B2.
      change (Z.to_nat (((0 + 1) mod 3 + 1) mod 3)) with 2%nat in B3.
      repeat split.
      + rewrite (slot_text_insert_ne s2 s3 2 0 r3) by done.
        rewrite (slot_text_insert_ne s1 s2 1 0 r2) by done.
        apply (slot_text_insert_eq s s1 0 r1); [done|lia|done].
      + rewrite (slot_text_insert_ne s2 s3 2 1 r3) by done.
        apply (slot_text_insert_eq s1 s2 1 r2); [done|lia|done].
      + apply (slot_text_insert_eq s2 s3 2 r3); [done|lia|done].
    - change (Z.to_nat (1 mod 3)) with 1%nat in B1.
      change (Z.to_nat ((1 + 1) mod 3)) with 2%nat in B2.
      change (Z.to_nat (((1 + 1) mod 3 + 1) mod 3)) with 0%nat in B3.
      repeat split.
      + apply (slot_text_insert_eq s2 s3 0 r3); [done|lia|done].
      + rewrite (slot_text_insert_ne s2 s3 0 1 r3) by done.
        rewrite (slot_text_insert_ne s1 s2 2 1 r2) by done.
        apply (slot_text_insert_eq s s1 1 r1); [done|lia|done].
      + rewrite (slot_text_insert_ne s2 s3 0 2 r3) by done.
        apply (slot_text_insert_eq s1 s2 2 r2); [done|lia|done].
    - change (Z.to_nat (2 mod 3)) with 2%nat in B1.
      change (Z.to_nat ((2 + 1) mod 3)) with 0%nat in B2.
      change (Z.to_nat (((2 + 1) mod 3 + 1) mod 3)) with 1%nat in B3.
      repeat split.
      + rewrite (slot_text_insert_ne s2 s3 1 0 r3) by done.
        apply (slot_text_insert_eq s1 s2 0 r2); [done|lia|done].
      + apply (slot_text_insert_eq s2 s3 1 r3); [done|lia|done].
      + rewrite (slot_text_insert_ne s2 s3 1 2 r3) by done.
        rewrite (slot_text_insert_ne s1 s2 0 2 r2) by done.
        apply (slot_text_insert_eq s s1 2 r1); [done|lia|done]. }
  destruct Hslots as (T0 & T1 & T2 & Eno).
  rewrite T0, T1, T2 in F3, Hag.
  rewrite bool_decide_eq_true_2 in F3 by done.
  rewrite agreed_same in F3, Hag. cbn [alerts_of] in F3.
  exists s3. eexists.
  rewrite feed_app, F1. cbn [mbind option_bind].
  rewrite feed_app, F2. cbn [mbind option_bind].
  rewrite F3. cbn [mbind option_bind].
  split.
  { f_equal. f_equal. rewrite app_assoc. f_equal. }
  split; [done|]. split; [done|]. split; [done|].
  split; [by apply Hag|]. split; [done|]. split; [done|]. exact Eno.
Qed.

(** *** Bytes that are dropped *)

Lemma eom_byte (b : Z) (s : l2_state) :
  b <> 0 -> frame_state s = EAS_L2_READING_EOM ->
  process_frame_char b s = Some (s, []).
Proof.
  intros Hb Hfs. unfold process_frame_char.
  destruct (b =? 0) eqn:E; zbool; [done|].
  unfold on_data. cbv zeta.
  rewrite Hfs. cbn [state_eqb andb]. rewrite Hfs. cbn [state_eqb andb].
  cbn [mbind option_bind]. rewrite Hfs. reflexivity.
Qed.

(** *** The parser stays inside its buffers *)

Lemma strncmp_defined (n : nat) : forall (a b : list Z),
  (n <= length a)%nat -> (n <= length b)%nat ->
  exists c, strncmp a b n = Some c.
Proof.
  induction n as [|n IH]; intros a b Ha Hb; [by exists 0|].
  destruct a as [|x a]; [simpl in Ha; lia|].
  destruct b as [|y b]; [simpl in Hb; lia|].
  rewrite strncmp_cons. simpl in Ha, Hb.
  destruct (x =? y); [|by eexists].
  destruct (x =? 0); [by eexists|]. apply IH; lia.
Qed.

Lemma on_data_total (b : Z) (s : l2_state) :
  wf s -> exists s', on_data b s = Some s' /\ msglen s' <= msglen s + 1.
Proof.
  intros [Hlen Hrows Hlm Hhd Hno Hml Hhl Hidle]. unfold on_data. cbv zeta.
  set (s1 := if state_eqb (frame_state s) EAS_L2_IDLE
             then set_frame_state s EAS_L2_HEADER_SEARCH else s).
  assert (E1 : msg_buf s1 = msg_buf s /\ msgno s1 = msgno s
               /\ msglen s1 = msglen s /\ head_buf s1 = head_buf s
               /\ headlen s1 = headlen s).
  { unfold s1. by destruct (state_eqb _ _). }
  destruct E1 as (Emb & Eno & Eml & Ehb & Ehl).
  assert (H2 : exists s2,
             (if state_eqb (frame_state s1) EAS_L2_HEADER_SEARCH
                 && (headlen s1 <? MAX_HEADER_LEN)
              then
                hb ← store (head_buf s1) (headlen s1) b;
                Some {| last_message := last_message s1;
                        msg_buf := msg_buf s1; head_buf := hb;
                        headlen := (headlen s1 + 1) mod ULONG_MOD;
                        msglen := msglen s1; msgno := msgno s1;
                        frame_state := frame_state s1 |}
              else Some s1) = Some s2
             /\ msg_buf s2 = msg_buf s /\ msgno s2 = msgno s
             /\ msglen s2 = msglen s /\ length (head_buf s2) = 4%nat
             /\ 0 <= headlen s2 <= 4).
  { destruct (state_eqb (frame_state s1) EAS_L2_HEADER_SEARCH
              && (headlen s1 <? MAX_HEADER_LEN)) eqn:E.
    - apply andb_prop in E as [_ E]. unfold MAX_HEADER_LEN in E. zbool.
      rewrite store_insert by (rewrite Ehb; lia). cbn [mbind option_bind].
      eexists. split; [done|]. cbn.
      rewrite length_insert, Ehb. unfold ULONG_MOD.
      rewrite Z.mod_small by lia. repeat split; try done; lia.
    - exists s1. rewrite Ehb, Ehl. done. }
  destruct H2 as (s2 & -> & Emb2 & Eno2 & Eml2 & Ehb2 & Ehl2).
  cbn [mbind option_bind].
  destruct (state_eqb (frame_state s2) EAS_L2_HEADER_SEARCH
            && (MAX_HEADER_LEN <=? headlen s2)) eqn:E.
  - apply andb_prop in E as [_ E]. unfold MAX_HEADER_LEN in E. zbool.
    assert (headlen s2 = 4) as -> by lia. change (Z.to_nat 4) with 4%nat.
    destruct (strncmp_defined 4 (head_buf s2) HEADER_BEGIN) as [c1 ->];
      [lia|simpl; lia|].
    destruct (strncmp_defined 4 (head_buf s2) EOM) as [c2 ->];
      [lia|simpl; lia|].
    cbn [mbind option_bind].
    destruct (c1 =? 0); [eexists; split; [done|cbn; lia]|].
    destruct (c2 =? 0); eexists; (split; [done|cbn; lia]).
  - destruct (state_eqb (frame_state s2) EAS_L2_READING_MESSAGE
              && (msglen s2 <=? MAX_MSG_LEN)) eqn:E'.
    + rewrite Emb2, Eno2, Eml2.
      set (m := Z.to_nat (msgno s)).
      assert (Hm : (m < length (msg_buf s))%nat) by lia.
      destruct (lookup_lt_is_Some_2 _ _ Hm) as [row Hrow].
      assert (Hrok : row_ok row) by (eapply Forall_lookup_1; eauto).
      destruct Hrok as [Hrl _].
      rewrite load_lookup by lia. fold m. rewrite Hrow.
      cbn [mbind option_bind].
      rewrite store_insert by lia. cbn [mbind option_bind].
      rewrite store_insert by lia. cbn [mbind option_bind].
      eexists. split; [done|]. cbn. unfold ULONG_MOD.
      rewrite Z.mod_small by lia. lia.
    + exists s2. split; [done|lia].
Qed.

Lemma on_flush_total (s : l2_state) :
  wf s -> exists s' evs, on_flush s = Some (s', evs).
Proof.
  intros Hwf. destruct (frame_state s) eqn:Hfs.
  - rewrite on_flush_idle by (by try left). by eexists _, _.
  - rewrite on_flush_idle by (by try right). by eexists _, _.
  - destruct (flush_message s Hwf Hfs) as (s1 & part & Hfl & _).
    cbv zeta in Hfl. rewrite Hfl. by eexists _, _.
  - destruct (on_flush_eom s Hwf Hfs) as (mb' & -> & _). by eexists _, _.
Qed.

(** *** The last confirmed message *)



(** X1: the header search.  Four non-zero bytes received by the idle
    parser are stored in [head_buf] and compared with "ZCZC" and "NNNN":
    the parser goes on to read a message, or an end of message, keeping
    the header length 4, or it drops the four bytes and is idle again
    with the header length 0.  Nothing is printed, and the slots, the
    slot index and the last message are untouched. *)
Theorem header_recognised (b0 b1 b2 b3 : Z) (s : l2_state) :
  b0 <> 0 -> b1 <> 0 -> b2 <> 0 -> b3 <> 0 ->
  frame_state s = EAS_L2_IDLE -> headlen s = 0 ->
  length (head_buf s) = 4%nat ->
  exists s',
    feed [b0; b1; b2; b3] s = Some (s', [])
    /\ frame_state s' = header_kind [b0; b1; b2; b3]
    /\ headlen s' = header_len (frame_state s')
    /\ head_buf s' = [b0; b1; b2; b3]
    /\ msg_buf s' = msg_buf s /\ msgno s' = msgno s
    /\ msglen s' = msglen s /\ last_message s' = last_message s.
Proof.
  intros N0 N1 N2 N3 Hfs Hhl Hlen.
  eexists. split.
  - apply header_search; try done. by left.
  - cbn. done.
Qed.

Lemma header_recognised_witness :
  90 <> 0 /\ 67 <> 0 /\ 90 <> 0 /\ 67 <> 0
  /\ frame_state l2_init = EAS_L2_IDLE /\ headlen l2_init = 0
  /\ length (head_buf l2_init) = 4%nat
  /\ exists s',
       feed [90; 67; 90; 67] l2_init = Some (s', [])
       /\ frame_state s' = header_kind [90; 67; 90; 67]
       /\ headlen s' = header_len (frame_state s')
       /\ head_buf s' = [90; 67; 90; 67]
       /\ msg_buf s' = msg_buf l2_init /\ msgno s' = msgno l2_init
       /\ msglen s' = msglen l2_init
       /\ last_message s' = last_message l2_init.
Proof.
  assert (H90 : 90 <> 0) by lia. assert (H67 : 67 <> 0) by lia.
  split; [exact H90|]. split; [exact H67|].
  split; [exact H90|]. split; [exact H67|].
  split; [reflexivity|]. split; [reflexivity|]. split; [reflexivity|].
  exact (header_recognised 90 67 90 67 l2_init H90 H67 H90 H67
           eq_refl eq_refl eq_refl).
Defined.

(** X2: the bytes of a message.  While a message is read, non-zero
    bytes are stored in the active slot at consecutive positions from
    [msglen] on, as long as [msglen] is at most 268 when a byte arrives;
    the other slots are not written and nothing is printed. *)
Theorem message_bytes_stored (bs : list Z) (s : l2_state) (row : list Z) :
  wf s -> frame_state s = EAS_L2_READING_MESSAGE ->
  Forall (fun b => b <> 0) bs ->
  msglen s + Z.of_nat (length bs) <= 269 ->
  msg_buf s !! Z.to_nat (msgno s) = Some row ->
  feed bs s
  = Some (stored s
            (<[Z.to_nat (msgno s) :=
                 take (Z.to_nat (msglen s)) row ++ bs
                   ++ drop (Z.to_nat (msglen s) + length bs) row]>
               (msg_buf s))
            (msglen s + Z.of_nat (length bs)), []).
Proof.
  intros Hwf Hfs Hnz Hlen Hrow.
  pose proof Hwf as [_ Hrows _ _ Hno Hml _ _].
  apply message_bytes; try done; try lia.
  eapply Forall_lookup_1 in Hrows; [|exact Hrow]. by destruct Hrows.
Qed.

Lemma message_bytes_stored_witness :
  let s := after [90; 67; 90; 67; 65] in
  wf s /\ frame_state s = EAS_L2_READING_MESSAGE
  /\ Forall (fun b => b <> 0) [66; 45]
  /\ msglen s + Z.of_nat (length [66; 45]) <= 269
  /\ msg_buf s !! Z.to_nat (msgno s) = Some (65 :: replicate 268 0)
  /\ feed [66; 45] s
     = Some (stored s
               (<[Z.to_nat (msgno s) :=
                    take (Z.to_nat (msglen s)) (65 :: replicate 268 0)
                      ++ [66; 45]
                      ++ drop (Z.to_nat (msglen s) + length [66; 45])
                              (65 :: replicate 268 0)]>
                  (msg_buf s))
               (msglen s + Z.of_nat (length [66; 45])), []).
Proof.
  cbv zeta.
  assert (Hwf : wf (after [90; 67; 90; 67; 65]))
    by (apply wfb_wf; vm_compute; reflexivity).
  assert (Hnz : Forall (fun b => b <> 0) [66; 45])
    by (repeat constructor; lia).
  assert (Hlen : msglen (after [90; 67; 90; 67; 65])
                 + Z.of_nat (length [66; 45]) <= 269)
    by (vm_compute; discriminate).
  assert (Hrow : msg_buf (after [90; 67; 90; 67; 65])
                   !! Z.to_nat (msgno (after [90; 67; 90; 67; 65]))
                 = Some (65 :: replicate 268 0))
    by (vm_compute; reflexivity).
  split; [exact Hwf|]. split; [reflexivity|]. split; [exact Hnz|].
  split; [exact Hlen|]. split; [exact Hrow|].
  exact (message_bytes_stored [66; 45] (after [90; 67; 90; 67; 65])
           (65 :: replicate 268 0) Hwf eq_refl Hnz Hlen Hrow).
Defined.

(** X3: one frame.  The frame "ZCZC", body, NUL received by the idle
    parser prints the partial message made of the header and the body
    cut after its last '-', leaves that text in the active slot and the
    other slots as they were, moves the slot index on by one modulo 3
    and leaves the parser idle.  A confirmed alert follows exactly when
    the three slots are then non-empty and two of them agree. *)
Theorem frame_is_reported (body : list Z) (s : l2_state) :
  wf s -> frame_state s = EAS_L2_IDLE -> headlen s = 0 ->
  Forall (fun x => x <> 0) body -> (length body <= 268)%nat ->
  exists s',
    let t0 := slot_text s' 0 in
    let t1 := slot_text s' 1 in
    let t2 := slot_text s' 2 in
    feed (frame_of body) s
    = Some (s', PartialMessage (HEADER_BEGIN_text ++ trim body) ::
                  (if bool_decide (t0 <> [] /\ t1 <> [] /\ t2 <> [])
                   then alerts_of (agreed t0 t1 t2) else []))
    /\ slot_text s' (Z.to_nat (msgno s)) = trim body
    /\ (forall j : nat, j <> Z.to_nat (msgno s) ->
        slot_text s' j = slot_text s j)
    /\ msgno s' = (msgno s + 1) mod 3
    /\ frame_state s' = EAS_L2_IDLE /\ headlen s' = 0 /\ wf s'.
Proof.
  intros Hwf Hfs Hhl Hnz Hlen.
  destruct (one_frame body s Hwf Hfs Hhl Hnz Hlen)
    as (row2 & lm' & F & _ & Hc & Hwf' & _).
  cbv zeta in F, Hwf'.
  set (s' := {| last_message := lm'; msg_buf := _ |}) in *.
  pose proof Hwf as [Hrows _ _ _ Hno _ _ _].
  exists s'. cbv zeta. split; [exact F|]. split.
  { apply (slot_text_insert_eq s s' _ row2); [done|lia|done]. }
  split.
  { intros j Hj.
    by apply (slot_text_insert_ne s s' (Z.to_nat (msgno s)) j row2). }
  done.
Qed.

Lemma frame_is_reported_witness :
  wf s_idle_full /\ frame_state s_idle_full = EAS_L2_IDLE
  /\ headlen s_idle_full = 0
  /\ Forall (fun x => x <> 0) [66; 45; 66] /\ (length [66; 45; 66] <= 268)%nat
  /\ exists s',
       let t0 := slot_text s' 0 in
       let t1 := slot_text s' 1 in
       let t2 := slot_text s' 2 in
       feed (frame_of [66; 45; 66]) s_idle_full
       = Some (s', PartialMessage (HEADER_BEGIN_text ++ trim [66; 45; 66]) ::
                     (if bool_decide (t0 <> [] /\ t1 <> [] /\ t2 <> [])
                      then alerts_of (agreed t0 t1 t2) else []))
       /\ slot_text s' (Z.to_nat (msgno s_idle_full)) = trim [66; 45; 66]
       /\ (forall j : nat, j <> Z.to_nat (msgno s_idle_full) ->
           slot_text s' j = slot_text s_idle_full j)
       /\ msgno s' = (msgno s_idle_full + 1) mod 3
       /\ frame_state s' = EAS_L2_IDLE /\ headlen s' = 0 /\ wf s'.
Proof.
  assert (Hwf : wf s_idle_full) by (apply wfb_wf; vm_compute; reflexivity).
  assert (Hnz : Forall (fun x => x <> 0) [66; 45; 66])
    by (repeat constructor; lia).
  assert (Hlen : (length [66; 45; 66] <= 268)%nat) by (simpl; lia).
  split; [exact Hwf|]. split; [reflexivity|]. split; [reflexivity|].
  split; [exact Hnz|]. split; [exact Hlen|].
  exact (frame_is_reported [66; 45; 66] s_idle_full Hwf eq_refl eq_refl
           Hnz Hlen).
Defined.

Lemma three_frames_raise_alert_witness :
  wf l2_init /\ frame_state l2_init = EAS_L2_IDLE /\ headlen l2_init = 0
  /\ Forall (fun x => x <> 0) [65; 45] /\ [65; 45] <> []
  /\ (length [65; 45] <= 268)%nat
  /\ exists s' evs,
       feed (frame_of [65; 45] ++ frame_of [65; 45] ++ frame_of [65; 45])
            l2_init
       = Some (s', evs ++ [PartialMessage (HEADER_BEGIN_text ++ trim [65; 45]);
                           ConfirmedAlert (HEADER_BEGIN_text ++ trim [65; 45])])
       /\ slot_text s' 0 = trim [65; 45] /\ slot_text s' 1 = trim [65; 45]
       /\ slot_text s' 2 = trim [65; 45]
       /\ cstr (last_message s') = Some (trim [65; 45])
       /\ wf s' /\ frame_state s' = EAS_L2_IDLE /\ msgno s' = msgno l2_init.
Proof.
  assert (Hnz : Forall (fun x => x <> 0) [65; 45])
    by (repeat constructor; lia).
  assert (Hne : [65; 45] <> []) by discriminate.
  assert (Hlen : (length [65; 45] <= 268)%nat) by (simpl; lia).
  split; [exact wf_init|]. split; [reflexivity|]. split; [reflexivity|].
  split; [exact Hnz|]. split; [exact Hne|]. split; [exact Hlen|].
  exact (three_frames_raise_alert [65; 45] l2_init wf_init eq_refl eq_refl
           Hnz Hne Hlen).
Defined.

(** X5: an empty frame.  "ZCZC" directly followed by the NUL prints the
    partial message "ZCZC", leaves the active slot empty and moves the
    slot index on; no alert is raised, whatever the other two slots
    hold. *)
Theorem empty_frame_raises_no_alert (s : l2_state) :
  wf s -> frame_state s = EAS_L2_IDLE -> headlen s = 0 ->
  exists s',
    feed (frame_of []) s = Some (s', [PartialMessage HEADER_BEGIN_text])
    /\ slot_text s' (Z.to_nat (msgno s)) = []
    /\ (forall j : nat, j <> Z.to_nat (msgno s) ->
        slot_text s' j = slot_text s j)
    /\ msgno s' = (msgno s + 1) mod 3.
Proof.
  intros Hwf Hfs Hhl.
  destruct (one_frame [] s Hwf Hfs Hhl) as (row2 & lm' & F & _ & Hc & _ & _);
    [done|simpl; lia|].
  cbv zeta in F.
  set (s' := {| last_message := lm'; msg_buf := _ |}) in *.
  pose proof Hwf as [Hrows _ _ _ Hno _ _ _].
  assert (Hm : slot_text s' (Z.to_nat (msgno s)) = []).
  { apply (slot_text_insert_eq s s' _ row2); [done|lia|done]. }
  exists s'. split.
  { rewrite F. rewrite bool_decide_eq_false_2; [done|].
    assert (Hcase : msgno s = 0 \/ msgno s = 1 \/ msgno s = 2) by lia.
    intros (N0 & N1 & N2).
    destruct Hcase as [E|[E|E]]; rewrite E in Hm; done. }
  split; [exact Hm|]. split; [|done].
  intros j Hj.
  by apply (slot_text_insert_ne s s' (Z.to_nat (msgno s)) j row2).
Qed.

Lemma empty_frame_raises_no_alert_witness :
  wf s_idle_full /\ frame_state s_idle_full = EAS_L2_IDLE
  /\ headlen s_idle_full = 0
  /\ exists s',
       feed (frame_of []) s_idle_full
       = Some (s', [PartialMessage HEADER_BEGIN_text])
       /\ slot_text s' (Z.to_nat (msgno s_idle_full)) = []
       /\ (forall j : nat, j <> Z.to_nat (msgno s_idle_full) ->
           slot_text s' j = slot_text s_idle_full j)
       /\ msgno s' = (msgno s_idle_full + 1) mod 3.
Proof.
  assert (Hwf : wf s_idle_full) by (apply wfb_wf; vm_compute; reflexivity).
  split; [exact Hwf|]. split; [reflexivity|]. split; [reflexivity|].
  exact (empty_frame_raises_no_alert s_idle_full Hwf eq_refl eq_refl).
Defined.

(** X6: after "NNNN" has been recognised, every non-zero byte is
    dropped: the parser waits for the NUL in the same state and prints
    nothing. *)
Theorem eom_ignores_bytes (bs : list Z) (s : l2_state) :
  frame_state s = EAS_L2_READING_EOM -> Forall (fun b => b <> 0) bs ->
  feed bs s = Some (s, []).
Proof.
  intros Hfs Hnz. induction Hnz as [|b bs Hb _ IH]; [done|].
  erewrite feed_cons by (by apply eom_byte). by rewrite IH.
Qed.

Lemma eom_ignores_bytes_witness :
  frame_state s_eom = EAS_L2_READING_EOM
  /\ Forall (fun b => b <> 0) [78; 13; 10]
  /\ feed [78; 13; 10] s_eom = Some (s_eom, []).
Proof.
  assert (Hnz : Forall (fun b => b <> 0) [78; 13; 10])
    by (repeat constructor; lia).
  split; [reflexivity|]. split; [exact Hnz|].
  exact (eom_ignores_bytes [78; 13; 10] s_eom eq_refl Hnz).
Defined.

(** X7: the parser stays inside its buffers.  From a state whose slots
    are in order every byte is processed without an access outside
    [head_buf], [msg_buf] or [last_message], and the slots are in order
    afterwards, unless the byte was the 269th of a message (the slot is
    then overrun); while fewer than 268 bytes of a message are stored
    this cannot happen. *)
Theorem parser_stays_in_bounds (b : Z) (s : l2_state) :
  wf s ->
  exists s' evs,
    process_frame_char b s = Some (s', evs)
    /\ (wf s' \/ overrun s')
    /\ (msglen s < 268 -> wf s').
Proof.
  intros Hwf.
  assert (Hdef : exists s' evs, process_frame_char b s = Some (s', evs)
                                /\ (b <> 0 -> msglen s' <= msglen s + 1)
                                /\ (b = 0 -> wf s')).
  { unfold process_frame_char. destruct (b =? 0) eqn:E; zbool.
    - destruct (on_flush_total s Hwf) as (s' & evs & H).
      exists s', evs. split; [done|]. split; [done|].
      intros _. by eapply on_flush_wf.
    - destruct (on_data_total b s Hwf) as (s' & -> & Hle).
      exists s', []. done. }
  destruct Hdef as (s' & evs & H & Hle & Hz).
  exists s', evs. split; [done|].
  pose proof (process_frame_char_wf b s s' evs Hwf H) as Hcase.
  split; [done|]. intros Hlt.
  destruct Hcase as [?|(_ & Hov & _)]; [done|].
  destruct (decide (b = 0)) as [Hb|Hb]; [by apply Hz|].
  specialize (Hle Hb). lia.
Qed.

Lemma parser_stays_in_bounds_witness :
  wf s_third_message
  /\ exists s' evs,
       process_frame_char 45 s_third_message = Some (s', evs)
       /\ (wf s' \/ overrun s')
       /\ (msglen s_third_message < 268 -> wf s').
Proof.
  assert (Hwf : wf s_third_message)
    by (apply wfb_wf; vm_compute; reflexivity).
  split; [exact Hwf|].
  exact (parser_stays_in_bounds 45 s_third_message Hwf).
Defined.




End ParserFacts.

(** ** The demodulator *)

Module DemodFacts.
Import CStr Frame Fp Demod.

Lemma CORRLEN_value : CORRLEN_expr = Some CORRLEN.
Proof. vm_compute. reflexivity. Qed.

Lemma SPHASEINC_uint_value : SPHASEINC_uint_expr = Some SPHASEINC_uint.
Proof. vm_compute. reflexivity. Qed.

Lemma forall_range_spec (p : Z -> bool) (n : nat) : forall lo,
  forall_range p lo n = true ->
  forall z, lo <= z < lo + Z.of_nat n -> p z = true.
Proof.
  induction n as [|n IH]; intros lo H z Hz; [lia|].
  simpl in H. apply andb_prop in H as [H0 H1].
  destruct (decide (z = lo)) as [->|Hne]; [done|].
  apply (IH (lo + 1) H1). lia.
Qed.

Lemma forall_uint16_spec (p : Z -> bool) :
  forall_uint16 p = true -> forall z, 0 <= z < 65536 -> p z = true.
Proof.
  intros H z Hz. unfold forall_uint16 in H.
  assert (Hq : 0 <= z / 256 < 256).
  { split; [apply Z.div_pos; lia|apply Z.div_lt_upper_bound; lia]. }
  pose proof (Z.mod_pos_bound z 256 ltac:(lia)) as Hr.
  assert (Hhi := forall_range_spec _ 256 0 H (z / 256)
                   ltac:(change (Z.of_nat 256) with 256; lia)).
  cbv beta in Hhi.
  assert (Hlo := forall_range_spec _ 256 0 Hhi (z mod 256)
                   ltac:(change (Z.of_nat 256) with 256; lia)).
  cbv beta in Hlo.
  by rewrite <- Z.div_mod in Hlo by lia.
Qed.

(** Every 7-bit byte passes line 199, whose two comparisons are joined
    by "or". *)
Lemma eas_allowed_7bit (data : Z) :
  0 <= data < 256 -> eas_allowed data = if data <? 128 then 1 else 0.
Proof.
  intros Hd.
  assert (H : forall_range
                (fun d => eas_allowed d =? (if d <? 128 then 1 else 0))
                0 256 = true) by (vm_compute; reflexivity).
  apply Z.eqb_eq.
  apply (forall_range_spec _ 256 0 H data).
  change (Z.of_nat 256) with 256. lia.
Qed.

(** C4 (the code departs from the claim): the control character 0x01
    passes the allow-list and is handed to the frame parser, the decoder
    staying synchronised. *)
Theorem control_byte_is_forwarded :
  eas_allowed 1 = 1 /\
  forall (synced : Z) (s : l2_state),
    byte_complete 1 synced s
    = '(s', evs) ← process_frame_char 1 s; Some (synced, s', evs).
Proof. split; [reflexivity|]. intros synced s. reflexivity. Qed.

(** Bytes with the high bit set are refused: sync is dropped and the
    parser is flushed. *)
Lemma high_byte_is_refused (kar synced : Z) (s : l2_state) :
  128 <= kar < 256 ->
  byte_complete kar synced s
  = '(s', evs) ← process_frame_char 0 s; Some (0, s', evs).
Proof.
  intros Hk. unfold byte_complete. rewrite eas_allowed_7bit by lia.
  destruct (kar <? 128) eqn:E; zbool; [lia|]. reflexivity.
Qed.

(** *** The symbol clock *)









End DemodFacts.

Module AssemblerFacts.
Import CStr Frame Fp Demod DemodFacts.





(** Lines 403-408: what the end of a bit period makes of the byte. *)
Lemma bit_period_kar (st st' : demod_state) (evs : list event) :
  bit_period st = Some (st', evs) ->
  current_kar st' = shift_kar (current_kar st) (dcd_integrator st)
  /\ shift_reg st' = shift_reg st
  /\ dcd_integrator st' = dcd_integrator st.
Proof.
  unfold bit_period. cbv zeta. fold (shift_kar (current_kar st) (dcd_integrator st)).
  intros H.
  repeat match type of H with
         | (if ?b then _ else _) = _ => destruct b
         end;
    try (apply bind_Some in H as ([[sy s'] e] & _ & H));
    by injection H as <- <-.
Qed.






(** X10: the allow-list passes exactly the bytes below 0x80.  A
    completed byte below 0x80, the NUL and the control characters
    included, is handed to the frame parser and synchronisation is kept;
    any other byte makes the decoder drop synchronisation and hand the
    parser a NUL. *)
Theorem byte_complete_cases (kar synced : Z) (s : l2_state) :
  0 <= kar < 256 ->
  eas_allowed kar = (if kar <? 128 then 1 else 0)
  /\ byte_complete kar synced s
     = if kar <? 128
       then '(s', evs) ← process_frame_char kar s; Some (synced, s', evs)
       else '(s', evs) ← process_frame_char 0 s; Some (0, s', evs).
Proof.
  intros Hk. split; [by apply eas_allowed_7bit|].
  unfold byte_complete. rewrite eas_allowed_7bit by done.
  by destruct (kar <? 128).
Qed.

Lemma byte_complete_cases_witness :
  0 <= 10 < 256
  /\ eas_allowed 10 = (if 10 <? 128 then 1 else 0)
  /\ byte_complete 10 1 l2_init
     = if 10 <? 128
       then '(s', evs) ← process_frame_char 10 l2_init; Some (1, s', evs)
       else '(s', evs) ← process_frame_char 0 l2_init; Some (0, s', evs).
Proof.
  assert (H : 0 <= 10 < 256) by lia.
  split; [exact H|]. exact (byte_complete_cases 10 1 l2_init H).
Defined.

End AssemblerFacts.

(** ** The correlator reads one window *)

Module WindowFacts.
Import Fp Demod Main.

Lemma mac_simd_take (blocks : nat) :
  forall (a b : list spec_float) (acc : lanes) (n : nat),
    (4 * blocks <= n)%nat ->
    mac_simd (take n a) b blocks acc = mac_simd a b blocks acc.
Proof.
  induction blocks as [|k IH]; intros a b acc n Hn; [done|].
  destruct a as [|a0 [|a1 [|a2 [|a3 a']]]];
    try (by rewrite take_ge by (simpl; lia)).
  do 4 (destruct n as [|n]; [lia|]).
  cbn [take mac_simd].
  destruct b as [|b0 [|b1 [|b2 [|b3 b']]]]; try done.
  destruct acc as [[[r0 r1] r2] r3]. apply IH. lia.
Qed.

Lemma mac_tail_take (k : nat) :
  forall (a b : list spec_float) (fres : spec_float) (n : nat),
    (k <= n)%nat ->
    mac_tail (take n a) b k fres = mac_tail a b k fres.
Proof.
  induction k as [|k IH]; intros a b fres n Hn; [done|].
  destruct a as [|x a]; [by rewrite take_nil|].
  destruct n as [|n]; [lia|]. cbn [take mac_tail].
  destruct b as [|y b]; [done|]. apply IH. lia.
Qed.

(** [mac] with [size = CORRLEN] reads the first [CORRLEN] samples. *)
Lemma mac_window (a b : list spec_float) :
  mac (take (Z.to_nat CORRLEN) a) b CORRLEN = mac a b CORRLEN.
Proof.
  unfold mac, CORRLEN.
  change (42 / 4) with 10. change (42 mod 4) with 2.
  change (negb (10 =? 0)) with true. change (negb (2 =? 0)) with true.
  cbv iota.
  change (Z.to_nat 42) with 42%nat. change (Z.to_nat 10) with 10%nat.
  change (Z.to_nat (42 - 2)) with 40%nat. change (Z.to_nat 2) with 2%nat.
  rewrite mac_simd_take by lia.
  destruct (mac_simd a b 10 _) as [[[[r0 r1] r2] r3]|]; [|done].
  replace (drop 40 (take 42 a)) with (take 2 (drop 40 a))
    by (by rewrite take_drop_commute).
  unfold mbind, option_bind. by rewrite mac_tail_take.
Qed.

Lemma discriminant_window (t : tone_tables) (buffer : list spec_float) :
  discriminant t (take (Z.to_nat CORRLEN) buffer) = discriminant t buffer.
Proof. unfold discriminant. by rewrite !mac_window. Qed.

Lemma demod_run_windows (t : tone_tables) (buffers : list (list spec_float)) :
  forall st,
    demod_run t (map (take (Z.to_nat CORRLEN)) buffers) st
    = demod_run t buffers st.
Proof.
  induction buffers as [|b bs IH]; intros st; [done|].
  cbn [map demod_run]. unfold demod_sample.
  rewrite discriminant_window.
  destruct (discriminant t b) as [f|]; [|done]. simpl.
  destruct (demod_update f st) as [[st1 e1]|]; [|done]. simpl.
  by rewrite IH.
Qed.

(** [eas_demod] runs the demodulator on the windows at the offsets
    [0 .. length] of its buffer. *)
Lemma eas_demod_windows_run (t : tone_tables) (buffer : list spec_float)
      (length : Z) (st : demod_state) :
  eas_demod t buffer length st
  = demod_run t (eas_demod_windows buffer length) st.
Proof.
  unfold eas_demod, eas_demod_windows.
  rewrite <- demod_run_windows. by rewrite map_map.
Qed.

Lemma demod_run_app (t : tone_tables) (ws1 ws2 : list (list spec_float)) :
  forall st,
    demod_run t (ws1 ++ ws2) st
    = '(st1, e1) ← demod_run t ws1 st;
      '(st2, e2) ← demod_run t ws2 st1;
      Some (st2, e1 ++ e2).
Proof.
  induction ws1 as [|w ws1 IH]; intros st.
  - simpl. destruct (demod_run t ws2 st) as [[st2 e2]|]; done.
  - cbn [app demod_run].
    destruct (demod_sample t w st) as [[st1 e1]|]; [|done]. simpl.
    rewrite IH.
    destruct (demod_run t ws1 st1) as [[st2 e2]|]; [|done]. simpl.
    destruct (demod_run t ws2 st2) as [[st3 e3]|]; [|done]. simpl.
    by rewrite app_assoc.
Qed.

(** The events [main] prints are those of the demodulator run over the
    windows of [main_windows], in that order. *)
Lemma main_loop_windows (t : tone_tables) (chunks : list (list Z)) :
  forall (fbuf : list spec_float) (st : demod_state),
    main_loop t chunks fbuf st
    = '(st', evs) ← demod_run t (fst (main_windows chunks fbuf)) st;
      Some (snd (main_windows chunks fbuf), st', evs).
Proof.
  induction chunks as [|c chunks IH]; intros fbuf st; [done|].
  cbn [main_loop main_windows]. unfold chunk_windows.
  destruct (CORRLEN <? Z.of_nat (length (fill fbuf c))).
  - rewrite eas_demod_windows_run.
    destruct (main_windows chunks _) as [ws fb] eqn:E.
    cbn [fst snd]. rewrite demod_run_app.
    destruct (demod_run t (eas_demod_windows _ _) st) as [[st1 e1]|];
      [|done].
    simpl. rewrite IH, E. cbn [fst snd].
    destruct (demod_run t ws st1) as [[st2 e2]|]; done.
  - destruct (main_windows chunks _) as [ws fb] eqn:E.
    cbn [fst snd app]. rewrite IH, E. done.
Qed.

End WindowFacts.

Module ClockFacts.
Import CStr Frame Fp Demod FrameFacts ParserFacts DemodFacts AssemblerFacts.













End ClockFacts.

(** ** What the demodulator can print *)

Module AlertFacts.
Import Frame Fp Demod Main FrameFacts WindowFacts.

Lemma headed_nil : headed [].
Proof. intros t []. Qed.

Lemma headed_app (e1 e2 : list event) :
  headed e1 -> headed e2 -> headed (e1 ++ e2).
Proof.
  intros H1 H2 t Hin. apply in_app_or in Hin as [Hin|Hin]; eauto.
Qed.

Lemma process_frame_char_headed (b : Z) (s s' : l2_state)
      (evs : list event) :
  process_frame_char b s = Some (s', evs) -> headed evs.
Proof. intros H t Hin. by eapply confirmed_alert_has_header. Qed.

Lemma bit_period_headed (st st' : demod_state) (evs : list event) :
  bit_period st = Some (st', evs) -> headed evs.
Proof.
  unfold bit_period, byte_complete. intros H.
  repeat match type of H with
         | (if ?b then _ else _) = _ => destruct b
         | context [if ?b then _ else _] => destruct b
         end;
    try (injection H as <- <-; apply headed_nil);
    apply bind_Some in H as ([[sy s'] e] & Hb & H);
    injection H as <- <-;
    apply bind_Some in Hb as ([s1 e1] & Hp & Hb);
    injection Hb as <- <- <-;
    by eapply process_frame_char_headed.
Qed.

Lemma demod_sample_headed (t : tone_tables) (buffer : list spec_float)
      (st st' : demod_state) (evs : list event) :
  demod_sample t buffer st = Some (st', evs) -> headed evs.
Proof.
  unfold demod_sample, demod_update. intros H.
  apply bind_Some in H as (f & _ & H).
  apply bind_Some in H as (sp1 & _ & H).
  destruct (65536 <=? _).
  - by eapply bit_period_headed.
  - injection H as <- <-. apply headed_nil.
Qed.

Lemma demod_run_headed (t : tone_tables) (ws : list (list spec_float)) :
  forall (st st' : demod_state) (evs : list event),
    demod_run t ws st = Some (st', evs) -> headed evs.
Proof.
  induction ws as [|w ws IH]; intros st st' evs H; simpl in H.
  - injection H as <- <-. apply headed_nil.
  - apply bind_Some in H as ([st1 e1] & H1 & H).
    apply bind_Some in H as ([st2 e2] & H2 & H).
    injection H as <- <-. apply headed_app.
    + by eapply demod_sample_headed.
    + by eapply IH.
Qed.

(** Whatever the samples and the reference tables, [main] prints no
    confirmed alert whose text does not start with "ZCZC". *)
Lemma main_loop_headed (t : tone_tables) (chunks : list (list Z))
      (fbuf fbuf' : list spec_float) (st st' : demod_state)
      (evs : list event) :
  main_loop t chunks fbuf st = Some (fbuf', st', evs) -> headed evs.
Proof.
  rewrite main_loop_windows. intros H.
  apply bind_Some in H as ([st1 e1] & H1 & H).
  injection H as <- <- <-. by eapply demod_run_headed.
Qed.

End AlertFacts.

(** ** The sample loop *)

Module MainFacts.
Import Fp Demod Main.

Section Windows.
Context {A : Type}.
Implicit Types (S c : list A) (chunks : list (list A)).

Lemma eas_demod_windows_eq S (n : nat) :
  eas_demod_windows S (Z.of_nat n) = map (win S) (seq 0 (Datatypes.S n)).
Proof.
  unfold eas_demod_windows, eas_demod_offsets.
  destruct (Z.of_nat n <? 0) eqn:E; zbool; [lia|].
  replace (Z.to_nat (Z.of_nat n + 1)) with (Datatypes.S n) by lia.
  reflexivity.
Qed.

Lemma chunk_windows_small S :
  (length S <= 42)%nat -> chunk_windows S = ([], S).
Proof.
  intros H. unfold chunk_windows, CORRLEN.
  destruct (42 <? Z.of_nat (length S)) eqn:E; zbool; [lia|done].
Qed.

Lemma chunk_windows_large S :
  (42 < length S)%nat ->
  chunk_windows S
  = (map (win S) (seq 0 (Datatypes.S (length S - 42))),
     drop (length S - 42) S).
Proof.
  intros H. unfold chunk_windows, carry_over, CORRLEN.
  destruct (42 <? Z.of_nat (length S)) eqn:E; zbool; [|lia].
  replace (Z.of_nat (length S) - 42) with (Z.of_nat (length S - 42)) by lia.
  rewrite eas_demod_windows_eq. reflexivity.
Qed.





End Windows.



(** The window processed twice is seen by the demodulator: its clock has
    advanced by four phase steps after the two reads, by three after
    the single read. *)
Example repeated_window_advances_clock :
  (fun r => sphase r.1.2) <$> main_loop flat_tables two_reads [] demod_init
  = Some (4 * SPHASEINC_uint)
  /\ (fun r => sphase r.1.2)
       <$> main_loop flat_tables [concat two_reads] [] demod_init
     = Some (3 * SPHASEINC_uint).
Proof. split; vm_compute; reflexivity. Qed.


End MainFacts.

Module SampleFacts.
Import CStr Frame Fp Demod Main DemodFacts MainFacts WindowFacts.

(** *** The correlator stays inside the window *)

Lemma mac_simd_defined (blocks : nat) :
  forall (a b : list spec_float) (acc : lanes),
    (4 * blocks <= length a)%nat -> (4 * blocks <= length b)%nat ->
    exists r, mac_simd a b blocks acc = Some r.
Proof.
  induction blocks as [|k IH]; intros a b acc Ha Hb; [by eexists|].
  destruct a as [|a0 [|a1 [|a2 [|a3 a']]]]; simpl in Ha; try lia.
  destruct b as [|b0 [|b1 [|b2 [|b3 b']]]]; simpl in Hb; try lia.
  destruct acc as [[[r0 r1] r2] r3]. cbn [mac_simd]. apply IH; lia.
Qed.

Lemma mac_tail_defined (n : nat) :
  forall (a b : list spec_float) (fres : spec_float),
    (n <= length a)%nat -> (n <= length b)%nat ->
    exists r, mac_tail a b n fres = Some r.
Proof.
  induction n as [|k IH]; intros a b fres Ha Hb; [by eexists|].
  destruct a as [|x a]; simpl in Ha; try lia.
  destruct b as [|y b]; simpl in Hb; try lia.
  cbn [mac_tail]. apply IH; lia.
Qed.

Lemma mac_simd_short (blocks : nat) :
  forall (a b : list spec_float) (acc : lanes),
    (length a < 4 * blocks)%nat -> mac_simd a b blocks acc = None.
Proof.
  induction blocks as [|k IH]; intros a b acc Ha; [lia|].
  destruct a as [|a0 [|a1 [|a2 [|a3 a']]]]; try done.
  destruct b as [|b0 [|b1 [|b2 [|b3 b']]]]; try done.
  destruct acc as [[[r0 r1] r2] r3]. cbn [mac_simd]. apply IH.
  simpl in Ha. lia.
Qed.

Lemma mac_tail_short (n : nat) :
  forall (a b : list spec_float) (fres : spec_float),
    (length a < n)%nat -> mac_tail a b n fres = None.
Proof.
  induction n as [|k IH]; intros a b fres Ha; [lia|].
  destruct a as [|x a]; [done|]. destruct b as [|y b]; [done|].
  cbn [mac_tail]. apply IH. simpl in Ha. lia.
Qed.

Lemma mac_CORRLEN_unfold (a b : list spec_float) :
  mac a b CORRLEN
  = '(r0, r1, r2, r3) ← mac_simd a b 10 (fzero, fzero, fzero, fzero);
    mac_tail (drop 40 a) (drop 40 b) 2 (fadd (fadd r0 r2) (fadd r1 r3)).
Proof.
  unfold mac, CORRLEN.
  change (42 / 4) with 10. change (42 mod 4) with 2.
  change (negb (10 =? 0)) with true. change (negb (2 =? 0)) with true.
  cbv iota.
  change (Z.to_nat 10) with 10%nat.
  change (Z.to_nat (42 - 2)) with 40%nat. change (Z.to_nat 2) with 2%nat.
  destruct (mac_simd a b 10 _) as [[[[r0 r1] r2] r3]|]; reflexivity.
Qed.

Lemma mac_defined (a b : list spec_float) :
  (42 <= length a)%nat -> (42 <= length b)%nat ->
  exists r, mac a b CORRLEN = Some r.
Proof.
  intros Ha Hb. rewrite mac_CORRLEN_unfold.
  destruct (mac_simd_defined 10 a b (fzero, fzero, fzero, fzero))
    as [[[[r0 r1] r2] r3] ->]; [lia..|].
  cbn [mbind option_bind].
  apply mac_tail_defined; rewrite length_drop; lia.
Qed.

Lemma mac_short (a b : list spec_float) :
  (length a < 42)%nat -> mac a b CORRLEN = None.
Proof.
  intros Ha. rewrite mac_CORRLEN_unfold.
  destruct (decide (length a < 40)%nat) as [Hs|Hs].
  - by rewrite mac_simd_short by lia.
  - destruct (mac_simd a b 10 _) as [[[[r0 r1] r2] r3]|]; [|done].
    cbn [mbind option_bind].
    apply mac_tail_short. rewrite length_drop. lia.
Qed.

Lemma windows_length {A} (buffer : list A) (n : nat) :
  (n + 42 <= length buffer)%nat ->
  Forall (fun w => length w = 42%nat)
         (eas_demod_windows buffer (Z.of_nat n)).
Proof.
  intros Hn. rewrite eas_demod_windows_eq. apply Forall_forall.
  intros w Hw. apply list_elem_of_In, in_map_iff in Hw as (k & <- & Hk).
  apply in_seq in Hk. unfold win, CORRLEN.
  change (Z.to_nat 42) with 42%nat.
  rewrite length_take, length_drop. lia.
Qed.

Lemma chunk_windows_length {A} (S : list A) :
  Forall (fun w => length w = 42%nat) (fst (chunk_windows S))
  /\ (length (snd (chunk_windows S)) <= 42)%nat
  /\ (length (snd (chunk_windows S)) <= length S)%nat.
Proof.
  destruct (decide (length S <= 42)%nat) as [Hs|Hs].
  - rewrite chunk_windows_small by done. cbn. split; [constructor|lia].
  - rewrite chunk_windows_large by lia. cbn [fst snd]. split.
    + apply Forall_forall. intros w Hw.
      apply list_elem_of_In, in_map_iff in Hw as (k & <- & Hk).
      apply in_seq in Hk. unfold win, CORRLEN.
      change (Z.to_nat 42) with 42%nat.
      rewrite length_take, length_drop. lia.
    + rewrite length_drop. lia.
Qed.

Lemma main_windows_length (chunks : list (list Z)) :
  forall fbuf, Forall (fun w => length w = 42%nat)
                      (fst (main_windows chunks fbuf)).
Proof.
  induction chunks as [|c chunks IH]; intros fbuf; [constructor|].
  cbn [main_windows].
  destruct (chunk_windows_length (fill fbuf c)) as (Hw & _).
  destruct (chunk_windows (fill fbuf c)) as [w fb].
  specialize (IH fb). destruct (main_windows chunks fb) as [ws fb'].
  cbn [fst] in *. by apply Forall_app.
Qed.

(** X13: the correlator reads [CORRLEN] samples, and [main] always has
    them.  The discriminant of a window is defined when the window and
    the four reference tables hold at least [CORRLEN] = 42 values, and
    is an access outside the buffer when the window holds fewer; every
    window [main] hands to the demodulator, however the stream is cut
    into reads, holds exactly 42 samples. *)
Theorem correlator_stays_in_window (t : tone_tables)
        (chunks : list (list Z)) :
  (42 <= length (eascorr_mark_i t))%nat ->
  (42 <= length (eascorr_mark_q t))%nat ->
  (42 <= length (eascorr_space_i t))%nat ->
  (42 <= length (eascorr_space_q t))%nat ->
  (forall w, (42 <= length w)%nat -> exists f, discriminant t w = Some f)
  /\ (forall w, (length w < 42)%nat -> discriminant t w = None)
  /\ Forall (fun w => length w = 42%nat /\ exists f, discriminant t w = Some f)
            (fst (main_windows chunks [])).
Proof.
  intros H1 H2 H3 H4.
  assert (Hdef : forall w, (42 <= length w)%nat ->
                           exists f, discriminant t w = Some f).
  { intros w Hw. unfold discriminant.
    destruct (mac_defined w (eascorr_mark_i t)) as [mi ->]; [done..|].
    destruct (mac_defined w (eascorr_mark_q t)) as [mq ->]; [done..|].
    destruct (mac_defined w (eascorr_space_i t)) as [si ->]; [done..|].
    destruct (mac_defined w (eascorr_space_q t)) as [sq ->]; [done..|].
    by eexists. }
  split; [exact Hdef|]. split.
  - intros w Hw. unfold discriminant.
    rewrite (mac_short w (eascorr_mark_i t)) by done.
    reflexivity.
  - eapply Forall_impl; [apply main_windows_length|].
    intros w Hw. cbv beta in Hw. split; [done|]. apply Hdef. lia.
Qed.

Lemma correlator_stays_in_window_witness :
  (42 <= length (eascorr_mark_i flat_tables))%nat
  /\ (42 <= length (eascorr_mark_q flat_tables))%nat
  /\ (42 <= length (eascorr_space_i flat_tables))%nat
  /\ (42 <= length (eascorr_space_q flat_tables))%nat
  /\ (forall w, (42 <= length w)%nat ->
               exists f, discriminant flat_tables w = Some f)
  /\ (forall w, (length w < 42)%nat -> discriminant flat_tables w = None)
  /\ Forall (fun w => length w = 42%nat
                      /\ exists f, discriminant flat_tables w = Some f)
            (fst (main_windows two_reads [])).
Proof.
  assert (H : (42 <= 42)%nat) by lia.
  split; [exact H|]. split; [exact H|]. split; [exact H|]. split; [exact H|].
  exact (correlator_stays_in_window flat_tables two_reads H H H H).
Defined.

(** *** The sample buffer *)

Lemma fill_counts_bound (chunks : list (list Z)) :
  forall fbuf,
    (length fbuf <= 42)%nat ->
    Forall (fun c => Z.of_nat (length c) <= 8192) chunks ->
    Forall (fun n => n <= 8234) (fill_counts chunks fbuf).
Proof.
  induction chunks as [|c chunks IH]; intros fbuf Hf Hc; [constructor|].
  apply Forall_cons in Hc as [Hc Hcs]. cbn [fill_counts]. constructor.
  - cbv beta in Hc. unfold fill. rewrite length_app, length_map. lia.
  - apply IH; [|done]. by destruct (chunk_windows_length (fill fbuf c)) as (_ & ? & _).
Qed.

(** X14: the sample buffer never overflows.  [read] is given the 8192
    samples of [buffer]; when no read delivers more, [fbuf_cnt] never
    exceeds 8192 + 42 = 8234 of the 16384 floats of [fbuf]. *)
Theorem fbuf_never_overflows (chunks : list (list Z)) :
  Forall (fun c => Z.of_nat (length c) <= 8192) chunks ->
  Forall (fun n => n <= 8234 /\ n <= 16384) (fill_counts chunks []).
Proof.
  intros Hc. eapply Forall_impl.
  - apply (fill_counts_bound chunks []); [simpl; lia|done].
  - intros n Hn. cbv beta in *. lia.
Qed.

Lemma fbuf_never_overflows_witness :
  Forall (fun c => Z.of_nat (length c) <= 8192) two_reads
  /\ Forall (fun n => n <= 8234 /\ n <= 16384) (fill_counts two_reads []).
Proof.
  assert (H : Forall (fun c => Z.of_nat (length c) <= 8192) two_reads)
    by (repeat constructor; vm_compute; discriminate).
  split; [exact H|]. exact (fbuf_never_overflows two_reads H).
Defined.

(** X15: the conversion of line 154 is exact.  For every 16-bit
    sample the float handed to the demodulator is the sample divided by
    32768, without rounding. *)
Theorem pcm_to_float_exact (sp : Z) :
  -32768 <= sp <= 32767 -> is_ratio (pcm_to_float sp) sp 15 = true.
Proof.
  intros Hsp.
  assert (H : forall_uint16
                (fun z => is_ratio (pcm_to_float (z - 32768)) (z - 32768) 15)
              = true) by (vm_compute; reflexivity).
  pose proof (forall_uint16_spec _ H (sp + 32768) ltac:(lia)) as Hz.
  cbv beta in Hz. by replace (sp + 32768 - 32768) with sp in Hz by lia.
Qed.

Lemma pcm_to_float_exact_witness :
  -32768 <= -12345 <= 32767
  /\ is_ratio (pcm_to_float (-12345)) (-12345) 15 = true.
Proof.
  assert (H : -32768 <= -12345 <= 32767) by lia.
  split; [exact H|]. exact (pcm_to_float_exact (-12345) H).
Defined.

(** X16: a stream of at most [CORRLEN] samples is never demodulated.
    While the samples read so far, with those kept in the buffer, are
    at most 42, [eas_demod] is not called: nothing is printed, the
    demodulator is untouched, and the samples stay in the buffer. *)
Theorem short_stream_is_buffered (t : tone_tables) (chunks : list (list Z))
        (fbuf : list spec_float) (st : demod_state) :
  (length fbuf + length (concat chunks) <= 42)%nat ->
  main_loop t chunks fbuf st
  = Some (fbuf ++ map pcm_to_float (concat chunks), st, []).
Proof.
  revert fbuf. induction chunks as [|c chunks IH]; intros fbuf Hlen.
  - cbn. by rewrite app_nil_r.
  - cbn [main_loop concat] in *. rewrite length_app in Hlen.
    unfold CORRLEN, fill.
    destruct (42 <? Z.of_nat (length (fbuf ++ map pcm_to_float c))) eqn:E;
      zbool.
    { rewrite length_app, length_map in E. lia. }
    rewrite IH by (rewrite length_app, length_map; lia).
    by rewrite map_app, app_assoc.
Qed.

Lemma short_stream_is_buffered_witness :
  (length (@nil spec_float) + length (concat [[1; 2]; [3]]) <= 42)%nat
  /\ main_loop flat_tables [[1; 2]; [3]] [] demod_init
     = Some ([] ++ map pcm_to_float (concat [[1; 2]; [3]]), demod_init, []).
Proof.
  assert (H : (length (@nil spec_float) + length (concat [[1; 2]; [3]])
               <= 42)%nat) by (simpl; lia).
  split; [exact H|].
  exact (short_stream_is_buffered flat_tables [[1; 2]; [3]] [] demod_init H).
Defined.

End SampleFacts.

Module SilenceFacts.
Import Frame Fp Demod Main.
Import DemodFacts AssemblerFacts SampleFacts.













End SilenceFacts.

(** ** The encoder *)

Module EncoderFacts.
Import CStr CStrFacts Fp Encoder.

Lemma generate_byte_phases_lookup (data : Z) (b : nat) :
  (b < 8)%nat ->
  generate_byte_phases data !! b
  = Some (bit_phases (phase_inc (bit_of data (Z.of_nat b)))
                     (Z.to_nat CORRLEN) fzero).
Proof.
  intros Hb. unfold generate_byte_phases.
  do 8 (destruct b as [|b]; [reflexivity|]). lia.
Qed.

Lemma bit_phases_succ (inc : spec_float) (n : nat) :
  forall (f : spec_float) (i : nat),
    (i + 1 < n)%nat ->
    exists x, bit_phases inc n f !! i = Some x
              /\ bit_phases inc n f !! (i + 1)%nat = Some (fadd x inc).
Proof.
  induction n as [|n IH]; intros f i Hi; [lia|].
  destruct i as [|i]; simpl.
  - exists f. split; [done|]. destruct n as [|n]; [lia|]. done.
  - apply IH. lia.
Qed.

(** C5 as stated fails: in the byte 0xAB the phase at the first sample
    of bit 1 is zero, while the last sample of bit 0 was taken at the
    phase reached after 41 increments. *)
Lemma continuous_phase_counterexample :
  phase_at 171 0 41 = Some (S754_finite false 12760768 (-19))
  /\ phase_at 171 1 0 = Some (S754_zero false)
  /\ ~ continuous_phase 171.
Proof.
  split; [vm_compute; reflexivity|]. split; [vm_compute; reflexivity|].
  intros H.
  specialize (H 0%nat (S754_finite false 12760768 (-19)) (S754_zero false)
                ltac:(lia) ltac:(vm_compute; reflexivity)
                ltac:(vm_compute; reflexivity)).
  vm_compute in H. discriminate H.
Qed.

(** C5, amended: within each of the eight bits of a byte the phase
    starts from zero and is advanced, from each sample to the next, by
    the increment of the tone of that bit. *)
Theorem phase_restarts_each_bit (data : Z) (b : nat) :
  (b < 8)%nat ->
  phase_at data b 0 = Some fzero
  /\ forall i : nat,
       (i + 1 < Z.to_nat CORRLEN)%nat ->
       exists f, phase_at data b i = Some f
                 /\ phase_at data b (i + 1)
                    = Some (fadd f (phase_inc (bit_of data (Z.of_nat b)))).
Proof.
  intros Hb.
  assert (Hat : forall i,
            phase_at data b i
            = bit_phases (phase_inc (bit_of data (Z.of_nat b)))
                         (Z.to_nat CORRLEN) fzero !! i).
  { intros i. unfold phase_at.
    rewrite generate_byte_phases_lookup by done. reflexivity. }
  split.
  - rewrite Hat. reflexivity.
  - intros i Hi. rewrite !Hat. by apply bit_phases_succ.
Qed.

Lemma phase_restarts_each_bit_witness :
  (1 < 8)%nat
  /\ phase_at 171 1 0 = Some fzero
  /\ forall i : nat,
       (i + 1 < Z.to_nat CORRLEN)%nat ->
       exists f, phase_at 171 1 i = Some f
                 /\ phase_at 171 1 (i + 1)
                    = Some (fadd f (phase_inc (bit_of 171 (Z.of_nat 1)))).
Proof. split; [lia|]. apply (phase_restarts_each_bit 171 1). lia. Defined.

(** *** The frame buffer *)

Lemma cstr_no_nul (l : list Z) :
  Forall (fun c => c <> 0) l -> cstr l = None.
Proof.
  induction 1 as [|c l Hc _ IH]; simpl; [done|].
  destruct (c =? 0) eqn:E; zbool; [done|]. by rewrite IH.
Qed.

Lemma strlen_text (text rest : list Z) :
  Forall (fun c => c <> 0) text ->
  strlen (text ++ 0 :: rest) = Some (Z.of_nat (length text)).
Proof. intros H. unfold strlen. by rewrite cstr_app. Qed.

#[local] Arguments replicate : simpl never.
#[local] Arguments Z.to_nat : simpl never.

Section WithSin.
Variable pcm_of_phase : spec_float -> Z.

Lemma render_text (text rest : list Z) :
  Forall (fun c => c <> 0) text ->
  render pcm_of_phase (text ++ 0 :: rest)
  = Some (map (generate_byte pcm_of_phase) text).
Proof.
  intros H. unfold render. rewrite strlen_text by done. simpl.
  rewrite Nat2Z.id. by rewrite take_app_length.
Qed.

Lemma repeats_text (text rest : list Z) (rep : nat) :
  Forall (fun c => c <> 0) text ->
  repeats pcm_of_phase rep (text ++ 0 :: rest)
  = Some (concat (replicate rep
                    (map (generate_byte pcm_of_phase) text ++ [silence]))).
Proof.
  intros H. induction rep as [|rep IH]; [done|].
  cbn [repeats]. rewrite render_text by done. rewrite IH. simpl.
  f_equal. rewrite <- app_assoc. reflexivity.
Qed.

Lemma repeats_no_nul (l : list Z) (rep : nat) :
  Forall (fun c => c <> 0) l ->
  repeats pcm_of_phase (Datatypes.S rep) l = None.
Proof.
  intros H. cbn [repeats]. unfold render, strlen.
  by rewrite cstr_no_nul.
Qed.

#[local] Arguments repeats : simpl never.

(** Lines 60-63 when the file is open. *)
Lemma encode_open (message : list Z) :
  encode pcm_of_phase true message
  = n ← strlen message;
    fm3 ← memcpy (171 :: 171 :: replicate 269 0) 2 message n;
    hdr ← repeats pcm_of_phase 3 fm3;
    ftr ← repeats pcm_of_phase 3 footer;
    Some (hdr ++ replicate 4 silence ++ ftr).
Proof. reflexivity. Qed.

(** The frame buffer after lines 60-62. *)
Lemma frame_buffer_length :
  length (171 :: 171 :: replicate 269 0) = 271%nat.
Proof. reflexivity. Qed.

(** The copy of line 63 into the frame buffer, when it fits. *)
Lemma memcpy_frame (text : list Z) :
  (length text <= 269)%nat ->
  memcpy (171 :: 171 :: replicate 269 0) 2 (text ++ [0])
         (Z.of_nat (length text))
  = Some (171 :: 171 :: text ++ replicate (269 - length text) 0).
Proof.
  intros Hlen.
  rewrite memcpy_Some;
    rewrite ?frame_buffer_length, ?length_app; simpl length; try lia.
  rewrite Nat2Z.id. rewrite take_app_length.
  change (take (Z.to_nat 2) (171 :: 171 :: replicate 269 0))
    with [171; 171].
  replace (Z.to_nat (2 + Z.of_nat (length text)))
    with (2 + length text)%nat by lia.
  change (drop (2 + length text) (171 :: 171 :: replicate 269 0))
    with (drop (length text) (replicate 269 0)).
  rewrite drop_replicate. reflexivity.
Qed.

Lemma memcpy_frame_overrun (text : list Z) :
  (269 < length text)%nat ->
  memcpy (171 :: 171 :: replicate 269 0) 2 (text ++ [0])
         (Z.of_nat (length text))
  = None.
Proof.
  intros Hlen. apply memcpy_overrun. rewrite frame_buffer_length. lia.
Qed.

Lemma repeats_footer :
  repeats pcm_of_phase 3 footer
  = Some (concat (replicate 3
                    (map (generate_byte pcm_of_phase)
                         [171; 171; 78; 78; 78; 78] ++ [silence]))).
Proof.
  apply (repeats_text [171; 171; 78; 78; 78; 78] [] 3).
  repeat constructor; lia.
Qed.

(** A message that fits is framed whole. *)
Lemma encode_fits (text : list Z) :
  Forall (fun c => c <> 0) text -> (length text <= 268)%nat ->
  encode pcm_of_phase true (text ++ [0])
  = Some (concat (replicate 3
                    (map (generate_byte pcm_of_phase) (171 :: 171 :: text)
                       ++ [silence]))
            ++ replicate 4 silence
            ++ concat (replicate 3
                         (map (generate_byte pcm_of_phase)
                              [171; 171; 78; 78; 78; 78]
                            ++ [silence]))).
Proof.
  intros Hnz Hlen. rewrite encode_open, repeats_footer.
  rewrite strlen_text by done. simpl.
  rewrite memcpy_frame by lia. simpl.
  replace (269 - length text)%nat
    with (Datatypes.S (268 - length text)) by lia.
  change (replicate (Datatypes.S (268 - length text)) 0)
    with (0 :: replicate (268 - length text) 0).
  change (171 :: 171 :: text ++ 0 :: replicate (268 - length text) 0)
    with ((171 :: 171 :: text) ++ 0 :: replicate (268 - length text) 0).
  rewrite repeats_text by (repeat constructor; try lia; done).
  reflexivity.
Qed.

(** A message of more than 268 bytes leaves the frame buffer without
    terminator (269 bytes) or is copied past its end (more). *)
Lemma encode_too_long (text : list Z) :
  Forall (fun c => c <> 0) text -> (268 < length text)%nat ->
  encode pcm_of_phase true (text ++ [0]) = None.
Proof.
  intros Hnz Hlen. rewrite encode_open. rewrite strlen_text by done. simpl.
  destruct (decide (length text = 269%nat)) as [E269|Hne].
  - rewrite memcpy_frame by lia. simpl. rewrite E269.
    change (replicate (269 - 269) 0) with (@nil Z). rewrite app_nil_r.
    rewrite repeats_no_nul by (repeat constructor; try lia; done).
    reflexivity.
  - rewrite memcpy_frame_overrun by lia. reflexivity.
Qed.

(** C8, amended: [encode] makes no length check and reports no error.
    A message of at most 268 bytes is framed whole: the two preamble
    bytes and every byte of the message are rendered, three times, each
    followed by a second of silence, before the four seconds of silence
    and the three footers.  For a longer message the copy into the
    271-byte frame buffer leaves it without terminator or runs past its
    end, which is undefined behaviour, not a refusal. *)
Theorem encode_has_no_length_check (text : list Z) :
  Forall (fun c => c <> 0) text ->
  ((length text <= 268)%nat ->
   encode pcm_of_phase true (text ++ [0])
   = Some (concat (replicate 3
                     (map (generate_byte pcm_of_phase) (171 :: 171 :: text)
                        ++ [silence]))
             ++ replicate 4 silence
             ++ concat (replicate 3
                          (map (generate_byte pcm_of_phase)
                               [171; 171; 78; 78; 78; 78]
                             ++ [silence]))))
  /\ ((268 < length text)%nat ->
      encode pcm_of_phase true (text ++ [0]) = None).
Proof.
  intros Hnz. split; intros Hlen.
  - by apply encode_fits.
  - by apply encode_too_long.
Qed.

End WithSin.

(** C8 as stated fails: with a message of 269 bytes the copy fills the
    frame buffer to its last byte, and the loop condition of line 75
    looks for a terminator the buffer does not hold; the call is not a
    refusal, whatever [sin] computes. *)
Lemma refuses_counterexample :
  ~ exists pcm_of_phase, refuses pcm_of_phase message_269.
Proof.
  intros [pcm H]. unfold refuses, message_269 in H.
  rewrite (encode_too_long pcm (replicate 269 65)) in H.
  - discriminate H.
  - apply Forall_replicate. lia.
  - rewrite length_replicate. lia.
Qed.

Lemma encode_has_no_length_check_witness :
  Forall (fun c => c <> 0) [90; 67; 90; 67; 65; 45]
  /\ (length [90; 67; 90; 67; 65; 45] <= 268)%nat
  /\ encode (fun _ => 0) true ([90; 67; 90; 67; 65; 45] ++ [0])
     = Some (concat (replicate 3
                       (map (generate_byte (fun _ => 0))
                            (171 :: 171 :: [90; 67; 90; 67; 65; 45])
                          ++ [silence]))
               ++ replicate 4 silence
               ++ concat (replicate 3
                            (map (generate_byte (fun _ => 0))
                                 [171; 171; 78; 78; 78; 78]
                               ++ [silence]))).
Proof.
  assert (Hnz : Forall (fun c => c <> 0) [90; 67; 90; 67; 65; 45])
    by (repeat constructor; lia).
  assert (Hlen : (length [90; 67; 90; 67; 65; 45] <= 268)%nat)
    by (simpl; lia).
  split; [exact Hnz|]. split; [exact Hlen|].
  exact (proj1 (encode_has_no_length_check (fun _ => 0)
                  [90; 67; 90; 67; 65; 45] Hnz) Hlen).
Defined.

End EncoderFacts.

Module BitOrderFacts.
Import Frame Demod Encoder Link DemodFacts AssemblerFacts.

Lemma shift_kar_sign (kar d : Z) (bit : Z) :
  (0 <=? d) = negb (bit =? 0) ->
  shift_kar kar d = shift_kar kar (if bit =? 0 then -1 else 0).
Proof.
  intros H. unfold shift_kar. rewrite H. by destruct (bit =? 0).
Qed.

Lemma reassembled_data (data kar : Z) :
  0 <= data < 256 -> 0 <= kar < 256 -> reassembled data kar = data.
Proof.
  intros Hd Hk.
  assert (H : forall_uint16
                (fun z => reassembled (z / 256) (z mod 256) =? z / 256)
              = true) by (vm_compute; reflexivity).
  pose proof (forall_uint16_spec _ H (256 * data + kar) ltac:(lia)) as Hz.
  cbv beta in Hz. apply Z.eqb_eq in Hz.
  replace ((256 * data + kar) / 256) with data in Hz.
  2:{ rewrite Z.mul_comm, Z.div_add_l by lia. rewrite Z.div_small; lia. }
  replace ((256 * data + kar) mod 256) with kar in Hz.
  2:{ rewrite Z.mul_comm, Z.add_comm, Z.mod_add by lia.
      by rewrite Z.mod_small. }
  done.
Qed.

(** X11: the bits are put together in the order the encoder sends them.
    Each bit period shifts the byte right and enters the decided bit at
    the top (lines 404-408); when the eight decisions are the bits of
    a byte as [generate_byte] sends them, bit 0 first, the byte
    assembled is that byte, whatever was in [current_kar] before. *)
Theorem byte_assembled_lsb_first (data kar : Z) (dcds : list Z) :
  0 <= data < 256 -> 0 <= kar < 256 -> length dcds = 8%nat ->
  (forall (b : nat) (d : Z),
     dcds !! b = Some d -> (0 <=? d) = negb (bit_of data (Z.of_nat b) =? 0)) ->
  (forall (st st' : demod_state) (evs : list event),
     bit_period st = Some (st', evs) ->
     current_kar st' = shift_kar (current_kar st) (dcd_integrator st))
  /\ fold_left shift_kar dcds kar = data.
Proof.
  intros Hd Hk Hlen Hbits. split.
  { intros st st' evs H. by destruct (bit_period_kar _ _ _ H). }
  destruct dcds as [|d0 [|d1 [|d2 [|d3 [|d4 [|d5 [|d6 [|d7 [|? ?]]]]]]]]];
    try discriminate Hlen.
  transitivity (reassembled data kar); [|by apply reassembled_data].
  unfold reassembled. cbn [fold_left].
  rewrite (shift_kar_sign _ d0 _ (Hbits 0%nat d0 eq_refl)).
  rewrite (shift_kar_sign _ d1 _ (Hbits 1%nat d1 eq_refl)).
  rewrite (shift_kar_sign _ d2 _ (Hbits 2%nat d2 eq_refl)).
  rewrite (shift_kar_sign _ d3 _ (Hbits 3%nat d3 eq_refl)).
  rewrite (shift_kar_sign _ d4 _ (Hbits 4%nat d4 eq_refl)).
  rewrite (shift_kar_sign _ d5 _ (Hbits 5%nat d5 eq_refl)).
  rewrite (shift_kar_sign _ d6 _ (Hbits 6%nat d6 eq_refl)).
  rewrite (shift_kar_sign _ d7 _ (Hbits 7%nat d7 eq_refl)).
  reflexivity.
Qed.

Lemma byte_assembled_lsb_first_witness :
  0 <= 171 < 256 /\ 0 <= 0 < 256
  /\ length [0; 0; -1; 0; -1; 0; -1; 0] = 8%nat
  /\ (forall (b : nat) (d : Z),
        [0; 0; -1; 0; -1; 0; -1; 0] !! b = Some d ->
        (0 <=? d) = negb (bit_of 171 (Z.of_nat b) =? 0))
  /\ (forall (st st' : demod_state) (evs : list event),
        bit_period st = Some (st', evs) ->
        current_kar st' = shift_kar (current_kar st) (dcd_integrator st))
  /\ fold_left shift_kar [0; 0; -1; 0; -1; 0; -1; 0] 0 = 171.
Proof.
  assert (H1 : 0 <= 171 < 256) by lia.
  assert (H2 : 0 <= 0 < 256) by lia.
  assert (H3 : forall (b : nat) (d : Z),
            [0; 0; -1; 0; -1; 0; -1; 0] !! b = Some d ->
            (0 <=? d) = negb (bit_of 171 (Z.of_nat b) =? 0)).
  { intros b d.
    do 8 (destruct b as [|b]; [intros [= <-]; reflexivity|]).
    discriminate. }
  split; [exact H1|]. split; [exact H2|]. split; [reflexivity|].
  split; [exact H3|].
  exact (byte_assembled_lsb_first 171 0 [0; 0; -1; 0; -1; 0; -1; 0]
           H1 H2 eq_refl H3).
Defined.

End BitOrderFacts.

Module ToneFacts.
Import CStr CStrFacts Fp Demod Encoder EncoderFacts.

Lemma table_phases_bit_phases (inc : spec_float) (n : nat) :
  forall f, table_phases inc n f = bit_phases inc n f.
Proof. induction n as [|n IH]; intros f; [done|]. cbn. by rewrite IH. Qed.

Lemma bit_of_cases (data b : Z) : bit_of data b = 0 \/ bit_of data b = 1.
Proof.
  unfold bit_of.
  assert (E : Z.land (Z.shiftr data b) 1 = Z.shiftr data b mod 2)
    by exact (Z.land_ones (Z.shiftr data b) 1 ltac:(lia)).
  rewrite E.
  pose proof (Z.mod_pos_bound (Z.shiftr data b) 2 ltac:(lia)). lia.
Qed.

(** X17: the reference tones are sampled where the encoder samples a
    bit.  The tables [eas_init] fills hold [CORRLEN] = 42 values each,
    and entry [i] of the mark (space) tables is the cosine and the sine
    of exactly the phase at which [generate_byte] takes sample [i] of a
    one (zero) bit. *)
Theorem tables_match_encoder (cosf sinf : spec_float -> spec_float)
        (data : Z) (b i : nat) :
  (b < 8)%nat -> (i < 42)%nat ->
  let t := eas_init cosf sinf in
  length (eascorr_mark_i t) = 42%nat /\ length (eascorr_mark_q t) = 42%nat
  /\ length (eascorr_space_i t) = 42%nat
  /\ length (eascorr_space_q t) = 42%nat
  /\ exists f,
       phase_at data b i = Some f
       /\ (if bit_of data (Z.of_nat b) =? 0
           then eascorr_space_i t !! i = Some (cosf f)
                /\ eascorr_space_q t !! i = Some (sinf f)
           else eascorr_mark_i t !! i = Some (cosf f)
                /\ eascorr_mark_q t !! i = Some (sinf f)).
Proof.
  intros Hb Hi. cbv zeta.
  split; [reflexivity|]. split; [reflexivity|]. split; [reflexivity|].
  split; [reflexivity|].
  unfold phase_at. rewrite generate_byte_phases_lookup by done.
  cbn [mbind option_bind].
  assert (Hlen : forall inc,
            length (bit_phases inc (Z.to_nat CORRLEN) fzero) = 42%nat).
  { intros inc. rewrite <- table_phases_bit_phases.
    change (Z.to_nat CORRLEN) with 42%nat.
    generalize fzero. generalize 42%nat.
    induction n as [|n IH]; intros f; [done|]. cbn. by rewrite IH. }
  destruct (lookup_lt_is_Some_2
              (bit_phases (phase_inc (bit_of data (Z.of_nat b)))
                          (Z.to_nat CORRLEN) fzero) i) as [f Hf].
  { rewrite Hlen. lia. }
  exists f. split; [exact Hf|].
  unfold eas_init. cbn [eascorr_mark_i eascorr_mark_q eascorr_space_i
                        eascorr_space_q].
  rewrite !list_lookup_fmap, !table_phases_bit_phases.
  destruct (bit_of_cases data (Z.of_nat b)) as [E|E]; rewrite E in *.
  - change (0 =? 0) with true. cbv iota.
    change (table_inc FREQ_SPACE) with (phase_inc 0).
    by rewrite ?table_phases_bit_phases, Hf.
  - change (1 =? 0) with false. cbv iota.
    change (table_inc FREQ_MARK) with (phase_inc 1).
    by rewrite ?table_phases_bit_phases, Hf.
Qed.

Lemma tables_match_encoder_witness :
  (0 < 8)%nat /\ (41 < 42)%nat
  /\ let t := eas_init (fun x => x) (fun x => x) in
     length (eascorr_mark_i t) = 42%nat /\ length (eascorr_mark_q t) = 42%nat
     /\ length (eascorr_space_i t) = 42%nat
     /\ length (eascorr_space_q t) = 42%nat
     /\ exists f,
          phase_at 171 0 41 = Some f
          /\ (if bit_of 171 (Z.of_nat 0) =? 0
              then eascorr_space_i t !! 41%nat = Some f
                   /\ eascorr_space_q t !! 41%nat = Some f
              else eascorr_mark_i t !! 41%nat = Some f
                   /\ eascorr_mark_q t !! 41%nat = Some f).
Proof.
  assert (Hb : (0 < 8)%nat) by lia. assert (Hi : (41 < 42)%nat) by lia.
  split; [exact Hb|]. split; [exact Hi|].
  exact (tables_match_encoder (fun x => x) (fun x => x) 171 0 41 Hb Hi).
Defined.

(** *** The size of what is written *)

Lemma bit_phases_length (inc : spec_float) (n : nat) :
  forall f, length (bit_phases inc n f) = n.
Proof. induction n as [|n IH]; intros f; [done|]. cbn. by rewrite IH. Qed.

Section WithSin.
Variable pcm_of_phase : spec_float -> Z.

Lemma generate_byte_length (data : Z) :
  length (generate_byte pcm_of_phase data) = 336%nat.
Proof.
  unfold generate_byte, generate_byte_phases.
  rewrite length_map. cbn [map concat].
  rewrite !length_app, !bit_phases_length. reflexivity.
Qed.

Lemma concat_blocks_length (bytes : list Z) :
  length (concat (map (generate_byte pcm_of_phase) bytes))
  = (336 * length bytes)%nat.
Proof.
  induction bytes as [|b bytes IH]; [done|].
  cbn [map concat length]. rewrite length_app, generate_byte_length, IH. lia.
Qed.

Lemma silence_length : Z.of_nat (length silence) = 22050.
Proof. unfold silence. rewrite length_replicate. reflexivity. Qed.

Lemma burst_length (bytes : list Z) :
  Z.of_nat
    (length (concat (concat (replicate 3
       (map (generate_byte pcm_of_phase) bytes ++ [silence])))))
  = 3 * (336 * Z.of_nat (length bytes) + 22050).
Proof.
  cbn [replicate concat]. rewrite app_nil_r.
  rewrite !concat_app, !length_app. cbn [concat]. rewrite !app_nil_r.
  rewrite concat_blocks_length.
  pose proof silence_length. lia.
Qed.

(** X18: the size of the recording.  [generate_byte] fills the 336
    samples of its buffer, 42 for each bit.  For a message of [n]
    bytes, [n] at most 268, [encode] writes 1008 * n + 228564 samples:
    three bursts of [n + 2] bytes and three of 6, each byte 336 samples,
    and ten seconds of silence. *)
Theorem encode_length (text : list Z) :
  Forall (fun c => c <> 0) text -> (length text <= 268)%nat ->
  (forall data, Z.of_nat (length (generate_byte pcm_of_phase data))
                = 8 * CORRLEN)
  /\ exists blocks,
       encode pcm_of_phase true (text ++ [0]) = Some blocks
       /\ Z.of_nat (length (concat blocks))
          = 1008 * Z.of_nat (length text) + 228564.
Proof.
  intros Hnz Hlen. split.
  { intros data. by rewrite generate_byte_length. }
  rewrite encode_fits by done. eexists. split; [reflexivity|].
  rewrite !concat_app, !length_app, !Nat2Z.inj_add, !burst_length.
  cbn [replicate concat length]. rewrite !length_app.
  pose proof silence_length. cbn [length]. lia.
Qed.

End WithSin.

Lemma encode_length_witness :
  Forall (fun c => c <> 0) [90; 67; 90; 67; 65; 45]
  /\ (length [90; 67; 90; 67; 65; 45] <= 268)%nat
  /\ (forall data, Z.of_nat (length (generate_byte (fun _ => 0) data))
                   = 8 * CORRLEN)
  /\ exists blocks,
       encode (fun _ => 0) true ([90; 67; 90; 67; 65; 45] ++ [0])
       = Some blocks
       /\ Z.of_nat (length (concat blocks))
          = 1008 * Z.of_nat (length [90; 67; 90; 67; 65; 45]) + 228564.
Proof.
  assert (Hnz : Forall (fun c => c <> 0) [90; 67; 90; 67; 65; 45])
    by (repeat constructor; lia).
  assert (Hlen : (length [90; 67; 90; 67; 65; 45] <= 268)%nat)
    by (simpl; lia).
  split; [exact Hnz|]. split; [exact Hlen|].
  exact (encode_length (fun _ => 0) [90; 67; 90; 67; 65; 45] Hnz Hlen).
Defined.

End ToneFacts.

Module AssemblyFacts.
Import CStr Frame Fp Demod Encoder Link.
Import FrameFacts ParserFacts DemodFacts AssemblerFacts BitOrderFacts.

Lemma bit_period_unfold (sr sp k bc d sy : Z) (s : l2_state) :
  bit_period (mk_demod sr sp k bc d sy s)
  = let k' := shift_kar k d in
    if (k' =? PREAMBLE)
       && negb (state_eqb (frame_state s) EAS_L2_READING_MESSAGE)
    then Some (mk_demod sr 1 k' 0 d 1 s, [])
    else if negb (sy =? 0) then
      if (bc + 1) mod 256 =? 8 then
        '(sy', s', evs) ← byte_complete k' sy s;
        Some (mk_demod sr 1 k' 0 d sy' s', evs)
      else Some (mk_demod sr 1 k' ((bc + 1) mod 256) d sy s, [])
    else Some (mk_demod sr 1 k' bc d sy s, []).
Proof. reflexivity. Qed.

Lemma step_sync (sr sp k bc d sy : Z) (s : l2_state) :
  shift_kar k d = PREAMBLE ->
  frame_state s <> EAS_L2_READING_MESSAGE ->
  bit_period (mk_demod sr sp k bc d sy s)
  = Some (mk_demod sr 1 PREAMBLE 0 d 1 s, []).
Proof.
  intros Hk Hfs. rewrite bit_period_unfold. cbv zeta. rewrite Hk.
  change (PREAMBLE =? PREAMBLE) with true.
  by destruct (frame_state s).
Qed.

Lemma step_count (sr sp k bc d sy : Z) (s : l2_state) :
  resync_off (shift_kar k d) s -> sy <> 0 -> 0 <= bc < 7 ->
  bit_period (mk_demod sr sp k bc d sy s)
  = Some (mk_demod sr 1 (shift_kar k d) (bc + 1) d sy s, []).
Proof.
  intros Hoff Hsy Hbc. rewrite bit_period_unfold. cbv zeta.
  unfold resync_off in Hoff. rewrite Hoff.
  destruct (sy =? 0) eqn:E; zbool; [lia|]. cbn [negb].
  rewrite Z.mod_small by lia.
  destruct (bc + 1 =? 8) eqn:E8; zbool; [lia|]. reflexivity.
Qed.

Lemma step_byte (sr sp k d sy : Z) (s : l2_state) :
  resync_off (shift_kar k d) s -> sy <> 0 ->
  bit_period (mk_demod sr sp k 7 d sy s)
  = '(sy', s', evs) ← byte_complete (shift_kar k d) sy s;
    Some (mk_demod sr 1 (shift_kar k d) 0 d sy' s', evs).
Proof.
  intros Hoff Hsy. rewrite bit_period_unfold. cbv zeta.
  unfold resync_off in Hoff. rewrite Hoff.
  destruct (sy =? 0) eqn:E; zbool; [lia|]. reflexivity.
Qed.

Lemma step_unsynced (sr sp k bc d : Z) (s : l2_state) :
  resync_off (shift_kar k d) s ->
  bit_period (mk_demod sr sp k bc d 0 s)
  = Some (mk_demod sr 1 (shift_kar k d) bc d 0 s, []).
Proof.
  intros Hoff. rewrite bit_period_unfold. cbv zeta.
  unfold resync_off in Hoff. by rewrite Hoff.
Qed.

Lemma bit_periods_cons (d : Z) (ds : list Z) (sr sp k bc d0 sy : Z)
      (s : l2_state) :
  bit_periods (d :: ds) (mk_demod sr sp k bc d0 sy s)
  = '(st1, e1) ← bit_period (mk_demod sr sp k bc d sy s);
    '(st2, e2) ← bit_periods ds st1;
    Some (st2, e1 ++ e2).
Proof. reflexivity. Qed.

Lemma bit_periods_app (ds1 ds2 : list Z) : forall st,
  bit_periods (ds1 ++ ds2) st
  = '(st1, e1) ← bit_periods ds1 st;
    '(st2, e2) ← bit_periods ds2 st1;
    Some (st2, e1 ++ e2).
Proof.
  induction ds1 as [|d ds1 IH]; intros st.
  - cbn [app bit_periods]. cbn.
    destruct (bit_periods ds2 st) as [[st2 e2]|]; done.
  - cbn [app bit_periods].
    destruct (bit_period (with_dcd st d)) as [[st1 e1]|]; [|done]. cbn.
    rewrite IH.
    destruct (bit_periods ds1 st1) as [[st2 e2]|]; [|done]. cbn.
    destruct (bit_periods ds2 st2) as [[st3 e3]|]; [|done]. cbn.
    by rewrite app_assoc.
Qed.

Lemma decides_sent_bits (b : Z) (dcds : list Z) :
  decides dcds (sent_bits b) ->
  exists d0 d1 d2 d3 d4 d5 d6 d7,
    dcds = [d0; d1; d2; d3; d4; d5; d6; d7]
    /\ (0 <=? d0) = negb (bit_of b 0 =? 0)
    /\ (0 <=? d1) = negb (bit_of b 1 =? 0)
    /\ (0 <=? d2) = negb (bit_of b 2 =? 0)
    /\ (0 <=? d3) = negb (bit_of b 3 =? 0)
    /\ (0 <=? d4) = negb (bit_of b 4 =? 0)
    /\ (0 <=? d5) = negb (bit_of b 5 =? 0)
    /\ (0 <=? d6) = negb (bit_of b 6 =? 0)
    /\ (0 <=? d7) = negb (bit_of b 7 =? 0).
Proof.
  unfold decides, sent_bits. cbn [map]. intros H.
  apply Forall2_cons_inv_r in H as (d0 & l0 & H0 & H & ->).
  apply Forall2_cons_inv_r in H as (d1 & l1 & H1 & H & ->).
  apply Forall2_cons_inv_r in H as (d2 & l2 & H2 & H & ->).
  apply Forall2_cons_inv_r in H as (d3 & l3 & H3 & H & ->).
  apply Forall2_cons_inv_r in H as (d4 & l4 & H4 & H & ->).
  apply Forall2_cons_inv_r in H as (d5 & l5 & H5 & H & ->).
  apply Forall2_cons_inv_r in H as (d6 & l6 & H6 & H & ->).
  apply Forall2_cons_inv_r in H as (d7 & l7 & H7 & H & ->).
  apply Forall2_nil_inv_r in H as ->.
  by exists d0, d1, d2, d3, d4, d5, d6, d7.
Qed.

Lemma resync_off_reading (k : Z) (s : l2_state) :
  frame_state s = EAS_L2_READING_MESSAGE -> resync_off k s.
Proof. intros H. unfold resync_off. rewrite H. apply andb_false_r. Qed.

Lemma resync_off_other (k : Z) (s : l2_state) :
  negb (k =? PREAMBLE) = true -> resync_off k s.
Proof.
  intros H. unfold resync_off. by destruct (k =? PREAMBLE).
Qed.

(** Eight bit periods from a byte boundary: the byte is assembled and
    handed over (lines 419-437), unless one of its bits completes a
    preamble while no message is read. *)
Lemma byte_received (b prev : Z) (dcds : list Z) (sr sp d0 : Z)
      (s : l2_state) :
  0 <= prev < 256 -> 0 <= b < 256 -> decides dcds (sent_bits b) ->
  frame_state s = EAS_L2_READING_MESSAGE \/ no_resync prev b = true ->
  bit_periods dcds (mk_demod sr sp prev 0 d0 1 s)
  = '(sy', s', evs) ← byte_complete b 1 s;
    Some (mk_demod sr 1 b 0 (default d0 (last dcds)) sy' s', evs).
Proof.
  intros Hprev Hb Hdec Hres.
  destruct (decides_sent_bits b dcds Hdec)
    as (d1 & d2 & d3 & d4 & d5 & d6 & d7 & d8 & -> & H1 & H2 & H3 & H4
        & H5 & H6 & H7 & H8).
  set (c := fun i : Z => if bit_of b i =? 0 then -1 else 0).
  set (K1 := shift_kar prev (c 0)).
  set (K2 := shift_kar K1 (c 1)). set (K3 := shift_kar K2 (c 2)).
  set (K4 := shift_kar K3 (c 3)). set (K5 := shift_kar K4 (c 4)).
  set (K6 := shift_kar K5 (c 5)). set (K7 := shift_kar K6 (c 6)).
  set (K8 := shift_kar K7 (c 7)).
  assert (E8 : K8 = b) by (apply (reassembled_data b prev); done).
  assert (Hoff : resync_off K1 s /\ resync_off K2 s /\ resync_off K3 s
                 /\ resync_off K4 s /\ resync_off K5 s /\ resync_off K6 s
                 /\ resync_off K7 s /\ resync_off K8 s).
  { destruct Hres as [Hrd|Hno].
    - repeat split; by apply resync_off_reading.
    - unfold no_resync in Hno. cbn [forallb] in Hno.
      repeat match type of Hno with
             | _ && _ = true => apply andb_prop in Hno as [? Hno]
             end.
      repeat split; by apply resync_off_other. }
  destruct Hoff as (O1 & O2 & O3 & O4 & O5 & O6 & O7 & O8).
  assert (E1 : shift_kar prev d1 = K1) by (by apply shift_kar_sign).
  assert (E2 : shift_kar K1 d2 = K2) by (by apply shift_kar_sign).
  assert (E3 : shift_kar K2 d3 = K3) by (by apply shift_kar_sign).
  assert (E4 : shift_kar K3 d4 = K4) by (by apply shift_kar_sign).
  assert (E5 : shift_kar K4 d5 = K5) by (by apply shift_kar_sign).
  assert (E6 : shift_kar K5 d6 = K6) by (by apply shift_kar_sign).
  assert (E7 : shift_kar K6 d7 = K7) by (by apply shift_kar_sign).
  assert (E8' : shift_kar K7 d8 = K8) by (by apply shift_kar_sign).
  clearbody K1 K2 K3 K4 K5 K6 K7 K8. clear c.
  rewrite bit_periods_cons, step_count
    by first [rewrite E1; assumption | lia].
  rewrite E1. cbn [mbind option_bind]. change (0 + 1) with 1.
  rewrite bit_periods_cons, step_count
    by first [rewrite E2; assumption | lia].
  rewrite E2. cbn [mbind option_bind]. change (1 + 1) with 2.
  rewrite bit_periods_cons, step_count
    by first [rewrite E3; assumption | lia].
  rewrite E3. cbn [mbind option_bind]. change (2 + 1) with 3.
  rewrite bit_periods_cons, step_count
    by first [rewrite E4; assumption | lia].
  rewrite E4. cbn [mbind option_bind]. change (3 + 1) with 4.
  rewrite bit_periods_cons, step_count
    by first [rewrite E5; assumption | lia].
  rewrite E5. cbn [mbind option_bind]. change (4 + 1) with 5.
  rewrite bit_periods_cons, step_count
    by first [rewrite E6; assumption | lia].
  rewrite E6. cbn [mbind option_bind]. change (5 + 1) with 6.
  rewrite bit_periods_cons, step_count
    by first [rewrite E7; assumption | lia].
  rewrite E7. cbn [mbind option_bind]. change (6 + 1) with 7.
  rewrite bit_periods_cons, step_byte
    by first [rewrite E8'; assumption | lia].
  rewrite E8', E8.
  destruct (byte_complete b 1 s) as [[[sy' s'] evs]|]; [|reflexivity].
  cbn [mbind option_bind bit_periods app last default].
  by rewrite app_nil_r.
Qed.

Lemma fold_shift_kar_decides (b k : Z) (dcds : list Z) :
  0 <= b < 256 -> 0 <= k < 256 -> decides dcds (sent_bits b) ->
  fold_left shift_kar dcds k = b.
Proof.
  intros Hb Hk Hdec.
  destruct (decides_sent_bits b dcds Hdec)
    as (d1 & d2 & d3 & d4 & d5 & d6 & d7 & d8 & -> & H1 & H2 & H3 & H4
        & H5 & H6 & H7 & H8).
  transitivity (reassembled b k); [|by apply reassembled_data].
  unfold reassembled. cbn [fold_left].
  rewrite (shift_kar_sign _ d1 _ H1), (shift_kar_sign _ d2 _ H2),
    (shift_kar_sign _ d3 _ H3), (shift_kar_sign _ d4 _ H4),
    (shift_kar_sign _ d5 _ H5), (shift_kar_sign _ d6 _ H6),
    (shift_kar_sign _ d7 _ H7), (shift_kar_sign _ d8 _ H8).
  reflexivity.
Qed.

(** *** The preamble *)

(** A bit period while no byte can be completed: at most [i] bit
    periods have passed since synchronisation. *)
Lemma unsynced_step (i d sr sp k bc d0 sy : Z) (s : l2_state) :
  frame_state s <> EAS_L2_READING_MESSAGE -> 0 <= i <= 7 ->
  sy = 0 \/ (sy = 1 /\ 0 <= bc < i) ->
  exists bc' sy',
    bit_period (mk_demod sr sp k bc d sy s)
    = Some (mk_demod sr 1 (shift_kar k d) bc' d sy' s, [])
    /\ (sy' = 0 \/ (sy' = 1 /\ 0 <= bc' < i + 1)).
Proof.
  intros Hfs Hi Hinv. rewrite bit_period_unfold. cbv zeta.
  destruct ((shift_kar k d =? PREAMBLE)
            && negb (state_eqb (frame_state s) EAS_L2_READING_MESSAGE)).
  { exists 0, 1. split; [done|]. right. lia. }
  destruct Hinv as [->|[-> Hbc]].
  - exists bc, 0. split; [done|]. by left.
  - change (negb (1 =? 0)) with true. cbv iota.
    rewrite Z.mod_small by lia.
    destruct (bc + 1 =? 8) eqn:E; zbool; [lia|].
    exists (bc + 1), 1. split; [done|]. right. lia.
Qed.

Lemma unsynced_steps (ds : list Z) :
  forall (i sr sp k bc d0 sy : Z) (s : l2_state),
    frame_state s <> EAS_L2_READING_MESSAGE ->
    0 <= i -> i + Z.of_nat (length ds) <= 8 ->
    sy = 0 \/ (sy = 1 /\ 0 <= bc < i) ->
    exists sp' bc' d' sy',
      bit_periods ds (mk_demod sr sp k bc d0 sy s)
      = Some (mk_demod sr sp' (fold_left shift_kar ds k) bc' d' sy' s, [])
      /\ (sy' = 0 \/ (sy' = 1 /\ 0 <= bc' < i + Z.of_nat (length ds))).
Proof.
  induction ds as [|d ds IH]; intros i sr sp k bc d0 sy s Hfs Hi Hlen Hinv.
  - exists sp, bc, d0, sy. split; [done|]. cbn [length]. lia.
  - cbn [length] in Hlen.
    destruct (unsynced_step i d sr sp k bc d0 sy s Hfs ltac:(lia) Hinv)
      as (bc1 & sy1 & Hstep & Hinv1).
    destruct (IH (i + 1) sr 1 (shift_kar k d) bc1 d sy1 s Hfs ltac:(lia)
                 ltac:(lia) Hinv1)
      as (sp' & bc' & d' & sy' & Hrun & Hinv').
    exists sp', bc', d', sy'. split.
    + rewrite bit_periods_cons, Hstep. cbn [mbind option_bind].
      rewrite Hrun. reflexivity.
    + cbn [length]. lia.
Qed.

(** X19: a preamble synchronises the assembler.  From a state that is
    not synchronised, or is synchronised at a byte boundary, and while
    no message is read, the eight bit periods of a preamble byte leave
    the decoder synchronised with the bit counter at 0 and [current_kar]
    equal to the preamble; no byte reaches the frame parser and nothing
    is printed, whatever [current_kar] held before. *)
Theorem preamble_synchronises (dcds : list Z) (st : demod_state) :
  decides dcds (sent_bits PREAMBLE) ->
  frame_state (l2 st) <> EAS_L2_READING_MESSAGE ->
  0 <= current_kar st < 256 ->
  decoder_synced st = 0 \/ (decoder_synced st = 1 /\ bit_counter st = 0) ->
  exists st',
    bit_periods dcds st = Some (st', [])
    /\ current_kar st' = PREAMBLE /\ bit_counter st' = 0
    /\ decoder_synced st' = 1 /\ l2 st' = l2 st.
Proof.
  intros Hdec Hfs Hk Hsy.
  destruct st as [sr sp k bc d0 sy s]. cbn in Hfs, Hk, Hsy.
  pose proof (fold_shift_kar_decides PREAMBLE k dcds ltac:(unfold PREAMBLE; lia)
                Hk Hdec) as Hfold.
  destruct (decides_sent_bits _ dcds Hdec)
    as (d1 & d2 & d3 & d4 & d5 & d6 & d7 & d8 & -> & _).
  change [d1; d2; d3; d4; d5; d6; d7; d8]
    with ([d1; d2; d3; d4; d5; d6; d7] ++ [d8]) in *.
  rewrite fold_left_app in Hfold. cbn [fold_left] in Hfold.
  destruct (unsynced_steps [d1; d2; d3; d4; d5; d6; d7] 1 sr sp k bc d0 sy s
              Hfs ltac:(lia) ltac:(cbn; lia))
    as (sp' & bc' & d' & sy' & Hrun & _).
  { destruct Hsy as [->|[-> ->]]; [by left|right; lia]. }
  cbn [fold_left] in Hrun.
  rewrite bit_periods_app, Hrun. cbn [mbind option_bind].
  rewrite bit_periods_cons.
  rewrite (step_sync sr sp' _ bc' d8 sy' s Hfold Hfs).
  cbn [mbind option_bind bit_periods app].
  eexists. split; [reflexivity|]. done.
Qed.

Lemma preamble_synchronises_witness :
  decides [0; 0; -1; 0; -1; 0; -1; 0] (sent_bits PREAMBLE)
  /\ frame_state (l2 demod_init) <> EAS_L2_READING_MESSAGE
  /\ 0 <= current_kar demod_init < 256
  /\ (decoder_synced demod_init = 0
      \/ (decoder_synced demod_init = 1 /\ bit_counter demod_init = 0))
  /\ exists st',
       bit_periods [0; 0; -1; 0; -1; 0; -1; 0] demod_init = Some (st', [])
       /\ current_kar st' = PREAMBLE /\ bit_counter st' = 0
       /\ decoder_synced st' = 1 /\ l2 st' = l2 demod_init.
Proof.
  assert (H1 : decides [0; 0; -1; 0; -1; 0; -1; 0] (sent_bits PREAMBLE))
    by (repeat constructor).
  assert (H2 : frame_state (l2 demod_init) <> EAS_L2_READING_MESSAGE)
    by discriminate.
  assert (H3 : 0 <= current_kar demod_init < 256) by (simpl; lia).
  assert (H4 : decoder_synced demod_init = 0
               \/ (decoder_synced demod_init = 1
                   /\ bit_counter demod_init = 0))
    by (left; reflexivity).
  split; [exact H1|]. split; [exact H2|]. split; [exact H3|].
  split; [exact H4|].
  exact (preamble_synchronises [0; 0; -1; 0; -1; 0; -1; 0] demod_init
           H1 H2 H3 H4).
Defined.

(** *** The bytes of a frame *)

Lemma byte_complete_allowed (b sy : Z) (s : l2_state) :
  0 <= b < 128 ->
  byte_complete b sy s
  = '(s', evs) ← process_frame_char b s; Some (sy, s', evs).
Proof.
  intros Hb. unfold byte_complete. rewrite eas_allowed_7bit by lia.
  destruct (b <? 128) eqn:E; zbool; [reflexivity|lia].
Qed.

Lemma byte_complete_refused (b sy : Z) (s : l2_state) :
  128 <= b < 256 ->
  byte_complete b sy s
  = '(s', evs) ← process_frame_char 0 s; Some (0, s', evs).
Proof.
  intros Hb. unfold byte_complete. rewrite eas_allowed_7bit by lia.
  destruct (b <? 128) eqn:E; zbool; [lia|reflexivity].
Qed.

(** A byte of a message leaves the parser reading the message. *)
Lemma data_keeps_reading (b : Z) (s s' : l2_state) (evs : list event) :
  b <> 0 -> frame_state s = EAS_L2_READING_MESSAGE ->
  process_frame_char b s = Some (s', evs) ->
  frame_state s' = EAS_L2_READING_MESSAGE /\ evs = [].
Proof.
  intros Hb Hfs. unfold process_frame_char.
  destruct (b =? 0) eqn:E; zbool; [done|].
  unfold on_data. cbv zeta.
  rewrite Hfs. cbn [state_eqb andb]. rewrite Hfs. cbn [state_eqb andb].
  cbn [mbind option_bind]. rewrite Hfs. cbn [state_eqb andb].
  destruct (msglen s <=? MAX_MSG_LEN).
  - intros H. apply bind_Some in H as (s1 & H & [= <- <-]).
    apply bind_Some in H as (row & _ & H).
    apply bind_Some in H as (row' & _ & H).
    apply bind_Some in H as (mb & _ & [= <-]). done.
  - cbn [mbind option_bind]. intros [= <- <-]. done.
Qed.

Lemma bytes_received (bs : list Z) :
  forall (dcds : list Z) (prev sr sp d0 : Z) (s s' : l2_state)
         (evs : list event),
    0 <= prev < 256 -> Forall (fun b => 0 < b < 128) bs ->
    decides dcds (concat (map sent_bits bs)) ->
    frame_state s = EAS_L2_READING_MESSAGE ->
    feed bs s = Some (s', evs) ->
    exists prev' sp' d',
      bit_periods dcds (mk_demod sr sp prev 0 d0 1 s)
      = Some (mk_demod sr sp' prev' 0 d' 1 s', evs)
      /\ 0 <= prev' < 256
      /\ frame_state s' = EAS_L2_READING_MESSAGE.
Proof.
  induction bs as [|b bs IH];
    intros dcds prev sr sp d0 s s' evs Hprev Hbs Hdec Hfs Hfeed.
  - cbn in Hdec. apply Forall2_nil_inv_r in Hdec as ->.
    injection Hfeed as <- <-. by exists prev, sp, d0.
  - apply Forall_cons in Hbs as [Hb Hbs].
    cbn [map concat] in Hdec.
    apply Forall2_app_inv_r in Hdec as (ds1 & ds2 & Hd1 & Hd2 & ->).
    cbn [feed] in Hfeed.
    apply bind_Some in Hfeed as ([s1 e1] & Hp & Hfeed).
    apply bind_Some in Hfeed as ([s2 e2] & Hrest & [= <- <-]).
    destruct (data_keeps_reading b s s1 e1 ltac:(lia) Hfs Hp) as [Hfs1 ->].
    rewrite bit_periods_app.
    rewrite (byte_received b prev ds1 sr sp d0 s) by (try done; lia || by left).
    rewrite byte_complete_allowed by lia. rewrite Hp.
    cbn [mbind option_bind].
    destruct (IH ds2 b sr 1 (default d0 (last ds1)) s1 s2 e2)
      as (prev' & sp' & d' & Hrun & Hp' & Hfs2); try done; [lia|].
    rewrite Hrun. cbn [mbind option_bind app].
    by exists prev', sp', d'.
Qed.

Lemma no_resync_header :
  no_resync PREAMBLE 90 = true /\ no_resync 90 67 = true
  /\ no_resync 67 90 = true.
Proof. repeat split; vm_compute; reflexivity. Qed.

(** The four bytes of the header after the preamble: no bit of them
    completes a preamble. *)
Lemma header_received (dcds : list Z) (sr sp d0 : Z) (s : l2_state) :
  decides dcds (concat (map sent_bits HEADER_BEGIN_text)) ->
  frame_state s = EAS_L2_IDLE -> headlen s = 0 ->
  length (head_buf s) = 4%nat ->
  exists sp' d',
    bit_periods dcds (mk_demod sr sp PREAMBLE 0 d0 1 s)
    = Some (mk_demod sr sp' 67 0 d' 1
              (searching s HEADER_BEGIN_text 4 EAS_L2_READING_MESSAGE), []).
Proof.
  intros Hdec Hfs Hhl Hlen.
  destruct no_resync_header as (R1 & R2 & R3).
  unfold HEADER_BEGIN_text in Hdec. cbn [map concat] in Hdec.
  apply Forall2_app_inv_r in Hdec as (ds1 & dcds1 & Hd1 & Hdec & ->).
  apply Forall2_app_inv_r in Hdec as (ds2 & dcds2 & Hd2 & Hdec & ->).
  apply Forall2_app_inv_r in Hdec as (ds3 & dcds3 & Hd3 & Hdec & ->).
  apply Forall2_app_inv_r in Hdec as (ds4 & dcds4 & Hd4 & Hdec & ->).
  apply Forall2_nil_inv_r in Hdec as ->. rewrite app_nil_r.
  destruct s as [lm mb hb hl ml no fs]. cbn in Hfs, Hhl, Hlen. subst hl fs.
  destruct hb as [|x0 [|x1 [|x2 [|x3 [|? ?]]]]]; try discriminate Hlen.
  rewrite bit_periods_app, (byte_received 90 PREAMBLE ds1)
    by (try done; unfold PREAMBLE; lia || by right).
  rewrite byte_complete_allowed by lia.
  rewrite header_byte by (cbn; first [done | by left | lia]).
  cbn [mbind option_bind searching headlen head_buf msg_buf msgno msglen
       last_message frame_state].
  rewrite bit_periods_app, (byte_received 67 90 ds2)
    by (try done; lia || by right).
  rewrite byte_complete_allowed by lia.
  rewrite header_byte by (cbn; first [done | by right | lia]).
  cbn [mbind option_bind searching headlen head_buf msg_buf msgno msglen
       last_message frame_state].
  rewrite bit_periods_app, (byte_received 90 67 ds3)
    by (try done; lia || by right).
  rewrite byte_complete_allowed by lia.
  rewrite header_byte by (cbn; first [done | by right | lia]).
  cbn [mbind option_bind searching headlen head_buf msg_buf msgno msglen
       last_message frame_state].
  rewrite (byte_received 67 90 ds4) by (try done; lia || by right).
  rewrite byte_complete_allowed by lia.
  rewrite (header_last 90 67 90 67 x3) by (cbn; done).
  cbn [mbind option_bind app]. by eexists _, _.
Qed.

Lemma feed_single (b : Z) (s s' : l2_state) (evs : list event) :
  feed [b] s = Some (s', evs) -> process_frame_char b s = Some (s', evs).
Proof.
  cbn [feed]. intros H.
  apply bind_Some in H as ([s1 e1] & Hp & H).
  cbn [mbind option_bind] in H. injection H as <- <-.
  by rewrite app_nil_r.
Qed.

(** X20: the assembler hands the parser the bytes of a frame.  After a
    preamble has synchronised the decoder, when the bit decisions are
    the bits of "ZCZC" and of a body of bytes in 1..127, followed by
    eight equal decisions (the silence that ends the frame), the frame
    parser ends where feeding it the frame "ZCZC", body, NUL leaves it
    and the same things are printed: no bit of the header is taken for
    a preamble, and none of the body, since the decoder does not
    resynchronise while a message is read.  The decoder stays
    synchronised when the silence is decided as zeros and drops
    synchronisation when it is decided as ones. *)
Theorem frame_received_bitwise (body : list Z) (c : Z) (dcds : list Z)
        (st : demod_state) :
  current_kar st = PREAMBLE -> bit_counter st = 0 -> decoder_synced st = 1 ->
  wf (l2 st) -> frame_state (l2 st) = EAS_L2_IDLE -> headlen (l2 st) = 0 ->
  Forall (fun b => 0 < b < 128) body -> (length body <= 268)%nat ->
  c = 0 \/ c = 255 ->
  decides dcds (concat (map sent_bits (HEADER_BEGIN_text ++ body ++ [c]))) ->
  exists st' evs,
    bit_periods dcds st = Some (st', evs)
    /\ feed (frame_of body) (l2 st) = Some (l2 st', evs)
    /\ decoder_synced st' = (if c =? 0 then 1 else 0).
Proof.
  intros Hk Hbc Hsy Hwf Hfs Hhl Hbody Hlen Hc Hdec.
  destruct st as [sr sp k bc d0 sy s]. cbn in Hk, Hbc, Hsy, Hwf, Hfs, Hhl.
  subst k bc sy. cbn [l2].
  assert (Hnz : Forall (fun x => x <> 0) body).
  { eapply Forall_impl; [exact Hbody|]. intros x Hx. cbv beta in Hx. lia. }
  destruct (one_frame body s Hwf Hfs Hhl Hnz Hlen)
    as (row2 & lm' & F & _).
  cbv zeta in F.
  match type of F with
  | _ = Some (?a, ?e) => set (evs := e) in *; set (s' := a) in *
  end.
  clearbody s' evs.
  pose proof Hwf as [_ _ _ Hhd _ _ _ _].
  pose proof F as F0.
  unfold frame_of in F. rewrite feed_app in F.
  unfold HEADER_BEGIN_text at 1 in F.
  rewrite header_search in F by (try done; try lia; by left).
  fold HEADER_BEGIN_text in F. rewrite header_kind_begin in F.
  cbn [mbind option_bind header_len] in F.
  set (sm := searching s HEADER_BEGIN_text 4 EAS_L2_READING_MESSAGE) in *.
  apply bind_Some in F as ([s3 e3] & F & [= <- <-]).
  rewrite feed_app in F.
  apply bind_Some in F as ([s2 e2] & Fb & F).
  apply bind_Some in F as ([s4 e4] & Fz & [= <- <-]).
  apply feed_single in Fz.
  rewrite !map_app, !concat_app in Hdec.
  apply Forall2_app_inv_r in Hdec as (dh & dcds1 & Hdh & Hdec & ->).
  apply Forall2_app_inv_r in Hdec as (db & dc & Hdb & Hdc & ->).
  cbn [map concat] in Hdc. rewrite app_nil_r in Hdc.
  destruct (header_received dh sr sp d0 s Hdh Hfs Hhl Hhd)
    as (sp1 & d1 & Hrun1).
  fold sm in Hrun1.
  destruct (bytes_received body db 67 sr sp1 d1 sm s2 e2)
    as (prev & sp2 & d2 & Hrun2 & Hprev & Hfs2); try done; try lia.
  rewrite bit_periods_app, Hrun1. cbn [mbind option_bind].
  rewrite bit_periods_app, Hrun2. cbn [mbind option_bind].
  rewrite (byte_received c prev dc sr sp2 d2 s2)
    by (try done; lia || by left).
  destruct Hc as [-> | ->].
  - rewrite byte_complete_allowed by lia. rewrite Fz.
    cbn [mbind option_bind app]. eexists _, _.
    split; [reflexivity|]. split; [exact F0|done].
  - rewrite byte_complete_refused by lia. rewrite Fz.
    cbn [mbind option_bind app]. eexists _, _.
    split; [reflexivity|]. split; [exact F0|done].
Qed.

Lemma frame_received_bitwise_witness :
  let st := mk_demod 0 1 PREAMBLE 0 0 1 l2_init in
  let dcds := map (fun bit => bit - 1)
                  (concat (map sent_bits
                               (HEADER_BEGIN_text ++ [65; 45] ++ [0]))) in
  current_kar st = PREAMBLE /\ bit_counter st = 0 /\ decoder_synced st = 1
  /\ wf (l2 st) /\ frame_state (l2 st) = EAS_L2_IDLE /\ headlen (l2 st) = 0
  /\ Forall (fun b => 0 < b < 128) [65; 45] /\ (length [65; 45] <= 268)%nat
  /\ (0 = 0 \/ 0 = 255)
  /\ decides dcds (concat (map sent_bits
                               (HEADER_BEGIN_text ++ [65; 45] ++ [0])))
  /\ exists st' evs,
       bit_periods dcds st = Some (st', evs)
       /\ feed (frame_of [65; 45]) (l2 st) = Some (l2 st', evs)
       /\ decoder_synced st' = (if 0 =? 0 then 1 else 0).
Proof.
  cbv zeta.
  assert (Hb : Forall (fun b => 0 < b < 128) [65; 45])
    by (repeat constructor; lia).
  assert (Hl : (length [65; 45] <= 268)%nat) by (simpl; lia).
  assert (Hc : 0 = 0 \/ 0 = 255) by (left; reflexivity).
  assert (Hd : decides
                 (map (fun bit => bit - 1)
                      (concat (map sent_bits
                                   (HEADER_BEGIN_text ++ [65; 45] ++ [0]))))
                 (concat (map sent_bits
                              (HEADER_BEGIN_text ++ [65; 45] ++ [0]))))
    by (vm_compute; repeat constructor).
  split; [reflexivity|]. split; [reflexivity|]. split; [reflexivity|].
  split; [exact wf_init|]. split; [reflexivity|]. split; [reflexivity|].
  split; [exact Hb|]. split; [exact Hl|]. split; [exact Hc|].
  split; [exact Hd|].
  exact (frame_received_bitwise [65; 45] 0 _
           (mk_demod 0 1 PREAMBLE 0 0 1 l2_init)
           eq_refl eq_refl eq_refl wf_init eq_refl eq_refl Hb Hl Hc Hd).
Defined.

End AssemblyFacts.
